(** * Policy reconciliation engine of the egress gateway agent

    A shallow embedding of [pkg/agent/police.go]: the derivation of ipset
    names, the diff of ipset members, the rule builders, the cluster-info
    reconciler, the policy reconciler and the full rebuild
    ([initApplyPolicy]).  Go strings are byte strings: they are modelled by
    [string] (a list of 8-bit [ascii]), [len] by [String.length]. *)

From Stdlib Require Import ZArith Ascii String List Lia Bool DecimalString.
From stdpp Require Import base option list gmap strings.

Set Warnings "-clear-no-such-hyp".

Open Scope Z_scope.

(** ** Go's [strings] package: the three functions the agent uses *)

Module GoStrings.

(** [strings.HasPrefix(s, p)]. *)
Fixpoint HasPrefix (s p : string) : bool :=
  match p, s with
  | EmptyString, _ => true
  | String c p', String d s' => if Ascii.eqb c d then HasPrefix s' p' else false
  | String _ _, EmptyString => false
  end.

(** [strings.TrimPrefix(s, prefix)]. *)
Fixpoint dropn (n : nat) (s : string) : string :=
  match n, s with
  | S k, String _ s' => dropn k s'
  | _, _ => s
  end.

Definition TrimPrefix (s prefix : string) : string :=
  if HasPrefix s prefix then dropn (String.length prefix) s else s.

(** [strings.HasSuffix(s, suffix)]:
    [len(s) >= len(suffix) && s[len(s)-len(suffix):] == suffix]. *)
Definition HasSuffix (s suffix : string) : bool :=
  (String.length suffix <=? String.length s)%nat &&
  String.eqb (substring (String.length s - String.length suffix)
                        (String.length suffix) s) suffix.

(** [strings.TrimSuffix(s, suffix)]: [s] without the suffix when it has
    it, [s] otherwise. *)
Definition TrimSuffix (s suffix : string) : string :=
  if HasSuffix s suffix
  then substring 0 (String.length s - String.length suffix) s
  else s.

(** [strings.ReplaceAll(s, old, new)] for a non-empty [old]: every
    non-overlapping occurrence, scanning from the left.  [skip] counts the
    bytes of the occurrence being replaced that are still to be passed
    over.  (The agent only calls it with [old = "0x"].) *)
Fixpoint replaceFrom (skip : nat) (s old new : string) : string :=
  match s with
  | EmptyString => EmptyString
  | String c s' =>
      match skip with
      | S k => replaceFrom k s' old new
      | O =>
          if HasPrefix s old
          then new +:+ replaceFrom (String.length old - 1) s' old new
          else String c (replaceFrom 0 s' old new)
      end
  end.

Definition ReplaceAll (s old new : string) : string := replaceFrom 0 s old new.

(** [strings.Contains(s, substr)]. *)
Fixpoint Contains (s substr : string) : bool :=
  HasPrefix s substr ||
  match s with
  | EmptyString => false
  | String _ s' => Contains s' substr
  end.

End GoStrings.

(** ** SHA-1 ([crypto/sha1]) and [fmt.Sprintf("%x", ...)] *)

Module Sha1.

Definition mask32 (x : Z) : Z := Z.land x 0xffffffff.
Definition add32 (a b : Z) : Z := mask32 (a + b).
Definition rotl (n x : Z) : Z :=
  mask32 (Z.lor (Z.shiftl x n) (Z.shiftr x (32 - n))).
Definition not32 (x : Z) : Z := Z.lxor x 0xffffffff.

Definition bytes_of_string (s : string) : list Z :=
  map (fun a => Z.of_N (N_of_ascii a)) (list_ascii_of_string s).

(** Big-endian bytes of a word of [n] bytes. *)
Fixpoint be_bytes (n : nat) (x : Z) : list Z :=
  match n with
  | O => []
  | S k => Z.land (Z.shiftr x (8 * Z.of_nat k)) 0xff :: be_bytes k x
  end.

(** The message, the byte 0x80, zeros up to 56 modulo 64, and the length
    in bits as a 64-bit big-endian integer. *)
Definition pad (msg : list Z) : list Z :=
  let len := Z.of_nat (List.length msg) in
  msg ++ [0x80] ++ repeat 0 (Z.to_nat ((55 - len) mod 64)) ++ be_bytes 8 (8 * len).

Fixpoint words (fuel : nat) (bs : list Z) : list Z :=
  match fuel, bs with
  | S k, b0 :: b1 :: b2 :: b3 :: rest =>
      Z.lor (Z.shiftl b0 24) (Z.lor (Z.shiftl b1 16) (Z.lor (Z.shiftl b2 8) b3))
      :: words k rest
  | _, _ => []
  end.

(** The message schedule, most recent word first: [rev_ws] holds
    w[t-1], w[t-2], ...; the next word is
    rotl 1 (w[t-3] xor w[t-8] xor w[t-14] xor w[t-16]). *)
Fixpoint extend (n : nat) (rev_ws : list Z) : list Z :=
  match n with
  | O => rev_ws
  | S k =>
      let w := rotl 1 (Z.lxor (Z.lxor (nth 2 rev_ws 0) (nth 7 rev_ws 0))
                              (Z.lxor (nth 13 rev_ws 0) (nth 15 rev_ws 0))) in
      extend k (w :: rev_ws)
  end.

Definition schedule (block : list Z) : list Z :=
  rev (extend 64 (rev (words 16 block))).

Definition digest : Type := Z * Z * Z * Z * Z.

Definition round (t : Z) (w : Z) (s : digest) : digest :=
  let '(a, b, c, d, e) := s in
  let '(f, k) :=
    if t <? 20 then (Z.lor (Z.land b c) (Z.land (not32 b) d), 0x5A827999)
    else if t <? 40 then (Z.lxor (Z.lxor b c) d, 0x6ED9EBA1)
    else if t <? 60 then
      (Z.lor (Z.lor (Z.land b c) (Z.land b d)) (Z.land c d), 0x8F1BBCDC)
    else (Z.lxor (Z.lxor b c) d, 0xCA62C1D6) in
  let temp := add32 (add32 (add32 (add32 (rotl 5 a) f) e) k) w in
  (temp, a, rotl 30 b, c, d).

Fixpoint rounds (t : Z) (ws : list Z) (s : digest) : digest :=
  match ws with
  | [] => s
  | w :: ws' => rounds (t + 1) ws' (round t w s)
  end.

Definition block (h : digest) (blk : list Z) : digest :=
  let '(h0, h1, h2, h3, h4) := h in
  let '(a, b, c, d, e) := rounds 0 (schedule blk) h in
  (add32 h0 a, add32 h1 b, add32 h2 c, add32 h3 d, add32 h4 e).

Fixpoint blocks (fuel : nat) (h : digest) (bs : list Z) : digest :=
  match fuel, bs with
  | S k, _ :: _ => blocks k (block h (firstn 64 bs)) (skipn 64 bs)
  | _, _ => h
  end.

Definition init : digest :=
  (0x67452301, 0xEFCDAB89, 0x98BADCFE, 0x10325476, 0xC3D2E1F0).

(** [sha1.Sum(data)]: the 20 bytes of the digest. *)
Definition Sum (data : list Z) : list Z :=
  let p := pad data in
  let '(h0, h1, h2, h3, h4) := blocks (List.length p) init p in
  be_bytes 4 h0 ++ be_bytes 4 h1 ++ be_bytes 4 h2 ++ be_bytes 4 h3 ++ be_bytes 4 h4.

Definition hexdigit (x : Z) : ascii :=
  if x <? 10 then ascii_of_N (Z.to_N (48 + x)) else ascii_of_N (Z.to_N (87 + x)).

(** [fmt.Sprintf("%x", bytes)]: two lower-case digits a byte. *)
Fixpoint hex (bs : list Z) : string :=
  match bs with
  | [] => EmptyString
  | b :: bs' =>
      String (hexdigit (Z.shiftr b 4)) (String (hexdigit (Z.land b 0xf)) (hex bs'))
  end.

Definition hexsum (s : string) : string := hex (Sum (bytes_of_string s)).

End Sha1.

(** ** Go's [net] package: [ParseIP], [ParseCIDR], [IP.String],
    [IPNet.String]

    The agent canonicalizes addresses with the standard library.  The model
    follows [net] and [net/netip] (Go 1.19 to 1.21, where [net.ParseIP]
    delegates to [netip.ParseAddr]).  An [IP] and an [IPMask] are byte
    slices; the nil slice is []: no function below builds an empty slice
    that is not nil. *)

Module GoNet.

Definition IP : Type := list Z.
Definition IPMask : Type := list Z.
Record IPNet : Type := mkIPNet { ipnIP : IP; ipnMask : IPMask }.

Definition code (c : ascii) : Z := Z.of_N (N_of_ascii c).
Definition isDigit (c : ascii) : bool := (48 <=? code c) && (code c <=? 57).

Definition hexval (c : ascii) : option Z :=
  let x := code c in
  if (48 <=? x) && (x <=? 57) then Some (x - 48)
  else if (97 <=? x) && (x <=? 102) then Some (x - 97 + 10)
  else if (65 <=? x) && (x <=? 70) then Some (x - 65 + 10)
  else None.

Definition isEmpty (s : string) : bool :=
  match s with EmptyString => true | _ => false end.

(** [uitoa]: decimal digits of a non-negative integer. *)
Definition uitoa (n : Z) : string := NilEmpty.string_of_uint (N.to_uint (Z.to_N n)).

(** [netip.parseIPv4]: [first] is [i == 0], [prevDot] is
    [s[i-1] == '.'], [fields] are the octets read so far ([pos] is their
    number). *)
Fixpoint parseIPv4_from (s : string) (first prevDot : bool)
         (val digLen : Z) (fields : list Z) : option (list Z) :=
  match s with
  | EmptyString =>
      if (List.length fields <? 3)%nat then None else Some (fields ++ [val])
  | String c rest =>
      if isDigit c then
        if (digLen =? 1) && (val =? 0) then None
        else
          let val' := val * 10 + (code c - 48) in
          if val' >? 255 then None
          else parseIPv4_from rest false false val' (digLen + 1) fields
      else if Ascii.eqb c "." then
        if first || isEmpty rest || prevDot then None
        else if (List.length fields =? 3)%nat then None
        else parseIPv4_from rest false true 0 0 (fields ++ [val])
      else None
  end.

Definition parseIPv4 (s : string) : option (list Z) :=
  parseIPv4_from s true false 0 0 [].

(** The hexadecimal field at the head of [s]: its value, the number of
    digits and what follows; [None] when the value exceeds 16 bits. *)
Fixpoint hexField (s : string) (acc : Z) (off : nat) : option (Z * nat * string) :=
  match s with
  | EmptyString => Some (acc, off, s)
  | String c rest =>
      match hexval c with
      | Some d =>
          let acc' := acc * 16 + d in
          if acc' >? 0xffff then None else hexField rest acc' (S off)
      | None => Some (acc, off, s)
      end
  end.

Definition isEmpty_list {A} (l : list A) : bool :=
  match l with [] => true | _ => false end.

Definition isNone {A} (o : option A) : bool :=
  match o with Some _ => false | None => true end.

(** The loop of [netip.parseIPv6] ([for i < 16]): [ip] holds the [i] bytes
    parsed so far; the result is the unread rest of the string, the bytes
    and the position of the ellipsis.  Every iteration adds two bytes, so
    eight units of [fuel] are enough. *)
Fixpoint parseIPv6_loop (fuel : nat) (s : string) (ip : list Z)
         (ellipsis : option nat) : option (string * list Z * option nat) :=
  if (16 <=? List.length ip)%nat then Some (s, ip, ellipsis) else
  match fuel with
  | O => None
  | S k =>
      match hexField s 0 0 with
      | None => None
      | Some (acc, off, rest) =>
          if (off =? 0)%nat then None else
          match rest with
          | EmptyString =>
              Some (EmptyString, ip ++ [Z.shiftr acc 8; Z.land acc 0xff], ellipsis)
          | String c rest1 =>
              if Ascii.eqb c "." then
                if isNone ellipsis && negb (List.length ip =? 12)%nat then None
                else if (16 <? List.length ip + 4)%nat then None
                else match parseIPv4 s with
                     | None => None
                     | Some ip4 => Some (EmptyString, ip ++ ip4, ellipsis)
                     end
              else
                let ip' := ip ++ [Z.shiftr acc 8; Z.land acc 0xff] in
                if negb (Ascii.eqb c ":") then None else
                match rest1 with
                | EmptyString => None
                | String c2 rest2 =>
                    if Ascii.eqb c2 ":" then
                      match ellipsis with
                      | Some _ => None
                      | None =>
                          if isEmpty rest2
                          then Some (EmptyString, ip', Some (List.length ip'))
                          else parseIPv6_loop k rest2 ip' (Some (List.length ip'))
                      end
                    else parseIPv6_loop k rest1 ip' ellipsis
                end
          end
      end
  end.

Fixpoint contains (c : ascii) (s : string) : bool :=
  match s with
  | EmptyString => false
  | String d rest => Ascii.eqb c d || contains c rest
  end.

(** [netip.parseIPv6], for the callers that reject a zone ([net.ParseIP],
    [net.ParseCIDR]): a string with a '%' is refused either by the parser
    (empty zone) or by the caller (zone present). *)
Definition parseIPv6 (s : string) : option (list Z) :=
  if contains "%" s then None else
  let '(s0, ellipsis0) :=
    if GoStrings.HasPrefix s "::" then (GoStrings.TrimPrefix s "::", Some 0%nat)
    else (s, None) in
  if isEmpty s0 && negb (isNone ellipsis0) then Some (repeat 0 16) else
  match parseIPv6_loop 8 s0 [] ellipsis0 with
  | None => None
  | Some (rest, ip, ellipsis) =>
      if negb (isEmpty rest) then None
      else if (List.length ip <? 16)%nat then
        match ellipsis with
        | None => None
        | Some e =>
            Some (firstn e ip ++ repeat 0 (16 - List.length ip) ++ skipn e ip)
        end
      else if isNone ellipsis then Some ip else None
  end.

(** [netip.Addr], without the zone. *)
Inductive Addr : Type :=
| Addr4 (b : list Z)
| Addr6 (b : list Z).

Definition v4InV6Prefix : list Z := repeat 0 10 ++ [0xff; 0xff].

Definition As16 (a : Addr) : list Z :=
  match a with
  | Addr4 b => v4InV6Prefix ++ b
  | Addr6 b => b
  end.

Definition BitLen (a : Addr) : Z :=
  match a with Addr4 _ => 32 | Addr6 _ => 128 end.

(** [netip.ParseAddr]: the first '.', ':' or '%' decides the family. *)
Fixpoint ParseAddr_scan (whole s : string) : option Addr :=
  match s with
  | EmptyString => None
  | String c rest =>
      if Ascii.eqb c "." then Addr4 <$> parseIPv4 whole
      else if Ascii.eqb c ":" then Addr6 <$> parseIPv6 whole
      else if Ascii.eqb c "%" then None
      else ParseAddr_scan whole rest
  end.

Definition ParseAddr (s : string) : option Addr := ParseAddr_scan s s.

(** [net.ParseIP]: the 16-byte form, or nil. *)
Definition ParseIP (s : string) : IP :=
  match ParseAddr s with
  | Some a => As16 a
  | None => []
  end.

Definition isZeros (p : list Z) : bool := forallb (Z.eqb 0) p.
Definition allFF (p : list Z) : bool := forallb (Z.eqb 0xff) p.
Definition bytesEqual (a b : list Z) : bool := bool_decide (a = b).

Definition To4 (ip : IP) : IP :=
  if (List.length ip =? 4)%nat then ip
  else if (List.length ip =? 16)%nat && isZeros (firstn 10 ip)
          && (nth 10 ip 0 =? 0xff) && (nth 11 ip 0 =? 0xff)
       then skipn 12 ip
       else [].

Definition To16 (ip : IP) : IP :=
  if (List.length ip =? 4)%nat then v4InV6Prefix ++ ip
  else if (List.length ip =? 16)%nat then ip
  else [].

(** [appendHex]: lower-case hexadecimal without leading zeros. *)
Definition appendHex (x : Z) : string :=
  let d3 := Z.shiftr x 12 in
  let d2 := Z.land (Z.shiftr x 8) 0xf in
  let d1 := Z.land (Z.shiftr x 4) 0xf in
  let d0 := Z.land x 0xf in
  let h := Sha1.hexdigit in
  if negb (d3 =? 0) then String (h d3) (String (h d2) (String (h d1) (String (h d0) EmptyString)))
  else if negb (d2 =? 0) then String (h d2) (String (h d1) (String (h d0) EmptyString))
  else if negb (d1 =? 0) then String (h d1) (String (h d0) EmptyString)
  else String (h d0) EmptyString.

Fixpoint groups (p : list Z) : list Z :=
  match p with
  | hi :: lo :: rest => Z.lor (Z.shiftl hi 8) lo :: groups rest
  | _ => []
  end.

Fixpoint zeroRun (gs : list Z) : nat :=
  match gs with
  | g :: rest => if g =? 0 then S (zeroRun rest) else O
  | [] => O
  end.

(** The first longest run of at least two zero groups: its start and
    length ([best] is the candidate so far). *)
Fixpoint longestZeroRun (i : nat) (gs : list Z) (best : option (nat * nat))
  : option (nat * nat) :=
  match gs with
  | [] => best
  | _ :: rest =>
      let l := zeroRun gs in
      let cur := match best with Some (_, bl) => bl | None => O end in
      let best' := if (2 <=? l)%nat && (cur <? l)%nat then Some (i, l) else best in
      longestZeroRun (S i) rest best'
  end.

Fixpoint print6 (fuel i : nat) (gs : list Z) (run : option (nat * nat)) : string :=
  match fuel with
  | O => EmptyString
  | S k =>
      if (8 <=? i)%nat then EmptyString
      else
        match run with
        | Some (zs, zl) =>
            if (i =? zs)%nat then
              "::" +:+ (if (8 <=? zs + zl)%nat then EmptyString
                        else appendHex (nth (zs + zl) gs 0)
                             +:+ print6 k (S (zs + zl)) gs run)
            else (if (0 <? i)%nat then ":" else EmptyString)
                 +:+ appendHex (nth i gs 0) +:+ print6 k (S i) gs run
        | None =>
            (if (0 <? i)%nat then ":" else EmptyString)
            +:+ appendHex (nth i gs 0) +:+ print6 k (S i) gs run
        end
  end.

Definition string4 (p : list Z) : string :=
  uitoa (nth 0 p 0) +:+ "." +:+ uitoa (nth 1 p 0) +:+ "."
  +:+ uitoa (nth 2 p 0) +:+ "." +:+ uitoa (nth 3 p 0).

Definition string6 (p : list Z) : string :=
  let gs := groups p in print6 8 0 gs (longestZeroRun 0 gs None).

(** [IP.String]. *)
Definition IPString (ip : IP) : string :=
  if (List.length ip =? 0)%nat then "<nil>"
  else if negb (List.length ip =? 4)%nat && negb (List.length ip =? 16)%nat
       then "?" +:+ Sha1.hex ip
  else if (List.length (To4 ip) =? 4)%nat then string4 (To4 ip)
  else string6 ip.

(** [dtoi]: the decimal number at the head of [s], the number of its
    digits and whether there was one (and below [big]). *)
Fixpoint dtoi_from (s : string) (n : Z) (i : nat) : Z * nat * bool :=
  match s with
  | String c rest =>
      if isDigit c then
        let n' := n * 10 + (code c - 48) in
        if n' >=? 0xFFFFFF then (0xFFFFFF, i, false)
        else dtoi_from rest n' (S i)
      else if (i =? 0)%nat then (0, O, false) else (n, i, true)
  | EmptyString => if (i =? 0)%nat then (0, O, false) else (n, i, true)
  end.

Definition dtoi (s : string) : Z * nat * bool := dtoi_from s 0 0.

(** [CIDRMask(ones, bits)] for [bits] 32 or 128 and [0 <= ones <= bits]. *)
Fixpoint maskBytes (l : nat) (n : Z) : list Z :=
  match l with
  | O => []
  | S k =>
      if n >=? 8 then 0xff :: maskBytes k (n - 8)
      else Z.land (Z.lnot (Z.shiftr 0xff n)) 0xff :: maskBytes k 0
  end.

Definition CIDRMask (ones bits : Z) : IPMask :=
  if negb (bits =? 32) && negb (bits =? 128) then []
  else if (ones <? 0) || (ones >? bits) then []
  else maskBytes (Z.to_nat (bits / 8)) ones.

Fixpoint andBytes (a b : list Z) : list Z :=
  match a, b with
  | x :: a', y :: b' => Z.land x y :: andBytes a' b'
  | _, _ => []
  end.

(** [IP.Mask]. *)
Definition Mask (ip : IP) (mask : IPMask) : IP :=
  let mask :=
    if (List.length mask =? 16)%nat && (List.length ip =? 4)%nat
       && allFF (firstn 12 mask)
    then skipn 12 mask else mask in
  let ip :=
    if (List.length mask =? 4)%nat && (List.length ip =? 16)%nat
       && bytesEqual (firstn 12 ip) v4InV6Prefix
    then skipn 12 ip else ip in
  if negb (List.length ip =? List.length mask)%nat then []
  else andBytes ip mask.

(** [net.ParseCIDR]: the address and the network, or an error. *)
Fixpoint splitSlash (s : string) : option (string * string) :=
  match s with
  | EmptyString => None
  | String c rest =>
      if Ascii.eqb c "/" then Some (EmptyString, rest)
      else match splitSlash rest with
           | Some (a, m) => Some (String c a, m)
           | None => None
           end
  end.

Definition ParseCIDR (s : string) : option (IP * IPNet) :=
  match splitSlash s with
  | None => None
  | Some (addr, mask) =>
      match ParseAddr addr with
      | None => None
      | Some ipAddr =>
          let '(n, i, ok) := dtoi mask in
          if negb ok || negb (i =? String.length mask)%nat
             || (n <? 0) || (n >? BitLen ipAddr)
          then None
          else
            let m := CIDRMask n (BitLen ipAddr) in
            let addr16 := As16 ipAddr in
            Some (addr16, mkIPNet (Mask addr16 m) m)
      end
  end.

(** [simpleMaskLength]: the number of leading ones when the mask is
    that many ones followed by zeros, -1 otherwise. *)
Fixpoint leadingOnes (fuel : nat) (v : Z) : Z :=
  match fuel with
  | O => 0
  | S k => if Z.testbit v 7 then 1 + leadingOnes k (Z.land (Z.shiftl v 1) 0xff) else 0
  end.

Fixpoint simpleMaskLength (mask : IPMask) : Z :=
  match mask with
  | [] => 0
  | v :: rest =>
      if v =? 0xff then
        let n := simpleMaskLength rest in if n =? -1 then -1 else 8 + n
      else
        let n := leadingOnes 8 v in
        if negb (Z.land (Z.shiftl v n) 0xff =? 0) then -1
        else if isZeros rest then n else -1
  end.

Definition networkNumberAndMask (n : IPNet) : option (IP * IPMask) :=
  let ip4 := To4 (ipnIP n) in
  let ip := if isEmpty_list ip4 then ipnIP n else ip4 in
  if isEmpty_list ip4 && negb (List.length ip =? 16)%nat then None
  else
    let m := ipnMask n in
    if (List.length m =? 4)%nat then
      if negb (List.length ip =? 4)%nat then None else Some (ip, m)
    else if (List.length m =? 16)%nat then
      if (List.length ip =? 4)%nat then Some (ip, skipn 12 m) else Some (ip, m)
    else None.

(** [IPNet.String]. *)
Definition IPNetString (n : IPNet) : string :=
  match networkNumberAndMask n with
  | None => "<nil>"
  | Some (nn, m) =>
      let l := simpleMaskLength m in
      if l =? -1 then IPString nn +:+ "/" +:+ Sha1.hex m
      else IPString nn +:+ "/" +:+ uitoa l
  end.

End GoNet.

(** ** Errors and outcomes

    A Go [error] is nil or a value with a message.  [ErrAlreadyAddedEntry]
    is the sentinel of [pkg/ipset] that the agent compares by identity. *)

Inductive error : Type :=
| ErrAlreadyAddedEntry
| errorString (msg : string).

#[global] Instance error_eq_dec : EqDecision error.
Proof. solve_decision. Defined.

Definition Error (e : error) : string :=
  match e with
  | ErrAlreadyAddedEntry => "entry is already added"
  | errorString msg => msg
  end.

(** What a call does: it returns normally with a value, returns a non-nil
    [error], or panics at run time (a slice expression out of range). *)
Inductive result (A : Type) : Type :=
| Ok (a : A)
| Err (e : error)
| Panic.
Arguments Ok {A} a.
Arguments Err {A} e.
Arguments Panic {A}.

(** ** The ipset backend ([pkg/ipset], [ipset.Interface])

    The agent only sees the interface; [B] is the state of the kernel sets
    behind it.  A method returns its answer and the new state. *)

Module ipset.

Record IPSet : Type := mkIPSet {
  Name : string;
  SetType : string;
  HashFamily : string;
  Comment : string
}.

#[global] Instance IPSet_eq_dec : EqDecision IPSet.
Proof. solve_decision. Defined.

Definition HashNet : string := "hash:net".

Class Interface (B : Type) : Type := {
  CreateSet : IPSet -> bool -> B -> option error * B;
  DestroySet : string -> B -> option error * B;
  AddEntry : string -> IPSet -> bool -> B -> option error * B;
  DelEntry : string -> string -> B -> option error * B;
  ListEntries : string -> B -> list string * option error
}.

Definition errNotExist : error :=
  errorString "The set with the given name does not exist".

(** Modelled from the spec: the set backend behind [ipset.Interface]
    ([pkg/ipset] is not among the sources).  Section 6 gives its
    contract: [CreateSet], [DestroySet], [AddEntry], [DelEntry] and
    [ListEntries], which answers the members or a does-not-exist error;
    section 4.1 and 7: adding a member already present is swallowed when
    asked to ignore it, deleting from a set that does not exist is
    swallowed.  The kernel state is a map from set names to members. *)
Definition kernel : Type := gmap string (list string).

Definition kCreateSet (set : IPSet) (ignoreExistErr : bool) (k : kernel)
  : option error * kernel :=
  match k !! Name set with
  | Some _ =>
      if ignoreExistErr then (None, k)
      else (Some (errorString "set with the same name already exists"), k)
  | None => (None, <[Name set := []]> k)
  end.

Definition kDestroySet (name : string) (k : kernel) : option error * kernel :=
  match k !! name with
  | Some _ => (None, delete name k)
  | None => (Some errNotExist, k)
  end.

Definition kAddEntry (entry : string) (set : IPSet) (ignoreExistErr : bool)
           (k : kernel) : option error * kernel :=
  match k !! Name set with
  | None => (Some errNotExist, k)
  | Some members =>
      if bool_decide (entry ∈ members) then
        if ignoreExistErr then (None, k) else (Some ErrAlreadyAddedEntry, k)
      else (None, <[Name set := members ++ [entry]]> k)
  end.

Definition kDelEntry (entry : string) (name : string) (k : kernel)
  : option error * kernel :=
  match k !! name with
  | None => (None, k)
  | Some members =>
      (None, <[name := filter (fun x => x <> entry) members]> k)
  end.

Definition kListEntries (name : string) (k : kernel) : list string * option error :=
  match k !! name with
  | None => ([], Some errNotExist)
  | Some members => (members, None)
  end.

#[global] Instance kernel_backend : Interface kernel := {
  CreateSet := kCreateSet;
  DestroySet := kDestroySet;
  AddEntry := kAddEntry;
  DelEntry := kDelEntry;
  ListEntries := kListEntries
}.

End ipset.

(** ** Rules, chains and tables ([pkg/iptables]) *)

Module iptables.

Inductive Direction : Type := DirectionOriginal.

(** One fragment of a match, as the match builder of [pkg/iptables]
    appends them. *)
Inductive MatchFragment : Type :=
| mSourceIPSet (name : string)
| mDestIPSet (name : string)
| mNotDestIPSet (name : string)
| mCTDirectionOriginal (d : Direction)
| mMarkMatchesWithMask (mark mask : Z).

Definition MatchCriteria : Type := list MatchFragment.

Definition SourceIPSet (name : string) (m : MatchCriteria) : MatchCriteria :=
  m ++ [mSourceIPSet name].
Definition DestIPSet (name : string) (m : MatchCriteria) : MatchCriteria :=
  m ++ [mDestIPSet name].
Definition NotDestIPSet (name : string) (m : MatchCriteria) : MatchCriteria :=
  m ++ [mNotDestIPSet name].
Definition CTDirectionOriginal (d : Direction) (m : MatchCriteria) : MatchCriteria :=
  m ++ [mCTDirectionOriginal d].
Definition MarkMatchesWithMask (mark mask : Z) (m : MatchCriteria) : MatchCriteria :=
  m ++ [mMarkMatchesWithMask mark mask].

Inductive Action : Type :=
| AcceptAction
| JumpAction (Target : string)
| SetMaskedMarkAction (Mark Mask : Z)
| SNATAction (ToAddr : string).

Record Rule : Type := mkRule {
  Match : MatchCriteria;
  RuleAction : Action;
  Comment : list string
}.

Record Chain : Type := mkChain { ChainName : string; Rules : list Rule }.

#[global] Instance Direction_eq_dec : EqDecision Direction.
Proof. solve_decision. Defined.
#[global] Instance MatchFragment_eq_dec : EqDecision MatchFragment.
Proof. solve_decision. Defined.
#[global] Instance Action_eq_dec : EqDecision Action.
Proof. solve_decision. Defined.
#[global] Instance Rule_eq_dec : EqDecision Rule.
Proof. solve_decision. Defined.

(** Modelled from the spec: the rule backend ([pkg/iptables] is not
    among the sources).  Sections 4.2 and 6: a table holds, for one
    (table, family) pair, a snapshot of the chains the engine owns and of
    the rules it placed in built-in chains; [UpdateChain] replaces the
    rule list of an owned chain; [InsertOrAppendRules] places rules in a
    built-in chain, a rule equal to one already there is not duplicated;
    [Apply] commits the snapshot to the kernel, or fails and keeps it.
    [applyErr] is the answer the kernel gives to a commit. *)
Record Table : Type := mkTable {
  TableName : string;
  IPVersion : Z;
  chains : gmap string (list Rule);
  inserted : gmap string (list Rule);
  dataplane : option (gmap string (list Rule) * gmap string (list Rule));
  applyErr : option error
}.

Definition UpdateChain (c : Chain) (t : Table) : Table :=
  mkTable (TableName t) (IPVersion t) (<[ChainName c := Rules c]> (chains t))
          (inserted t) (dataplane t) (applyErr t).

Definition placeRule (present : list Rule) (r : Rule) : list Rule :=
  if bool_decide (r ∈ present) then present else present ++ [r].

Definition InsertOrAppendRules (chain : string) (rules : list Rule) (t : Table) : Table :=
  mkTable (TableName t) (IPVersion t) (chains t)
          (<[chain := foldl placeRule (default [] (inserted t !! chain)) rules]> (inserted t))
          (dataplane t) (applyErr t).

Definition Apply (t : Table) : option error * Table :=
  match applyErr t with
  | Some e => (Some e, t)
  | None =>
      (None, mkTable (TableName t) (IPVersion t) (chains t) (inserted t)
                     (Some (chains t, inserted t)) None)
  end.

End iptables.

(** ** The objects read from the API server and the configuration *)

Module egressv1.

(** [egressv1.Policy]: the key of a policy in a gateway status. *)
Record Policy : Type := mkPolicy { Name : string; Namespace : string }.

#[global] Instance Policy_eq_dec : EqDecision Policy.
Proof. solve_decision. Defined.

#[global] Instance Policy_countable : Countable Policy :=
  inj_countable' (fun p => (Name p, Namespace p))
                 (fun x => mkPolicy x.1 x.2)
                 (fun p => match p with mkPolicy _ _ => eq_refl end).

Record Eips : Type := mkEips {
  IPv4 : string;
  IPv6 : string;
  Policies : list Policy
}.

(** An element of [Status.NodeList] of a gateway. *)
Record EgressIPStatus : Type := mkEgressIPStatus {
  NodeName : string;
  NodeEips : list Eips
}.

Record EgressGateway : Type := mkEgressGateway {
  NodeList : list EgressIPStatus
}.

(** [EgressPolicy] and [EgressClusterPolicy]: [Spec.DestSubnet] and
    whether [GetDeletionTimestamp().IsZero()]. *)
Record EgressPolicy : Type := mkEgressPolicy {
  DestSubnet : list string;
  DeletionTimestampIsZero : bool
}.

Record EgressNode : Type := mkEgressNode { Mark : string }.

Record EgressEndpoint : Type := mkEgressEndpoint {
  Node : string;
  EndpointIPv4 : list string;
  EndpointIPv6 : list string
}.

Record EgressEndpointSlice : Type := mkEgressEndpointSlice {
  SliceDeletionTimestampIsZero : bool;
  Endpoints : list EgressEndpoint
}.

Record IPListPair : Type := mkIPListPair {
  PairIPv4 : list string;
  PairIPv6 : list string
}.

(** [EgressClusterInfo]: [Status.EgressIgnoreCIDR]. *)
Record EgressClusterInfo : Type := mkEgressClusterInfo {
  InfoDeletionTimestampIsZero : bool;
  NodeIP : IPListPair;
  PodCIDR : IPListPair;
  ClusterIP : IPListPair
}.

End egressv1.

(** What [client.Get] answers: the object, a not-found error
    ([errors.IsNotFound]) or another error. *)
Inductive GetResult (A : Type) : Type :=
| Found (a : A)
| NotFound
| GetError (e : error).
Arguments Found {A} a.
Arguments NotFound {A}.
Arguments GetError {A} e.

(** The view of the API server through [client.Client] during one
    reconciliation.  The lists of endpoint slices are those selected by the
    label of the policy name. *)
Record Client : Type := mkClient {
  ListEgressGateways : result (list egressv1.EgressGateway);
  GetEgressPolicy : string -> string -> GetResult egressv1.EgressPolicy;
  GetEgressClusterPolicy : string -> string -> GetResult egressv1.EgressPolicy;
  GetEgressGateway : string -> string -> GetResult egressv1.EgressGateway;
  GetEgressNode : string -> GetResult egressv1.EgressNode;
  ListEgressEndpointSlices : string -> result (list egressv1.EgressEndpointSlice);
  ListEgressClusterEndpointSlices : string -> result (list egressv1.EgressEndpointSlice);
  GetEgressClusterInfo : string -> string -> GetResult egressv1.EgressClusterInfo
}.

Module config.

(** The fields of [config.Config] the agent reads: [EnvConfig.NodeName]
    and, of [FileConfig], the two family switches, the base mark and
    [EgressIgnoreCIDR.Custom]. *)
Record Config : Type := mkConfig {
  NodeName : string;
  EnableIPv4 : bool;
  EnableIPv6 : bool;
  Mark : string;
  Custom : list string
}.

End config.

(** ** The agent ([pkg/agent/police.go]) *)

Module agent.

Import GoStrings.

Definition EgressClusterCIDRIPv4 : string := "egress-cluster-cidr-ipv4".
Definition EgressClusterCIDRIPv6 : string := "egress-cluster-cidr-ipv6".

Inductive IPKind : Type := IPSrc | IPDst.
Inductive IPStack : Type := IPv4 | IPv6.

#[global] Instance IPKind_eq_dec : EqDecision IPKind.
Proof. solve_decision. Defined.
#[global] Instance IPStack_eq_dec : EqDecision IPStack.
Proof. solve_decision. Defined.

Definition StackHashFamily (stack : IPStack) : string :=
  match stack with
  | IPv4 => "inet"
  | IPv6 => "inet6"
  end.

Record SetName : Type := mkSetName {
  Name : string;
  Stack : IPStack;
  Kind : IPKind
}.

Definition SetNames : Type := list SetName.

(** [formatIPSetName]: the prefix and the first [31 - len(prefix)]
    characters of the hexadecimal SHA-1 of the name.  The slice
    expression [hash[:i]] panics when [i] is negative or exceeds
    [len(hash)]: [None]. *)
Definition formatIPSetName (prefix name : string) : option string :=
  let hash := Sha1.hexsum name in
  let i := 31 - Z.of_nat (String.length prefix) in
  if (i <? 0) || (Z.of_nat (String.length hash) <? i) then None
  else Some (prefix +:+ substring 0 (Z.to_nat i) hash).

(** [buildIPSetNamesByPolicy]. *)
Definition buildIPSetNamesByPolicy (ns name : string) (enableIPv4 enableIPv6 : bool)
  : option SetNames :=
  let name := if bool_decide (ns <> "") then ns +:+ "-" +:+ name else name in
  res4 ← (if enableIPv4 then
            s ← formatIPSetName "egress-src-v4-" name;
            d ← formatIPSetName "egress-dst-v4-" name;
            Some [mkSetName s IPv4 IPSrc; mkSetName d IPv4 IPDst]
          else Some []);
  res6 ← (if enableIPv6 then
            s ← formatIPSetName "egress-src-v6-" name;
            d ← formatIPSetName "egress-dst-v6-" name;
            Some [mkSetName s IPv6 IPSrc; mkSetName d IPv6 IPDst]
          else Some []);
  Some (res4 ++ res6).

(** The normalization [findDiff] applies to every entry of the new
    list. *)
Definition normalizeEntry (s : string) : string :=
  if HasSuffix s "/32" then TrimSuffix s "/32"
  else if HasSuffix s "/128" then
    let ip := GoNet.ParseIP (TrimSuffix s "/128") in
    if negb (GoNet.isEmpty_list (GoNet.To16 ip)) then GoNet.IPString (GoNet.To16 ip)
    else s
  else
    match GoNet.ParseCIDR s with
    | Some (_, cidr) => GoNet.IPNetString cidr
    | None => s
    end.

(** A Go [map[string]bool] read with [m[s]]: false when absent. *)
Definition boolMap (l : list string) : gmap string bool :=
  foldl (fun m s => <[s := true]> m) ∅ l.

Definition mapGet (m : gmap string bool) (s : string) : bool :=
  default false (m !! s).

(** [findDiff]. *)
Definition findDiff (oldList newList : list string) : list string * list string :=
  let oldCopy := oldList in
  let newCopy := map normalizeEntry newList in
  let oldMap := boolMap oldCopy in
  let newMap := boolMap newCopy in
  let toAdd := filter (fun s => mapGet oldMap s = false) newCopy in
  let toDel := filter (fun s => mapGet newMap s = false) oldCopy in
  (toAdd, toDel).

(** [getDstCIDR]: the loop over the list, with the two lists built so
    far. *)
Fixpoint getDstCIDR_from (items : list string) (ipv4List ipv6List : list string)
  : result (list string * list string) :=
  match items with
  | [] => Ok (ipv4List, ipv6List)
  | item :: rest =>
      match GoNet.ParseCIDR item with
      | None => Err (errorString ("invalid CIDR address: " +:+ item))
      | Some (ip, ipNet) =>
          if GoNet.isEmpty_list ip then getDstCIDR_from rest ipv4List ipv6List
          else if negb (GoNet.isEmpty_list (GoNet.To4 ip))
          then getDstCIDR_from rest (ipv4List ++ [GoNet.IPNetString ipNet]) ipv6List
          else getDstCIDR_from rest ipv4List (ipv6List ++ [GoNet.IPNetString ipNet])
      end
  end.

Definition getDstCIDR (items : list string) : result (list string * list string) :=
  getDstCIDR_from items [] [].

Record IP : Type := mkIP { V4 : string; V6 : string }.

Record PolicyCommon : Type := mkPolicyCommon {
  NodeName : string;
  DestSubnet : list string;
  PolicyIP : IP
}.

(** [strconv.ParseInt(s, 16, 32)]: an optional sign and hexadecimal
    digits; a syntax error or a value outside of the 32-bit signed range
    is an error. *)
Fixpoint hexDigits (s : string) (acc : Z) : option Z :=
  match s with
  | EmptyString => Some acc
  | String c rest =>
      match GoNet.hexval c with
      | Some d => hexDigits rest (acc * 16 + d)
      | None => None
      end
  end.

Definition errSyntax : error := errorString "invalid syntax".
Definition errRange : error := errorString "value out of range".

Definition ParseInt_16_32 (s : string) : result Z :=
  match s with
  | EmptyString => Err errSyntax
  | String c rest =>
      let '(neg, digits) :=
        if Ascii.eqb c "+" then (false, rest)
        else if Ascii.eqb c "-" then (true, rest)
        else (false, s) in
      if GoNet.isEmpty digits then Err errSyntax
      else
        match hexDigits digits 0 with
        | None => Err errSyntax
        | Some un =>
            let cutoff := 2 ^ 31 in
            if negb neg && (un >=? cutoff) then Err errRange
            else if neg && (un >? cutoff) then Err errRange
            else Ok (if neg then - un else un)
        end
  end.

(** [parseMark]: the conversion [uint32(i64)] wraps around. *)
Definition parseMark (mark : string) : result Z :=
  let tmp := ReplaceAll mark "0x" "" in
  match ParseInt_16_32 tmp with
  | Ok i64 => Ok (i64 mod 2 ^ 32)
  | Err e => Err e
  | Panic => Panic
  end.

(** A nil [*iptables.Rule] is [None]; a panic of [formatIPSetName] makes
    the builder panic: [Panic]. *)
Definition buildEipRule (policyName : string) (eip : IP) (version : Z)
           (isIgnoreInternalCIDR : bool) : result (option iptables.Rule) :=
  if bool_decide (V4 eip = "") && bool_decide (V6 eip = "") then Ok None
  else
    let tmp := if version =? 6 then "v6-" else "v4-" in
    let ip := if version =? 6 then V6 eip else V4 eip in
    let ignoreName :=
      if version =? 6 then EgressClusterCIDRIPv6 else EgressClusterCIDRIPv4 in
    match formatIPSetName ("egress-src-" +:+ tmp) policyName,
          formatIPSetName ("egress-dst-" +:+ tmp) policyName with
    | Some srcName, Some dstName =>
        let matchCriteria :=
          iptables.CTDirectionOriginal iptables.DirectionOriginal
            (iptables.DestIPSet dstName (iptables.SourceIPSet srcName [])) in
        let matchCriteria :=
          if isIgnoreInternalCIDR then
            iptables.CTDirectionOriginal iptables.DirectionOriginal
              (iptables.NotDestIPSet ignoreName (iptables.SourceIPSet srcName []))
          else matchCriteria in
        let action := iptables.SNATAction ip in
        Ok (Some (iptables.mkRule matchCriteria action []))
    | _, _ => Panic
    end.

Definition buildPolicyRule (policyName : string) (mark : Z) (version : Z)
           (isIgnoreInternalCIDR : bool) : result iptables.Rule :=
  let tmp := if version =? 6 then "v6-" else "v4-" in
  let ignoreInternalCIDRName :=
    if version =? 6 then EgressClusterCIDRIPv6 else EgressClusterCIDRIPv4 in
  match formatIPSetName ("egress-src-" +:+ tmp) policyName,
        formatIPSetName ("egress-dst-" +:+ tmp) policyName with
  | Some srcName, Some dstName =>
      let matchCriteria :=
        iptables.CTDirectionOriginal iptables.DirectionOriginal
          (iptables.DestIPSet dstName (iptables.SourceIPSet srcName [])) in
      let matchCriteria :=
        if isIgnoreInternalCIDR then
          iptables.CTDirectionOriginal iptables.DirectionOriginal
            (iptables.NotDestIPSet ignoreInternalCIDRName
               (iptables.SourceIPSet srcName []))
        else matchCriteria in
      let action := iptables.SetMaskedMarkAction mark 0xffffffff in
      Ok (iptables.mkRule matchCriteria action [])
  | _, _ => Panic
  end.

Definition buildNatStaticRule (base : Z) : gmap string (list iptables.Rule) :=
  {[ "POSTROUTING" :=
       [ iptables.mkRule (iptables.MarkMatchesWithMask base 0xffffffff [])
                         iptables.AcceptAction [];
         iptables.mkRule [] (iptables.JumpAction "EGRESSGATEWAY-SNAT-EIP") [] ] ]}.

Definition buildFilterStaticRule (base : Z) : gmap string (list iptables.Rule) :=
  {[ "FORWARD" :=
       [ iptables.mkRule (iptables.MarkMatchesWithMask base 0xffffffff [])
                         iptables.AcceptAction [] ];
     "OUTPUT" :=
       [ iptables.mkRule (iptables.MarkMatchesWithMask base 0xffffffff [])
                         iptables.AcceptAction [] ] ]}.

Definition buildMangleStaticRule (base : Z) : gmap string (list iptables.Rule) :=
  {[ "FORWARD" :=
       [ iptables.mkRule (iptables.MarkMatchesWithMask base 0xff000000 [])
                         (iptables.SetMaskedMarkAction base 0xffffffff) [] ];
     "POSTROUTING" :=
       [ iptables.mkRule (iptables.MarkMatchesWithMask base 0xffffffff [])
                         iptables.AcceptAction [] ];
     "PREROUTING" :=
       [ iptables.mkRule [] (iptables.JumpAction "EGRESSGATEWAY-MARK-REQUEST") [] ] ]}.

(** What a reconcile function returns: [reconcile.Result{Requeue}] and
    an error, unless it panics. *)
Inductive outcome : Type :=
| Returned (requeue : bool) (err : option error)
| Panicked.

(** [sets.String] of apimachinery: a set of strings; [List] returns its
    members sorted ([sort.Strings]: byte-wise order). *)
Fixpoint insertSorted (x : string) (l : list string) : list string :=
  match l with
  | [] => [x]
  | y :: l' => if String.leb x y then x :: l else y :: insertSorted x l'
  end.

Definition sortStrings (l : list string) : list string := foldr insertSorted [] l.

Definition setList (s : gset string) : list string := sortStrings (elements s).

Section reconciler.

Context {B : Type} `{!ipset.Interface B}.

(** The fields of [policeReconciler] that the reconcile functions
    read or write; [ipsetB] is the state behind [r.ipset]. *)
Record policeReconciler : Type := mkReconciler {
  client : Client;
  cfg : config.Config;
  ipsetMap : gmap string ipset.IPSet;
  ipsetB : B;
  mangleTables : list iptables.Table;
  filterTables : list iptables.Table;
  natTables : list iptables.Table
}.

Definition set_ipsetMap (m : gmap string ipset.IPSet) (r : policeReconciler) :=
  mkReconciler (client r) (cfg r) m (ipsetB r)
               (mangleTables r) (filterTables r) (natTables r).
Definition set_ipsetB (b : B) (r : policeReconciler) :=
  mkReconciler (client r) (cfg r) (ipsetMap r) b
               (mangleTables r) (filterTables r) (natTables r).
Definition set_mangleTables (ts : list iptables.Table) (r : policeReconciler) :=
  mkReconciler (client r) (cfg r) (ipsetMap r) (ipsetB r)
               ts (filterTables r) (natTables r).
Definition set_filterTables (ts : list iptables.Table) (r : policeReconciler) :=
  mkReconciler (client r) (cfg r) (ipsetMap r) (ipsetB r)
               (mangleTables r) ts (natTables r).
Definition set_natTables (ts : list iptables.Table) (r : policeReconciler) :=
  mkReconciler (client r) (cfg r) (ipsetMap r) (ipsetB r)
               (mangleTables r) (filterTables r) ts.

(** A method of the reconciler: its outcome and the reconciler after
    it.  What was done before an error stays done. *)
Definition M (A : Type) : Type := policeReconciler -> result A * policeReconciler.

Definition ret {A} (a : A) : M A := fun r => (Ok a, r).
Definition fail {A} (e : error) : M A := fun r => (Err e, r).
Definition bind {A C} (m : M A) (k : A -> M C) : M C :=
  fun r =>
    match m r with
    | (Ok a, r') => k a r'
    | (Err e, r') => (Err e, r')
    | (Panic, r') => (Panic, r')
    end.
Definition lift {A} (x : result A) : M A := fun r => (x, r).
Definition must {A} (x : option A) : M A :=
  fun r => (match x with Some a => Ok a | None => Panic end, r).

Notation "'do' x <- m ; k" := (bind m (fun x => k))
  (at level 10, x name, m at level 100, k at level 200).

(** A [for ... range] loop whose body may return an error. *)
Fixpoint forEach {A} (l : list A) (f : A -> M unit) : M unit :=
  match l with
  | [] => ret tt
  | x :: rest => do _ <- f x; forEach rest f
  end.

(** [removeIPSet]: the error of [DestroySet] is only logged. *)
Definition removeIPSet (name : string) (r : policeReconciler) : policeReconciler :=
  match ipsetMap r !! name with
  | Some _ =>
      let '(_, b) := ipset.DestroySet name (ipsetB r) in
      set_ipsetMap (delete name (ipsetMap r)) (set_ipsetB b r)
  | None => r
  end.

(** [createIPSet]. *)
Definition createIPSet (set : SetName) : M unit :=
  fun r =>
    match ipsetMap r !! Name set with
    | Some _ => (Ok tt, r)
    | None =>
        if bool_decide (Stack set = IPv4) && negb (config.EnableIPv4 (cfg r))
        then (Ok tt, r)
        else if bool_decide (Stack set = IPv6) && negb (config.EnableIPv6 (cfg r))
        then (Ok tt, r)
        else
          let ipSet := ipset.mkIPSet (Name set) ipset.HashNet
                                     (StackHashFamily (Stack set)) "" in
          match ipset.CreateSet ipSet true (ipsetB r) with
          | (Some err, b) => (Err err, set_ipsetB b r)
          | (None, b) =>
              (Ok tt, set_ipsetMap (<[Name set := ipSet]> (ipsetMap r)) (set_ipsetB b r))
          end
    end.

(** The loop of [getPolicySrcIPs] over the slices and their
    endpoints. *)
Definition srcIPsOfSlices (eps : list egressv1.EgressEndpointSlice)
           (filter : egressv1.EgressEndpoint -> bool) : list string * list string :=
  foldl (fun acc ep =>
           if egressv1.SliceDeletionTimestampIsZero ep then
             foldl (fun '(ipv4List, ipv6List) e =>
                      if filter e
                      then (ipv4List ++ egressv1.EndpointIPv4 e,
                            ipv6List ++ egressv1.EndpointIPv6 e)
                      else (ipv4List, ipv6List))
                   acc (egressv1.Endpoints ep)
           else acc)
        ([], []) eps.

Definition getPolicySrcIPs (policyNs policyName : string)
           (filter : egressv1.EgressEndpoint -> bool) (r : policeReconciler)
  : result (list string * list string) :=
  let listed :=
    if bool_decide (policyNs = "")
    then ListEgressClusterEndpointSlices (client r) policyName
    else ListEgressEndpointSlices (client r) policyName in
  match listed with
  | Ok eps => Ok (srcIPsOfSlices eps filter)
  | Err e => Err e
  | Panic => Panic
  end.

(** The second [setNames.Map] of [updatePolicyIPSet]: the members to
    add and to delete for every set. *)
Fixpoint diffSets (sets : list SetName)
         (srcIPv4List srcIPv6List dstIPv4List dstIPv6List : list string)
         (toAddList toDelList : gmap string (list string)) (r : policeReconciler)
  : result (gmap string (list string) * gmap string (list string)) :=
  match sets with
  | [] => Ok (toAddList, toDelList)
  | set :: rest =>
      let '(oldIPList, err) := ipset.ListEntries (Name set) (ipsetB r) in
      let stop :=
        match err with
        | Some e =>
            if Contains (Error e) "The set with the given name does not exist"
            then None else Some e
        | None => None
        end in
      match stop with
      | Some e => Err e
      | None =>
          let enableIPv4 := config.EnableIPv4 (cfg r) in
          let enableIPv6 := config.EnableIPv6 (cfg r) in
          let newList :=
            match Kind set with
            | IPSrc =>
                if bool_decide (Stack set = IPv4) && enableIPv4 then Some srcIPv4List
                else if enableIPv6 then Some srcIPv6List else None
            | IPDst =>
                if bool_decide (Stack set = IPv4) && enableIPv4 then Some dstIPv4List
                else if enableIPv6 then Some dstIPv6List else None
            end in
          match newList with
          | Some new =>
              let '(toAdd, toDel) := findDiff oldIPList new in
              diffSets rest srcIPv4List srcIPv6List dstIPv4List dstIPv6List
                       (<[Name set := toAdd]> toAddList)
                       (<[Name set := toDel]> toDelList) r
          | None =>
              diffSets rest srcIPv4List srcIPv6List dstIPv4List dstIPv6List
                       toAddList toDelList r
          end
      end
  end.

Definition addEntries (set : string) (ips : list string) : M unit :=
  fun r =>
    match ipsetMap r !! set with
    | None => (Ok tt, r)
    | Some ipSet =>
        forEach ips
          (fun ip r =>
             match ipset.AddEntry ip ipSet true (ipsetB r) with
             | (Some err, b) =>
                 if bool_decide (err <> ErrAlreadyAddedEntry)
                 then (Err err, set_ipsetB b r)
                 else (Ok tt, set_ipsetB b r)
             | (None, b) => (Ok tt, set_ipsetB b r)
             end) r
    end.

Definition delEntries (name : string) (ips : list string) : M unit :=
  forEach ips
    (fun ip r =>
       match ipset.DelEntry ip name (ipsetB r) with
       | (Some err, b) => (Err err, set_ipsetB b r)
       | (None, b) => (Ok tt, set_ipsetB b r)
       end).

(** [updatePolicyIPSet].  The two maps are ranged over in the order of
    [map_to_list] (Go leaves the order unspecified). *)
Definition updatePolicyIPSet (policyNs policyName : string) (isEipNodeSet : bool)
           (destSubnet : list string) : M unit :=
  fun r =>
    let filter (e : egressv1.EgressEndpoint) : bool :=
      if bool_decide (egressv1.Node e = config.NodeName (cfg r)) then true
      else if isEipNodeSet then true else false in
    (do srcs <- lift (getPolicySrcIPs policyNs policyName filter r);
     do dsts <- lift (getDstCIDR destSubnet);
     do setNames <- must (buildIPSetNamesByPolicy policyNs policyName
                            (config.EnableIPv4 (cfg r)) (config.EnableIPv6 (cfg r)));
     do _ <- forEach setNames createIPSet;
     do lists <- (fun r' => (diffSets setNames srcs.1 srcs.2 dsts.1 dsts.2 ∅ ∅ r', r'));
     do _ <- forEach (map_to_list lists.1) (fun '(set, ips) => addEntries set ips);
     forEach (map_to_list lists.2) (fun '(name, ips) => delEntries name ips)) r.

(** *** The full rebuild *)

(** The loops of [initApplyPolicy] over gateways, nodes, EIPs and
    policies, which fill the two maps [unSnatPolicies] and
    [snatPolicies]. *)
Definition partitionPolicies (nodeName : string)
           (gateways : list egressv1.EgressGateway)
  : gmap egressv1.Policy PolicyCommon * gmap egressv1.Policy PolicyCommon :=
  foldl (fun acc item =>
    foldl (fun acc node =>
      foldl (fun acc eip =>
        foldl (fun '(unSnatPolicies, snatPolicies) policy =>
                 if bool_decide (egressv1.NodeName node = nodeName) then
                   (unSnatPolicies,
                    <[policy := mkPolicyCommon (egressv1.NodeName node) []
                                  (mkIP (egressv1.IPv4 eip) (egressv1.IPv6 eip))]>
                      snatPolicies)
                 else
                   (<[policy := mkPolicyCommon (egressv1.NodeName node) []
                                  (mkIP "" "")]> unSnatPolicies,
                    snatPolicies))
              acc (egressv1.Policies eip))
        acc (egressv1.NodeEips node))
      acc (egressv1.NodeList item))
    (∅, ∅) gateways.

(** [policyObj.Spec.DestSubnet] after [client.Get]: a policy that is
    not found leaves the object empty. *)
Definition fetchDestSubnet (policy : egressv1.Policy) (r : policeReconciler)
  : result (list string) :=
  let got :=
    if bool_decide (egressv1.Namespace policy <> "")
    then GetEgressPolicy (client r) (egressv1.Namespace policy) (egressv1.Name policy)
    else GetEgressClusterPolicy (client r) (egressv1.Namespace policy)
                                (egressv1.Name policy) in
  match got with
  | Found policyObj => Ok (egressv1.DestSubnet policyObj)
  | NotFound => Ok []
  | GetError err => Err err
  end.

(** The loop over one of the two maps: it stores the destinations in
    the entry and refreshes the ipsets of the policy.  The map is
    ranged over in the order of [map_to_list]. *)
Fixpoint refreshPolicies (isEipNodeSet : bool)
         (l : list (egressv1.Policy * PolicyCommon))
  : M (list (egressv1.Policy * PolicyCommon)) :=
  match l with
  | [] => ret []
  | (policy, val) :: rest =>
      do destSubnet <- (fun r => (fetchDestSubnet policy r, r));
      do _ <- updatePolicyIPSet (egressv1.Namespace policy) (egressv1.Name policy)
                                isEipNodeSet destSubnet;
      do rest' <- refreshPolicies isEipNodeSet rest;
      ret ((policy, mkPolicyCommon (NodeName val) destSubnet (PolicyIP val)) :: rest')
  end.

Definition policyKey (policy : egressv1.Policy) : string :=
  if bool_decide (egressv1.Namespace policy <> "")
  then egressv1.Namespace policy +:+ "-" +:+ egressv1.Name policy
  else egressv1.Name policy.

(** The body of the loop that builds the mark rules: [Ok None] is
    [continue]. *)
Definition markRule (version : Z) (r : policeReconciler)
           (pv : egressv1.Policy * PolicyCommon) : result (option iptables.Rule) :=
  let '(policy, val) := pv in
  match GetEgressNode (client r) (NodeName val) with
  | Found node =>
      let policyName := policyKey policy in
      match parseMark (egressv1.Mark node) with
      | Ok mark =>
          let isIgnoreInternalCIDR := (List.length (DestSubnet val) <=? 0)%nat in
          match buildPolicyRule policyName mark version isIgnoreInternalCIDR with
          | Ok rule => Ok (Some rule)
          | Err e => Err e
          | Panic => Panic
          end
      | Err e => Err e
      | Panic => Panic
      end
  | _ => Ok None
  end.

(** The body of the loop that builds the SNAT rules. *)
Definition snatRule (version : Z) (pv : egressv1.Policy * PolicyCommon)
  : result (option iptables.Rule) :=
  let '(policy, val) := pv in
  let policyName := policyKey policy in
  let isIgnoreInternalCIDR := (List.length (DestSubnet val) <=? 0)%nat in
  buildEipRule policyName (PolicyIP val) version isIgnoreInternalCIDR.

(** [rules = append(rules, *rule)] over a map. *)
Fixpoint collectRules {A} (body : A -> result (option iptables.Rule))
         (l : list A) (rules : list iptables.Rule) : result (list iptables.Rule) :=
  match l with
  | [] => Ok rules
  | x :: rest =>
      match body x with
      | Ok (Some rule) => collectRules body rest (rules ++ [rule])
      | Ok None => collectRules body rest rules
      | Err e => Err e
      | Panic => Panic
      end
  end.

(** A loop over a slice of tables: the tables before the one whose
    body fails are updated. *)
Fixpoint mapTables (body : iptables.Table -> result iptables.Table)
         (ts : list iptables.Table) : result unit * list iptables.Table :=
  match ts with
  | [] => (Ok tt, [])
  | t :: rest =>
      match body t with
      | Ok t' => let '(res, rest') := mapTables body rest in (res, t' :: rest')
      | Err e => (Err e, t :: rest)
      | Panic => (Panic, t :: rest)
      end
  end.

Definition onFilterTables (body : policeReconciler -> iptables.Table -> result iptables.Table)
  : M unit :=
  fun r => let '(res, ts) := mapTables (body r) (filterTables r) in
           (res, set_filterTables ts r).
Definition onMangleTables (body : policeReconciler -> iptables.Table -> result iptables.Table)
  : M unit :=
  fun r => let '(res, ts) := mapTables (body r) (mangleTables r) in
           (res, set_mangleTables ts r).
Definition onNatTables (body : policeReconciler -> iptables.Table -> result iptables.Table)
  : M unit :=
  fun r => let '(res, ts) := mapTables (body r) (natTables r) in
           (res, set_natTables ts r).

(** [for chain, rules := range chainMapRules { table.InsertOrAppendRules(chain, rules) }]. *)
Definition insertStatic (chainMapRules : gmap string (list iptables.Rule))
           (t : iptables.Table) : iptables.Table :=
  foldl (fun t '(chain, rules) => iptables.InsertOrAppendRules chain rules t)
        t (map_to_list chainMapRules).

Definition applyTable (t : iptables.Table) : result iptables.Table :=
  match iptables.Apply t with
  | (Some err, _) =>
      Err (errorString ("failed to apply rule " +:+ iptables.TableName t
                        +:+ ": " +:+ Error err))
  | (None, t') => Ok t'
  end.

Definition markChain : string := "EGRESSGATEWAY-MARK-REQUEST".
Definition snatChain : string := "EGRESSGATEWAY-SNAT-EIP".

(** [initApplyPolicy]. *)
Definition initApplyPolicy : M unit :=
  fun r =>
    match ListEgressGateways (client r) with
    | Err err => (Err (errorString ("failed to list gateway: " +:+ Error err)), r)
    | Panic => (Panic, r)
    | Ok gateways =>
        if (List.length gateways =? 0)%nat then (Ok tt, r)
        else
          let '(unSnatPolicies, snatPolicies) :=
            partitionPolicies (config.NodeName (cfg r)) gateways in
          (do unSnat <- refreshPolicies false (map_to_list unSnatPolicies);
           do snat <- refreshPolicies true (map_to_list snatPolicies);
           do baseMark <- lift (parseMark (config.Mark (cfg r)));
           do _ <- onFilterTables (fun _ table =>
                     Ok (insertStatic (buildFilterStaticRule baseMark) table));
           do _ <- onMangleTables (fun _ table =>
                     Ok (insertStatic (buildMangleStaticRule baseMark)
                           (iptables.UpdateChain (iptables.mkChain markChain []) table)));
           do _ <- onMangleTables (fun r' table =>
                     match collectRules (markRule (iptables.IPVersion table) r') unSnat [] with
                     | Ok rules =>
                         Ok (iptables.UpdateChain (iptables.mkChain markChain rules) table)
                     | Err e => Err e
                     | Panic => Panic
                     end);
           do _ <- onNatTables (fun _ table =>
                     match collectRules (snatRule (iptables.IPVersion table)) snat [] with
                     | Ok rules =>
                         Ok (insertStatic (buildNatStaticRule baseMark)
                               (iptables.UpdateChain (iptables.mkChain snatChain rules) table))
                     | Err e => Err e
                     | Panic => Panic
                     end);
           do _ <- onNatTables (fun _ => applyTable);
           do _ <- onFilterTables (fun _ => applyTable);
           onMangleTables (fun _ => applyTable)) r
    end.

(** [reconcileGateway]. *)
Definition reconcileGateway (r : policeReconciler) : outcome * policeReconciler :=
  match initApplyPolicy r with
  | (Ok _, r') => (Returned false None, r')
  | (Err err, r') => (Returned true (Some err), r')
  | (Panic, r') => (Panicked, r')
  end.

(** *** The policy reconciler *)

(** The node of the gateway status that lists the policy (the last
    one), or the empty string. *)
Definition policyNodeName (gateway : egressv1.EgressGateway) (ns name : string) : string :=
  foldl (fun nodeName node =>
    foldl (fun nodeName eip =>
      foldl (fun nodeName p =>
               if bool_decide (egressv1.Name p = name)
                  && bool_decide (egressv1.Namespace p = ns)
               then egressv1.NodeName node else nodeName)
            nodeName (egressv1.Policies eip))
      nodeName (egressv1.NodeEips node))
    "" (egressv1.NodeList gateway).

(** What [reconcilePolicy] and [reconcileClusterPolicy] do once the
    policy object has been asked for: [got] is the answer.  The object
    that is found has the namespace and the name of the request. *)
Definition reconcileFetched (got : GetResult egressv1.EgressPolicy)
           (reqNamespace reqName : string) (r : policeReconciler)
  : outcome * policeReconciler :=
  match got with
  | GetError err => (Returned false (Some err), r)
  | _ =>
      let deleted :=
        match got with
        | Found policy => negb (egressv1.DeletionTimestampIsZero policy)
        | _ => true
        end in
      if deleted then
        match buildIPSetNamesByPolicy reqNamespace reqName true true with
        | None => (Panicked, r)
        | Some setNames =>
            (Returned false None,
             foldl (fun r set => removeIPSet (Name set) r) r setNames)
        end
      else
        match GetEgressGateway (client r) reqNamespace reqName with
        | GetError err => (Returned true (Some err), r)
        | NotFound => (Returned true (Some (errorString "not found")), r)
        | Found gateway =>
            let nodeName := policyNodeName gateway reqNamespace reqName in
            let flag := bool_decide (nodeName = config.NodeName (cfg r)) in
            let destSubnet :=
              match got with
              | Found policy => egressv1.DestSubnet policy
              | _ => []
              end in
            match updatePolicyIPSet reqNamespace reqName flag destSubnet r with
            | (Ok _, r') => (Returned false None, r')
            | (Err err, r') => (Returned true (Some err), r')
            | (Panic, r') => (Panicked, r')
            end
        end
  end.

(** [reconcilePolicy]. *)
Definition reconcilePolicy (reqNamespace reqName : string) (r : policeReconciler)
  : outcome * policeReconciler :=
  reconcileFetched (GetEgressPolicy (client r) reqNamespace reqName)
                   reqNamespace reqName r.

(** [reconcileClusterPolicy]. *)
Definition reconcileClusterPolicy (reqNamespace reqName : string) (r : policeReconciler)
  : outcome * policeReconciler :=
  reconcileFetched (GetEgressClusterPolicy (client r) reqNamespace reqName)
                   reqNamespace reqName r.

(** *** The cluster-info reconciler *)

(** The closures [addIP] and [addCIDR]: the two lists after the
    items. *)
Definition addIP (items : list string) (acc : list string * list string)
  : list string * list string :=
  foldl (fun '(ipv4, ipv6) item =>
           let ip := GoNet.ParseIP item in
           if negb (GoNet.isEmpty_list (GoNet.To4 ip))
           then (ipv4 ++ [GoNet.IPString ip], ipv6)
           else if negb (GoNet.isEmpty_list (GoNet.To16 ip))
           then (ipv4, ipv6 ++ [GoNet.IPString ip])
           else (ipv4, ipv6))
        acc items.

Definition addCIDR (items : list string) (acc : list string * list string)
  : list string * list string :=
  foldl (fun '(ipv4, ipv6) item =>
           match GoNet.ParseCIDR item with
           | None => (ipv4, ipv6)
           | Some (ip, cidr) =>
               if negb (GoNet.isEmpty_list (GoNet.To4 ip))
               then (ipv4 ++ [GoNet.IPNetString cidr], ipv6)
               else if negb (GoNet.isEmpty_list (GoNet.To16 ip))
               then (ipv4, ipv6 ++ [GoNet.IPNetString cidr])
               else (ipv4, ipv6)
           end)
        acc items.

(** A loop that calls the backend for every key and stops at the first
    error. *)
Fixpoint eachKey (keys : list string) (f : string -> B -> option error * B) (b : B)
  : option error * B :=
  match keys with
  | [] => (None, b)
  | key :: rest =>
      match f key b with
      | (Some err, b') => (Some err, b')
      | (None, b') => eachKey rest f b'
      end
  end.

(** The closure [process]. *)
Definition process (gotList expList : list string)
           (toAdd toDel : string -> B -> option error * B) (b : B)
  : option error * B :=
  let got : gset string := list_to_set gotList in
  let exp : gset string := list_to_set expList in
  let exp :=
    foldl (fun exp key => if bool_decide (key ∈ exp) then exp ∖ {[key]} else exp)
          exp (setList got) in
  let exp :=
    foldl (fun exp key => if bool_decide (key ∈ got) then exp ∖ {[key]} else exp)
          exp (setList exp) in
  match eachKey (setList exp) toAdd b with
  | (Some err, b') => (Some err, b')
  | (None, b') => eachKey (setList got) toDel b'
  end.

Definition clusterCIDRs (info : egressv1.EgressClusterInfo) (custom : list string)
  : list string * list string :=
  addCIDR custom
    (addCIDR (egressv1.PairIPv6 (egressv1.ClusterIP info))
    (addCIDR (egressv1.PairIPv4 (egressv1.ClusterIP info))
    (addCIDR (egressv1.PairIPv6 (egressv1.PodCIDR info))
    (addCIDR (egressv1.PairIPv4 (egressv1.PodCIDR info))
    (addIP (egressv1.PairIPv6 (egressv1.NodeIP info))
    (addIP (egressv1.PairIPv4 (egressv1.NodeIP info)) ([], []))))))).

(** [reconcileClusterInfo]. *)
Definition reconcileClusterInfo (reqNamespace reqName : string) (r : policeReconciler)
  : outcome * policeReconciler :=
  match GetEgressClusterInfo (client r) reqNamespace reqName with
  | GetError err => (Returned false (Some err), r)
  | NotFound => (Returned false None, r)
  | Found info =>
      if negb (egressv1.InfoDeletionTimestampIsZero info) then (Returned false None, r)
      else
        let '(ipv4, ipv6) := clusterCIDRs info (config.Custom (cfg r)) in
        let ipSet4 := ipset.mkIPSet EgressClusterCIDRIPv4 ipset.HashNet "inet" "" in
        let ipSet6 := ipset.mkIPSet EgressClusterCIDRIPv6 ipset.HashNet "inet6" "" in
        match ipset.CreateSet ipSet4 true (ipsetB r) with
        | (Some err, b) => (Returned false (Some err), set_ipsetB b r)
        | (None, b) =>
        match ipset.CreateSet ipSet6 true b with
        | (Some err, b) => (Returned false (Some err), set_ipsetB b r)
        | (None, b) =>
        match ipset.ListEntries EgressClusterCIDRIPv4 b with
        | (_, Some err) => (Returned false (Some err), set_ipsetB b r)
        | (gotIPv4, None) =>
        match ipset.ListEntries EgressClusterCIDRIPv6 b with
        | (_, Some err) => (Returned false (Some err), set_ipsetB b r)
        | (gotIPv6, None) =>
        match process gotIPv4 ipv4
                (fun item => ipset.AddEntry item ipSet4 true)
                (fun item => ipset.DelEntry item (ipset.Name ipSet4)) b with
        | (Some err, b) => (Returned true (Some err), set_ipsetB b r)
        | (None, b) =>
        match process gotIPv6 ipv6
                (fun item => ipset.AddEntry item ipSet6 true)
                (fun item => ipset.DelEntry item (ipset.Name ipSet6)) b with
        | (Some err, b) => (Returned true (Some err), set_ipsetB b r)
        | (None, b) => (Returned false None, set_ipsetB b r)
        end end end end end end
  end.

End reconciler.

Arguments policeReconciler : clear implicits.
Arguments M : clear implicits.

End agent.

(** ** The terms of the specification

    Definitions that follow the words of the specification, to compare
    the code with. *)

(** The canonical key of a policy. *)
Definition canonicalKey (ns name : string) : string :=
  if bool_decide (ns <> "") then ns +:+ "-" +:+ name else name.

Definition setPrefixes : list string :=
  ["egress-src-v4-"; "egress-dst-v4-"; "egress-src-v6-"; "egress-dst-v6-"].

(** The name the specification gives to a set: the prefix and the first
    [31 - len(prefix)] hexadecimal characters of the SHA-1 of the key. *)
Definition specSetName (prefix key : string) : string :=
  prefix +:+ substring 0 (31 - String.length prefix) (Sha1.hexsum key).
Arguments specSetName : simpl never.

(** Applying a diff to the members of a set: every member of [toAdd] is
    added, every member of [toDel] removed. *)
Definition applyDiff (members : gset string) (d : list string * list string)
  : gset string :=
  (members ∪ list_to_set d.1) ∖ list_to_set d.2.

(** The canonical network form of an entry and whether its address has
    an IPv4 form. *)
Definition canonicalCIDR (item : string) : option (bool * string) :=
  match GoNet.ParseCIDR item with
  | Some (ip, ipNet) =>
      Some (negb (GoNet.isEmpty_list (GoNet.To4 ip)), GoNet.IPNetString ipNet)
  | None => None
  end.

Definition dstV4 (items : list string) : list string :=
  omap (fun item => match canonicalCIDR item with
                    | Some (true, c) => Some c
                    | _ => None
                    end) items.

Definition dstV6 (items : list string) : list string :=
  omap (fun item => match canonicalCIDR item with
                    | Some (false, c) => Some c
                    | _ => None
                    end) items.

(** The canonical form of a set member (section 6, findDiff
    canonicalization): a host prefix, /32 on an IPv4 address or /128 on
    an IPv6 address, that is a CIDR whose mask is all ones, is stripped
    to the bare address; any other CIDR is rewritten to its canonical
    network form; what is not a CIDR, a bare address for one, is left as
    it is. *)
Definition canonicalize (s : string) : string :=
  match GoNet.ParseCIDR s with
  | Some (ip, ipNet) =>
      if GoNet.allFF (GoNet.ipnMask ipNet) then GoNet.IPString ip
      else GoNet.IPNetString ipNet
  | None => s
  end.

(** The entry is a host prefix of the family whose addresses have
    [bytes] bytes. *)
Definition hostPrefix (bytes : nat) (s : string) : bool :=
  match GoNet.ParseCIDR s with
  | Some (_, ipNet) =>
      (List.length (GoNet.ipnMask ipNet) =? bytes)%nat
      && GoNet.allFF (GoNet.ipnMask ipNet)
  | None => false
  end.

(** The text of the entry tells whether it is a host prefix: it ends in
    "/32" exactly when it is an IPv4 host prefix and in "/128" exactly
    when it is an IPv6 host prefix. *)
Definition suffixMarksHost (s : string) : Prop :=
  GoStrings.HasSuffix s "/32" = hostPrefix 4 s
  /\ GoStrings.HasSuffix s "/128" = hostPrefix 16 s.

(** Octets as [IP.String] prints them, each followed by a dot. *)
Fixpoint dotted (fields : list Z) : string :=
  match fields with
  | [] => ""
  | f :: rest => GoNet.uitoa f +:+ "." +:+ dotted rest
  end.

(** A backend that records the calls that change it: [trace] is the list
    of the calls made so far; [answers] and [listing] are what the kernel
    replies.  With it, which calls a function makes and in which order
    can be read off the state. *)
Module recorder.

Inductive call : Type :=
| cCreateSet (set : ipset.IPSet) (ignoreExistErr : bool)
| cDestroySet (name : string)
| cAddEntry (entry : string) (set : ipset.IPSet) (ignoreExistErr : bool)
| cDelEntry (entry : string) (name : string).

Record state : Type := mkState {
  answers : call -> option error;
  listing : string -> list string * option error;
  trace : list call
}.

Definition record (c : call) (s : state) : option error * state :=
  (answers s c, mkState (answers s) (listing s) (trace s ++ [c])).

#[global] Instance backend : ipset.Interface state := {
  ipset.CreateSet set ignoreExistErr := record (cCreateSet set ignoreExistErr);
  ipset.DestroySet name := record (cDestroySet name);
  ipset.AddEntry entry set ignoreExistErr := record (cAddEntry entry set ignoreExistErr);
  ipset.DelEntry entry name := record (cDelEntry entry name);
  ipset.ListEntries name s := listing s name
}.

End recorder.

Section terms.

Import agent.
Context {B : Type} `{!ipset.Interface B}.

(** Two reconcilers that differ at most in the ipset cache and the
    ipset backend. *)
Definition sameEnv (r r' : policeReconciler B) : Prop :=
  client r' = client r /\ cfg r' = cfg r
  /\ mangleTables r' = mangleTables r
  /\ filterTables r' = filterTables r
  /\ natTables r' = natTables r.

(** The policy object is absent or carries a deletion timestamp. *)
Definition deletedOrAbsent (got : GetResult egressv1.EgressPolicy) : Prop :=
  got = NotFound
  \/ exists policy, got = Found policy
                    /\ egressv1.DeletionTimestampIsZero policy = false.

(** The four set names of a policy, in the order of
    [buildIPSetNamesByPolicy]. *)
Definition policySetNames (ns name : string) : list string :=
  map (fun prefix => specSetName prefix (canonicalKey ns name)) setPrefixes.

(** A method that touches nothing but the ipset cache and backend. *)
Definition preservesEnv {A} (m : M B A) : Prop :=
  forall r res r', m r = (res, r') -> sameEnv r r'.

(** The rule a loop body appends, if any. *)
Definition ruleOf {A} (body : A -> result (option iptables.Rule)) (x : A)
  : option iptables.Rule :=
  match body x with
  | Ok o => o
  | _ => None
  end.

(** The rules appended by the iterations of a loop that are those of the
    policy [p]. *)
Definition contributed (f : egressv1.Policy * PolicyCommon -> option iptables.Rule)
           (l : list (egressv1.Policy * PolicyCommon)) (p : egressv1.Policy)
  : list iptables.Rule :=
  omap f (filter (fun x => x.1 = p) l).

(** The policy [p] is listed, in the status of some gateway, under a node
    whose name satisfies [P]. *)
Definition listedOn (P : string -> Prop) (gateways : list egressv1.EgressGateway)
           (p : egressv1.Policy) : Prop :=
  exists item node eip,
    item ∈ gateways /\ node ∈ egressv1.NodeList item
    /\ eip ∈ egressv1.NodeEips node /\ p ∈ egressv1.Policies eip
    /\ P (egressv1.NodeName node).

(** The rules of a chain, and the rules placed in a built-in chain, as
    last committed to the kernel. *)
Definition committedChain (t : iptables.Table) (chain : string)
  : option (list iptables.Rule) :=
  d ← iptables.dataplane t; d.1 !! chain.


(** The entries of one of the two maps of [initApplyPolicy] once the
    destinations of every policy have been fetched. *)
Definition withDestSubnet (r : policeReconciler B)
           (l : list (egressv1.Policy * PolicyCommon))
  : list (egressv1.Policy * PolicyCommon) :=
  map (fun '(policy, val) =>
         (policy,
          mkPolicyCommon (NodeName val)
            (match fetchDestSubnet policy r with Ok d => d | _ => [] end)
            (PolicyIP val))) l.

(** The match of the rule of a policy, in the words of the
    specification: the source is in the src set of the policy, the
    direction is original, and the destination is in the dst set of the
    policy or, when the policy has no destination, not in the
    cluster-ignore set of the family. *)
Definition specMatch (version : Z) (key : string) (destSubnet : list string)
  : iptables.MatchCriteria :=
  let fam := if version =? 6 then "v6-" else "v4-" in
  [ iptables.mSourceIPSet (specSetName ("egress-src-" +:+ fam) key);
    match destSubnet with
    | [] => iptables.mNotDestIPSet
              (if version =? 6 then EgressClusterCIDRIPv6 else EgressClusterCIDRIPv4)
    | _ :: _ => iptables.mDestIPSet (specSetName ("egress-dst-" +:+ fam) key)
    end;
    iptables.mCTDirectionOriginal iptables.DirectionOriginal ].

(** A table after a successful [Apply]. *)
Definition commit (t : iptables.Table) : iptables.Table :=
  iptables.mkTable (iptables.TableName t) (iptables.IPVersion t)
                   (iptables.chains t) (iptables.inserted t)
                   (Some (iptables.chains t, iptables.inserted t)) None.

(** The three kinds of tables after a successful full rebuild. *)
Definition filterRebuilt (baseMark : Z) (t : iptables.Table) : iptables.Table :=
  commit (insertStatic (buildFilterStaticRule baseMark) t).

Definition mangleRebuilt (baseMark : Z) (rules : list iptables.Rule) (t : iptables.Table)
  : iptables.Table :=
  commit (iptables.UpdateChain (iptables.mkChain markChain rules)
            (insertStatic (buildMangleStaticRule baseMark)
               (iptables.UpdateChain (iptables.mkChain markChain []) t))).

Definition natRebuilt (baseMark : Z) (rules : list iptables.Rule) (t : iptables.Table)
  : iptables.Table :=
  commit (insertStatic (buildNatStaticRule baseMark)
            (iptables.UpdateChain (iptables.mkChain snatChain rules) t)).

(** The same agent later, when the API server has changed. *)
Definition withAPI (c : Client) (r : policeReconciler B) : policeReconciler B :=
  mkReconciler c (cfg r) (ipsetMap r) (ipsetB r)
               (mangleTables r) (filterTables r) (natTables r).

(** The node recorded for a policy has an EgressNode object that can be
    fetched. *)
Definition nodeKnown (c : Client) (val : PolicyCommon) : Prop :=
  exists node, GetEgressNode c (NodeName val) = Found node.

(** The EIP recorded for a policy is not empty. *)
Definition hasEIP (val : PolicyCommon) : Prop :=
  V4 (PolicyIP val) <> "" \/ V6 (PolicyIP val) <> "".





(** The (node, EIP, policy) triples of the gateway statuses, in the order
    the loops of [initApplyPolicy] visit them. *)
Definition listings (gateways : list egressv1.EgressGateway)
  : list (egressv1.EgressIPStatus * egressv1.Eips * egressv1.Policy) :=
  item ← gateways; node ← egressv1.NodeList item;
  eip ← egressv1.NodeEips node; p ← egressv1.Policies eip; [(node, eip, p)].

(** What the innermost body of those loops does to the two maps. *)
Definition partitionStep (nodeName : string)
           (acc : gmap egressv1.Policy PolicyCommon * gmap egressv1.Policy PolicyCommon)
           (x : egressv1.EgressIPStatus * egressv1.Eips * egressv1.Policy)
  : gmap egressv1.Policy PolicyCommon * gmap egressv1.Policy PolicyCommon :=
  let '(node, eip, policy) := x in
  if bool_decide (egressv1.NodeName node = nodeName) then
    (acc.1,
     <[policy := mkPolicyCommon (egressv1.NodeName node) []
                   (mkIP (egressv1.IPv4 eip) (egressv1.IPv6 eip))]> acc.2)
  else
    (<[policy := mkPolicyCommon (egressv1.NodeName node) [] (mkIP "" "")]> acc.1,
     acc.2).

(** The family of a set is enabled in the configuration. *)
Definition stackEnabled (c : config.Config) (stack : IPStack) : bool :=
  match stack with
  | IPv4 => config.EnableIPv4 c
  | IPv6 => config.EnableIPv6 c
  end.

(** The endpoints that pass the filter, of the slices that carry no
    deletion timestamp, in the order of the slices. *)
Definition selectedEndpoints (eps : list egressv1.EgressEndpointSlice)
           (f : egressv1.EgressEndpoint -> bool) : list egressv1.EgressEndpoint :=
  ep ← eps;
  if egressv1.SliceDeletionTimestampIsZero ep
  then List.filter f (egressv1.Endpoints ep) else [].

(** The endpoint slices listed for a policy: those of the cluster policy
    when the namespace is empty. *)
Definition slicesOf (c : Client) (policyNs policyName : string)
  : result (list egressv1.EgressEndpointSlice) :=
  if bool_decide (policyNs = "")
  then ListEgressClusterEndpointSlices c policyName
  else ListEgressEndpointSlices c policyName.



End terms.

(** ** The scenarios of the specification (section 8)

    Policy ns1/app, EIP 192.168.10.5, one endpoint 10.244.0.7 on the
    local node nodeA; nodeB has the mark 0x26000001.  IPv4 only, one
    table of each kind, the kernel sets modelled by [ipset.kernel]. *)

Module scenario.

Import agent.

Definition app : egressv1.Policy := egressv1.mkPolicy "app" "ns1".

(** The API server: one gateway that lists the policy under [eipNode];
    the policy has the destinations [dest] and exists when [present]. *)
Definition apiServer (eipNode : string) (dest : list string) (present : bool) : Client :=
  mkClient
    (Ok [egressv1.mkEgressGateway
           [egressv1.mkEgressIPStatus eipNode
              [egressv1.mkEips "192.168.10.5" "" [app]]]])
    (fun ns name =>
       if present && bool_decide (ns = "ns1") && bool_decide (name = "app")
       then Found (egressv1.mkEgressPolicy dest true) else NotFound)
    (fun _ _ => NotFound)
    (fun _ _ => NotFound)
    (fun node =>
       if bool_decide (node = "nodeB") then Found (egressv1.mkEgressNode "0x26000001")
       else NotFound)
    (fun policyName =>
       if bool_decide (policyName = "app")
       then Ok [egressv1.mkEgressEndpointSlice true
                  [egressv1.mkEgressEndpoint "nodeA" ["10.244.0.7"] []]]
       else Ok [])
    (fun _ => Ok [])
    (fun _ _ => NotFound).

(** An API server without any gateway. *)
Definition noGateway : Client :=
  mkClient (Ok []) (fun _ _ => NotFound) (fun _ _ => NotFound) (fun _ _ => NotFound)
           (fun _ => NotFound) (fun _ => Ok []) (fun _ => Ok []) (fun _ _ => NotFound).

Definition cfgA : config.Config := config.mkConfig "nodeA" true false "0x26000000" [].

Definition emptyTable (name : string) : iptables.Table :=
  iptables.mkTable name 4 ∅ ∅ None None.

(** The agent when it starts. *)
Definition fresh (c : Client) : policeReconciler ipset.kernel :=
  mkReconciler c cfgA ∅ ∅ [emptyTable "mangle"] [emptyTable "filter"] [emptyTable "nat"].

(** The agent after a full rebuild with the policy bound to nodeB. *)
Definition rebuiltRemote : policeReconciler ipset.kernel :=
  (initApplyPolicy (fresh (apiServer "nodeB" ["10.6.1.92/32"] true))).2.

(** An API server whose cluster info reports one pod CIDR, and an agent
    whose IPv4 cluster-ignore set already holds exactly that CIDR. *)
Definition infoServer : Client :=
  mkClient (Ok []) (fun _ _ => NotFound) (fun _ _ => NotFound) (fun _ _ => NotFound)
           (fun _ => NotFound) (fun _ => Ok []) (fun _ => Ok [])
           (fun _ _ => Found (egressv1.mkEgressClusterInfo true
                                (egressv1.mkIPListPair [] [])
                                (egressv1.mkIPListPair ["10.244.0.0/16"] [])
                                (egressv1.mkIPListPair [] []))).

Definition converged : policeReconciler ipset.kernel :=
  mkReconciler infoServer cfgA ∅
               {[ EgressClusterCIDRIPv4 := ["10.244.0.0/16"];
                  EgressClusterCIDRIPv6 := [] ]}
               [] [] [].

(** The same agent over the recording backend. *)
Definition convergedRecorded : policeReconciler recorder.state :=
  mkReconciler infoServer cfgA ∅
    (recorder.mkState
       (fun _ => None)
       (fun name => if bool_decide (name = EgressClusterCIDRIPv4)
                    then (["10.244.0.0/16"], None) else ([], None))
       [])
    [] [] [].

(** The agent after a full rebuild with the policy bound to the local
    node. *)
Definition rebuiltLocal : policeReconciler ipset.kernel :=
  (initApplyPolicy (fresh (apiServer "nodeA" ["10.6.1.92/32"] true))).2.

(** The mark rule of the policy. *)
Definition appMarkRule : iptables.Rule :=
  iptables.mkRule
    [ iptables.mSourceIPSet "egress-src-v4-d8934174b5b16becd";
      iptables.mDestIPSet "egress-dst-v4-d8934174b5b16becd";
      iptables.mCTDirectionOriginal iptables.DirectionOriginal ]
    (iptables.SetMaskedMarkAction 0x26000001 0xffffffff) [].

End scenario.

(** * Properties *)

Example sha1_abc : Sha1.hexsum "abc" = "a9993e364706816aba3e25717850c26c9cd0d89d".
Proof. vm_compute. reflexivity. Qed.

Example sha1_empty : Sha1.hexsum "" = "da39a3ee5e6b4b0d3255bfef95601890afd80709".
Proof. vm_compute. reflexivity. Qed.

Example sha1_two_blocks :
  Sha1.hexsum "abcdbcdecdefdefgefghfghighijhijkijkljklmklmnlmnomnopnopq"
  = "84983e441c3bd26ebaae4aa1f95129e5e54670f1".
Proof. vm_compute. reflexivity. Qed.

Example net_ex1 : GoNet.IPNetString <$> (snd <$> GoNet.ParseCIDR "10.6.1.92/32") = Some "10.6.1.92/32".
Proof. vm_compute. reflexivity. Qed.
Example net_ex2 : GoNet.IPNetString <$> (snd <$> GoNet.ParseCIDR "10.97.3.4/12") = Some "10.96.0.0/12".
Proof. vm_compute. reflexivity. Qed.
Example net_ex3 : GoNet.IPNetString <$> (snd <$> GoNet.ParseCIDR "2001:db8::/32") = Some "2001:db8::/32".
Proof. vm_compute. reflexivity. Qed.
Example net_ex4 : GoNet.IPNetString <$> (snd <$> GoNet.ParseCIDR "2001:DB8:0:0:0:0:0:1/64") = Some "2001:db8::/64".
Proof. vm_compute. reflexivity. Qed.
Example net_ex5 : GoNet.IPNetString <$> (snd <$> GoNet.ParseCIDR "fd00::1/128") = Some "fd00::1/128".
Proof. vm_compute. reflexivity. Qed.
Example net_ex6 : GoNet.IPNetString <$> (snd <$> GoNet.ParseCIDR "::ffff:1.2.3.4/120") = Some "1.2.3.0/24".
Proof. vm_compute. reflexivity. Qed.
Example net_ex7 : GoNet.IPString (GoNet.ParseIP "1:0:0:2:0:0:0:3") = "1:0:0:2::3".
Proof. vm_compute. reflexivity. Qed.
Example net_ex8 : GoNet.IPString (GoNet.ParseIP "::1") = "::1".
Proof. vm_compute. reflexivity. Qed.
Example net_ex9 : GoNet.ParseCIDR "10.6.1.92" = None.
Proof. vm_compute. reflexivity. Qed.
Example net_ex10 : GoNet.IPString (GoNet.ParseIP "192.168.10.5") = "192.168.10.5".
Proof. vm_compute. reflexivity. Qed.
Example net_ex11 : GoNet.ParseIP "010.1.1.1" = [] /\ GoNet.ParseIP "1.2.3" = [] /\ GoNet.ParseIP "1::2::3" = [] /\ GoNet.ParseIP "fe80::1%eth0" = [].
Proof. vm_compute. auto. Qed.
Example net_ex12 : GoNet.IPString (GoNet.ParseIP "fe80:0:0:0:1:0:0:0") = "fe80::1:0:0:0" /\ GoNet.IPString (GoNet.ParseIP "::") = "::" /\ GoNet.IPString (GoNet.ParseIP "1:2:3:4:5:6:7::") = "1:2:3:4:5:6:7:0".
Proof. vm_compute. auto. Qed.

Example fmt_ex1 : agent.formatIPSetName "egress-src-v4-" "abc" = Some "egress-src-v4-a9993e364706816ab".
Proof. vm_compute. reflexivity. Qed.
Example fd_ex1 : agent.findDiff ["10.0.0.1"; "10.0.0.2"] ["10.0.0.2/32"; "10.1.0.7/16"; "fd00::2/128"] = (["10.1.0.0/16"; "fd00::2"], ["10.0.0.1"]).
Proof. vm_compute. reflexivity. Qed.
Example fd_ex2 : agent.findDiff [] ["2001:db8::/32"] = (["2001:db8::"], []).
Proof. vm_compute. reflexivity. Qed.
Example gd_ex1 : agent.getDstCIDR ["10.6.1.92/32"; "fd00::/8"; "10.97.3.4/12"] = Ok (["10.6.1.92/32"; "10.96.0.0/12"], ["fd00::/8"]).
Proof. vm_compute. reflexivity. Qed.
Example gd_ex2 : agent.getDstCIDR ["10.6.1.92"] = Err (errorString "invalid CIDR address: 10.6.1.92").
Proof. vm_compute. reflexivity. Qed.

Example pm_ex1 : agent.parseMark "0x26000000" = Ok 0x26000000 /\ agent.parseMark "0x26000001" = Ok 637534209 /\ agent.parseMark "" = Err agent.errSyntax /\ agent.parseMark "0xff000000" = Err agent.errRange /\ agent.parseMark "-1" = Ok 0xffffffff.
Proof. vm_compute. auto. Qed.

(** ** Set names *)

Section names.

Import agent.

Lemma append_cons (c : ascii) (a b : string) :
  String c a +:+ b = String c (a +:+ b).
Proof. reflexivity. Qed.

Lemma append_assoc (a b c : string) : (a +:+ b) +:+ c = a +:+ b +:+ c.
Proof. induction a as [|x a IH]; [reflexivity |]. rewrite !append_cons. congruence. Qed.

Lemma append_nil_r (a : string) : a +:+ "" = a.
Proof. induction a as [|x a IH]; [reflexivity |]. rewrite append_cons. congruence. Qed.

Lemma length_append (a b : string) :
  String.length (a +:+ b) = (String.length a + String.length b)%nat.
Proof. induction a as [|c a IH]; simpl; [reflexivity | now rewrite IH]. Qed.

Lemma length_substring_0 (n : nat) (s : string) :
  (n <= String.length s)%nat -> String.length (substring 0 n s) = n.
Proof.
  revert s; induction n as [|n IH]; intros s Hn.
  - destruct s; reflexivity.
  - destruct s as [|c s]; simpl in *; [lia |].
    rewrite IH; [reflexivity | lia].
Qed.

Lemma length_be_bytes (n : nat) (x : Z) : List.length (Sha1.be_bytes n x) = n.
Proof. induction n as [|n IH]; simpl; [reflexivity | now rewrite IH]. Qed.

Lemma length_hex (bs : list Z) :
  String.length (Sha1.hex bs) = (2 * List.length bs)%nat.
Proof. induction bs as [|b bs IH]; simpl; [reflexivity | rewrite IH; lia]. Qed.

Lemma length_Sum (data : list Z) : List.length (Sha1.Sum data) = 20%nat.
Proof.
  unfold Sha1.Sum.
  destruct (Sha1.blocks _ _ _) as [[[[h0 h1] h2] h3] h4].
  rewrite !length_app, !length_be_bytes. reflexivity.
Qed.

(** The hexadecimal digest always has 40 characters. *)
Lemma length_hexsum (s : string) : String.length (Sha1.hexsum s) = 40%nat.
Proof. unfold Sha1.hexsum. rewrite length_hex, length_Sum. reflexivity. Qed.

(** With a prefix of 14 bytes the slice [hash[:17]] is in range. *)
Lemma formatIPSetName_14 (prefix name : string) :
  String.length prefix = 14%nat ->
  formatIPSetName prefix name
  = Some (prefix +:+ substring 0 17 (Sha1.hexsum name)).
Proof.
  intros Hp. unfold formatIPSetName. rewrite Hp, length_hexsum. reflexivity.
Qed.

Lemma formatIPSetName_length (prefix name s : string) :
  formatIPSetName prefix name = Some s -> String.length s = 31%nat.
Proof.
  unfold formatIPSetName. rewrite length_hexsum.
  destruct (_ || _) eqn:E; [discriminate |].
  intros [= <-]. apply orb_false_elim in E as [E1 E2].
  apply Z.ltb_ge in E1, E2.
  rewrite length_append, length_substring_0; [lia |].
  rewrite length_hexsum. lia.
Qed.

Lemma formatIPSetName_prefix (prefix key : string) :
  prefix ∈ setPrefixes ->
  formatIPSetName prefix key = Some (specSetName prefix key).
Proof.
  intros Hin. unfold setPrefixes in Hin.
  repeat (apply elem_of_cons in Hin as [-> | Hin]);
    try (apply formatIPSetName_14; reflexivity).
  apply elem_of_nil in Hin. destruct Hin.
Qed.

(** The names of a policy, in the order [buildIPSetNamesByPolicy] lists
    them. *)
Lemma buildIPSetNamesByPolicy_spec (ns name : string) (enableIPv4 enableIPv6 : bool) :
  buildIPSetNamesByPolicy ns name enableIPv4 enableIPv6
  = Some ((if enableIPv4 then
             [ mkSetName (specSetName "egress-src-v4-" (canonicalKey ns name)) IPv4 IPSrc;
               mkSetName (specSetName "egress-dst-v4-" (canonicalKey ns name)) IPv4 IPDst ]
           else [])
          ++ (if enableIPv6 then
             [ mkSetName (specSetName "egress-src-v6-" (canonicalKey ns name)) IPv6 IPSrc;
               mkSetName (specSetName "egress-dst-v6-" (canonicalKey ns name)) IPv6 IPDst ]
           else [])).
Proof.
  unfold buildIPSetNamesByPolicy. fold (canonicalKey ns name).
  rewrite !formatIPSetName_prefix by (unfold setPrefixes; set_solver).
  destruct enableIPv4, enableIPv6; reflexivity.
Qed.

Lemma specSetName_length (prefix key : string) :
  prefix ∈ setPrefixes -> String.length (specSetName prefix key) = 31%nat.
Proof.
  intros Hin. eapply formatIPSetName_length, formatIPSetName_prefix, Hin.
Qed.

(** Two prefixes of the same length give different names. *)
Lemma append_inj_prefix (p1 p2 x1 x2 : string) :
  String.length p1 = String.length p2 -> p1 +:+ x1 = p2 +:+ x2 -> p1 = p2.
Proof.
  revert p2; induction p1 as [|c p1 IH]; intros [|d p2] Hl; try discriminate Hl.
  - reflexivity.
  - rewrite !append_cons. intros [= -> Hr]. f_equal. apply IH; [| exact Hr].
    simpl in Hl. lia.
Qed.

Lemma specSetName_inj (p1 p2 key : string) :
  p1 ∈ setPrefixes -> p2 ∈ setPrefixes ->
  specSetName p1 key = specSetName p2 key -> p1 = p2.
Proof.
  intros H1 H2. apply append_inj_prefix.
  unfold setPrefixes in H1, H2.
  repeat (apply elem_of_cons in H1 as [-> | H1]);
    repeat (apply elem_of_cons in H2 as [-> | H2]);
    try reflexivity;
    try (apply elem_of_nil in H1; destruct H1);
    try (apply elem_of_nil in H2; destruct H2).
Qed.

(** C7: for every policy, the four ipset names are the four prefixes
    followed by the first [31 - len(prefix)] hexadecimal characters of
    the SHA-1 of the canonical key (the name when cluster-scoped, else
    namespace-name); the derivation never fails and every name has 31
    characters. *)
Theorem C7_ipset_names (ns name : string) :
  buildIPSetNamesByPolicy ns name true true
  = Some [ mkSetName (specSetName "egress-src-v4-" (canonicalKey ns name)) IPv4 IPSrc;
           mkSetName (specSetName "egress-dst-v4-" (canonicalKey ns name)) IPv4 IPDst;
           mkSetName (specSetName "egress-src-v6-" (canonicalKey ns name)) IPv6 IPSrc;
           mkSetName (specSetName "egress-dst-v6-" (canonicalKey ns name)) IPv6 IPDst ]
  /\ (forall prefix, prefix ∈ setPrefixes ->
        formatIPSetName prefix (canonicalKey ns name)
        = Some (specSetName prefix (canonicalKey ns name))
        /\ String.length (specSetName prefix (canonicalKey ns name)) = 31%nat)
  /\ (forall enableIPv4 enableIPv6, exists names,
        buildIPSetNamesByPolicy ns name enableIPv4 enableIPv6 = Some names
        /\ forall set, set ∈ names -> String.length (Name set) = 31%nat).
Proof.
  split; [| split].
  - apply buildIPSetNamesByPolicy_spec.
  - intros prefix Hin. split.
    + now apply formatIPSetName_prefix.
    + now apply specSetName_length.
  - intros e4 e6. eexists. split; [apply buildIPSetNamesByPolicy_spec |].
    intros set Hin.
    destruct e4, e6; cbn [app] in Hin;
      repeat (apply elem_of_cons in Hin as [-> | Hin]);
      try (apply elem_of_nil in Hin; destruct Hin);
      apply specSetName_length; unfold setPrefixes; set_solver.
Qed.

End names.

(** ** The diff of set members *)

Section diff.

Import agent.

Lemma mapGet_foldl (l : list string) (m : gmap string bool) (s : string) :
  mapGet (foldl (fun m s => <[s := true]> m) m l) s
  = bool_decide (s ∈ l) || mapGet m s.
Proof.
  revert m; induction l as [|x l IH]; intros m; cbn [foldl].
  - rewrite bool_decide_eq_false_2 by apply not_elem_of_nil. reflexivity.
  - rewrite IH. unfold mapGet.
    destruct (decide (x = s)) as [->|Hne].
    + rewrite lookup_insert_eq. cbn [default].
      rewrite (bool_decide_eq_true_2 (s ∈ s :: l)) by (apply elem_of_cons; now left).
      now rewrite orb_true_r.
    + rewrite lookup_insert_ne by assumption.
      destruct (decide (s ∈ l)) as [Hin|Hnin].
      * rewrite !bool_decide_eq_true_2; [reflexivity | apply elem_of_cons; now right | assumption].
      * rewrite !bool_decide_eq_false_2; [reflexivity | | assumption].
        intros [->|?]%elem_of_cons; [now apply Hne | contradiction].
Qed.

(** Reading the Go map built from a list is the membership test. *)
Lemma mapGet_boolMap (l : list string) (s : string) :
  mapGet (boolMap l) s = bool_decide (s ∈ l).
Proof.
  unfold boolMap. rewrite mapGet_foldl. unfold mapGet.
  rewrite lookup_empty. apply orb_false_r.
Qed.

(** What [findDiff] returns, member by member: [toAdd] holds the
    normalized new entries that are not old, [toDel] the old entries that
    are not among the normalized new ones. *)
Lemma findDiff_members (oldList newList : list string) (x : string) :
  (x ∈ (findDiff oldList newList).1
     <-> x ∈ map normalizeEntry newList /\ x ∉ oldList)
  /\ (x ∈ (findDiff oldList newList).2
     <-> x ∈ oldList /\ x ∉ map normalizeEntry newList).
Proof.
  unfold findDiff; simpl. split.
  - rewrite list_elem_of_filter, mapGet_boolMap.
    rewrite bool_decide_eq_false. tauto.
  - rewrite list_elem_of_filter, mapGet_boolMap.
    rewrite bool_decide_eq_false. tauto.
Qed.

Lemma filter_none (P : string -> Prop) `{!forall x, Decision (P x)} (l : list string) :
  (forall x, x ∈ l -> ~ P x) -> filter P l = [].
Proof.
  induction l as [|a l IH]; intros Hl; [reflexivity |].
  rewrite filter_cons. destruct (decide (P a)) as [Hp|_].
  - exfalso. apply (Hl a); [apply elem_of_cons; now left | exact Hp].
  - apply IH. intros x Hx. apply Hl. apply elem_of_cons. now right.
Qed.

(** C5: [findDiff] strips the suffix "/32" of every new entry that ends
    with it, whatever the address before it: the IPv6 network
    2001:db8::/32, a CIDR whose canonical network form is itself, is
    turned into the host address 2001:db8::, which is then what [toAdd]
    holds. *)
Theorem C5_findDiff_slash32_of_ipv6 :
  findDiff [] ["2001:db8::/32"] = (["2001:db8::"], [])
  /\ normalizeEntry "2001:db8::/32" = "2001:db8::"
  /\ (GoNet.IPNetString <$> (snd <$> GoNet.ParseCIDR "2001:db8::/32"))
     = Some "2001:db8::/32".
Proof. vm_compute. auto. Qed.

(** C6, as stated, fails: the diff of the list ["10.0.0.1/32"] with
    itself is not empty, because only the new side is normalized. *)
Lemma C6_counterexample :
  findDiff ["10.0.0.1/32"] ["10.0.0.1/32"] = (["10.0.0.1"], ["10.0.0.1/32"])
  /\ findDiff ["10.0.0.1/32"] ["10.0.0.1/32"] <> ([], []).
Proof. vm_compute. split; [reflexivity | discriminate]. Qed.

End diff.

(** ** Destination CIDRs *)

Section dst.

Import agent.

Lemma contains_append (c : ascii) (a b : string) :
  GoNet.contains c (a +:+ b) = GoNet.contains c a || GoNet.contains c b.
Proof.
  induction a as [|d a IH]; [reflexivity |].
  rewrite append_cons. cbn [GoNet.contains].
  rewrite IH. now rewrite orb_assoc.
Qed.

Lemma splitSlash_None (s : string) :
  GoNet.contains "/" s = false -> GoNet.splitSlash s = None.
Proof.
  induction s as [|c s IH]; cbn [GoNet.contains GoNet.splitSlash]; [reflexivity |].
  intros [Hc Hs]%orb_false_elim.
  rewrite Ascii.eqb_sym, Hc, (IH Hs). reflexivity.
Qed.

Lemma digit_not_slash (c : ascii) :
  GoNet.isDigit c = true -> Ascii.eqb "/" c = false.
Proof.
  intros Hd. destruct (Ascii.eqb "/" c) eqn:E; [| reflexivity].
  apply Ascii.eqb_eq in E. subst c. discriminate Hd.
Qed.

Lemma hexval_not_slash (c : ascii) (d : Z) :
  GoNet.hexval c = Some d -> Ascii.eqb "/" c = false.
Proof.
  intros Hd. destruct (Ascii.eqb "/" c) eqn:E; [| reflexivity].
  apply Ascii.eqb_eq in E. subst c. discriminate Hd.
Qed.

Lemma parseIPv4_from_no_slash (s : string) first prevDot val digLen fields b :
  GoNet.parseIPv4_from s first prevDot val digLen fields = Some b ->
  GoNet.contains "/" s = false.
Proof.
  revert first prevDot val digLen fields.
  induction s as [|c s IH]; intros first prevDot val digLen fields;
    cbn [GoNet.parseIPv4_from GoNet.contains]; [reflexivity |].
  destruct (GoNet.isDigit c) eqn:Hd.
  - rewrite (digit_not_slash c Hd). cbn [orb].
    destruct (_ && _); [discriminate |].
    destruct (_ >? 255); [discriminate |]. apply IH.
  - destruct (Ascii.eqb c ".") eqn:Hdot; [| discriminate].
    apply Ascii.eqb_eq in Hdot. subst c.
    change (Ascii.eqb "/" ".") with false. cbn [orb].
    destruct (_ || _); [discriminate |].
    destruct (_ =? 3)%nat; [discriminate |]. apply IH.
Qed.

Lemma hexField_prefix (s : string) (acc : Z) (off : nat) v off' rest :
  GoNet.hexField s acc off = Some (v, off', rest) ->
  exists pre, s = pre +:+ rest /\ GoNet.contains "/" pre = false.
Proof.
  revert acc off. induction s as [|c s IH]; intros acc off; cbn [GoNet.hexField].
  - intros [= <- <- <-]. now exists "".
  - destruct (GoNet.hexval c) as [d|] eqn:Hc.
    + destruct (_ >? 0xffff); [discriminate |].
      intros H. apply IH in H as (pre & -> & Hpre).
      exists (String c pre). split; [reflexivity |]. cbn [GoNet.contains].
      now rewrite (hexval_not_slash c d Hc), Hpre.
    + intros [= <- <- <-]. now exists "".
Qed.

Lemma parseIPv6_loop_prefix (fuel : nat) (s : string) ip e rest ip' e' :
  GoNet.parseIPv6_loop fuel s ip e = Some (rest, ip', e') ->
  exists pre, s = pre +:+ rest /\ GoNet.contains "/" pre = false.
Proof.
  revert s ip e. induction fuel as [|k IH]; intros s ip e; cbn [GoNet.parseIPv6_loop].
  - destruct (16 <=? _)%nat; [| discriminate].
    intros [= <- <- <-]. now exists "".
  - destruct (16 <=? _)%nat; [intros [= <- <- <-]; now exists "" |].
    destruct (GoNet.hexField s 0 0) as [[[acc off] r]|] eqn:Hf; [| discriminate].
    destruct (off =? 0)%nat; [discriminate |].
    apply hexField_prefix in Hf as (pre & Hs & Hpre).
    destruct r as [|c r1].
    { intros [= <- <- <-]. exists pre. now split. }
    destruct (Ascii.eqb c ".") eqn:Hdot.
    { destruct (_ && _); [discriminate |].
      destruct (16 <? _)%nat; [discriminate |].
      destruct (GoNet.parseIPv4 s) as [ip4|] eqn:H4; [| discriminate].
      intros [= <- <- <-]. exists s. split.
      - now rewrite append_nil_r.
      - eapply parseIPv4_from_no_slash, H4. }
    destruct (Ascii.eqb c ":") eqn:Hcol; cbn [negb]; [| discriminate].
    apply Ascii.eqb_eq in Hcol. subst c.
    destruct r1 as [|c2 r2]; [discriminate |].
    destruct (Ascii.eqb c2 ":") eqn:Hc2.
    + apply Ascii.eqb_eq in Hc2. subst c2.
      destruct e; [discriminate |].
      destruct r2 as [|c3 r3]; cbn [GoNet.isEmpty].
      * intros [= <- <- <-]. exists (pre +:+ "::"). split.
        -- rewrite Hs, append_assoc. reflexivity.
        -- rewrite contains_append, Hpre. reflexivity.
      * intros H. apply IH in H as (p2 & Hr & Hp2).
        exists (pre +:+ "::" +:+ p2). split.
        -- rewrite Hs, Hr, !append_assoc. reflexivity.
        -- rewrite !contains_append, Hpre, Hp2. reflexivity.
    + intros H. apply IH in H as (p2 & Hr & Hp2).
      exists (pre +:+ ":" +:+ p2). split.
      * rewrite Hs, Hr, !append_assoc. reflexivity.
      * rewrite !contains_append, Hpre, Hp2. reflexivity.
Qed.

Lemma parseIPv6_no_slash (s : string) (b : list Z) :
  GoNet.parseIPv6 s = Some b -> GoNet.contains "/" s = false.
Proof.
  unfold GoNet.parseIPv6.
  destruct (GoNet.contains "%" s); [discriminate |].
  destruct (GoStrings.HasPrefix s "::") eqn:Hp.
  - assert (Hs : s = "::" +:+ GoStrings.TrimPrefix s "::").
    { unfold GoStrings.TrimPrefix. rewrite Hp.
      destruct s as [|c1 s]; [discriminate Hp |].
      cbn [GoStrings.HasPrefix] in Hp.
      destruct (Ascii.eqb ":" c1) eqn:E1; [| discriminate].
      destruct s as [|c2 s]; [discriminate Hp |].
      cbn [GoStrings.HasPrefix] in Hp.
      destruct (Ascii.eqb ":" c2) eqn:E2; [| discriminate].
      apply Ascii.eqb_eq in E1, E2. subst. reflexivity. }
    destruct (GoNet.isEmpty _ && _) eqn:He.
    + intros _. apply andb_prop in He as [He _].
      destruct (GoStrings.TrimPrefix s "::"); [| discriminate].
      rewrite Hs. reflexivity.
    + destruct (GoNet.parseIPv6_loop _ _ _ _) as [[[rest ip] e]|] eqn:Hl;
        [| discriminate].
      destruct rest; cbn [GoNet.isEmpty negb]; [| discriminate].
      intros _. apply parseIPv6_loop_prefix in Hl as (pre & Hr & Hpre).
      rewrite append_nil_r in Hr. rewrite Hs, Hr.
      rewrite contains_append, Hpre. reflexivity.
  - destruct (GoNet.isEmpty _ && _) eqn:He;
      [apply andb_prop in He as [_ He]; discriminate He |].
    destruct (GoNet.parseIPv6_loop _ _ _ _) as [[[rest ip] e]|] eqn:Hl;
      [| discriminate].
    destruct rest; cbn [GoNet.isEmpty negb]; [| discriminate].
    intros _. apply parseIPv6_loop_prefix in Hl as (pre & Hr & Hpre).
    rewrite append_nil_r in Hr. now rewrite Hr.
Qed.

Lemma ParseAddr_no_slash (s : string) (a : GoNet.Addr) :
  GoNet.ParseAddr s = Some a -> GoNet.contains "/" s = false.
Proof.
  unfold GoNet.ParseAddr. generalize s at 1 3. intros whole.
  induction s as [|c s IH]; cbn [GoNet.ParseAddr_scan]; [discriminate |].
  destruct (Ascii.eqb c ".").
  { destruct (GoNet.parseIPv4 whole) eqn:H4; [| discriminate].
    intros _. eapply parseIPv4_from_no_slash, H4. }
  destruct (Ascii.eqb c ":").
  { destruct (GoNet.parseIPv6 whole) eqn:H6; [| discriminate].
    intros _. eapply parseIPv6_no_slash, H6. }
  destruct (Ascii.eqb c "%"); [discriminate | apply IH].
Qed.

(** A string that [net.ParseIP] accepts, a bare IP address, is not a
    CIDR for [net.ParseCIDR]. *)
Lemma bare_IP_not_CIDR (s : string) :
  GoNet.ParseIP s <> [] -> GoNet.ParseCIDR s = None.
Proof.
  unfold GoNet.ParseIP, GoNet.ParseCIDR.
  destruct (GoNet.ParseAddr s) as [a|] eqn:Ha; [| congruence].
  intros _. now rewrite (splitSlash_None s (ParseAddr_no_slash s a Ha)).
Qed.

Lemma parseIPv6_length (s : string) (b : list Z) :
  GoNet.parseIPv6 s = Some b -> (0 < List.length b)%nat.
Proof.
  unfold GoNet.parseIPv6.
  destruct (GoNet.contains "%" s); [discriminate |].
  destruct (if GoStrings.HasPrefix s "::" then _ else _) as [s0 e0].
  destruct (GoNet.isEmpty s0 && _).
  { intros [= <-]. cbn. lia. }
  destruct (GoNet.parseIPv6_loop _ _ _ _) as [[[rest ip] e]|]; [| discriminate].
  destruct (negb _); [discriminate |].
  destruct (List.length ip <? 16)%nat eqn:Hlt.
  - destruct e as [e|]; [| discriminate]. intros [= <-].
    apply Nat.ltb_lt in Hlt.
    rewrite !length_app, repeat_length. lia.
  - destruct (GoNet.isNone e); [| discriminate]. intros [= <-].
    apply Nat.ltb_ge in Hlt. lia.
Qed.

(** The address [net.ParseCIDR] returns is never nil. *)
Lemma ParseCIDR_ip_not_nil (s : string) ip ipNet :
  GoNet.ParseCIDR s = Some (ip, ipNet) -> GoNet.isEmpty_list ip = false.
Proof.
  unfold GoNet.ParseCIDR.
  destruct (GoNet.splitSlash s) as [[addr mask]|]; [| discriminate].
  destruct (GoNet.ParseAddr addr) as [a|] eqn:Ha; [| discriminate].
  destruct (GoNet.dtoi mask) as [[n i] ok].
  destruct (_ || _); [discriminate |]. intros [= <- _].
  destruct a as [b|b]; [reflexivity |].
  cbn [GoNet.As16].
  assert (Hb : (0 < List.length b)%nat).
  { revert Ha. unfold GoNet.ParseAddr. generalize addr at 1. intros whole.
    induction addr as [|c addr IH]; cbn [GoNet.ParseAddr_scan]; [discriminate |].
    destruct (Ascii.eqb c ".").
    { destruct (GoNet.parseIPv4 whole); discriminate. }
    destruct (Ascii.eqb c ":").
    { destruct (GoNet.parseIPv6 whole) eqn:H6; [| discriminate].
      intros [= ->]. eapply parseIPv6_length, H6. }
    destruct (Ascii.eqb c "%"); [discriminate | apply IH]. }
  destruct b; [simpl in Hb; lia | reflexivity].
Qed.

Lemma getDstCIDR_from_ok (items ipv4List ipv6List : list string) :
  Forall (fun item => is_Some (GoNet.ParseCIDR item)) items ->
  getDstCIDR_from items ipv4List ipv6List
  = Ok (ipv4List ++ dstV4 items, ipv6List ++ dstV6 items).
Proof.
  intros HF. revert ipv4List ipv6List.
  induction HF as [|item items [[ip ipNet] Hp] _ IH]; intros ipv4List ipv6List.
  - cbn. now rewrite !app_nil_r.
  - assert (Hc : canonicalCIDR item
                 = Some (negb (GoNet.isEmpty_list (GoNet.To4 ip)),
                         GoNet.IPNetString ipNet))
      by (unfold canonicalCIDR; now rewrite Hp).
    cbn [getDstCIDR_from]. unfold dstV4, dstV6. cbn [omap list_omap].
    rewrite Hc, Hp, (ParseCIDR_ip_not_nil _ _ _ Hp).
    destruct (negb (GoNet.isEmpty_list (GoNet.To4 ip))).
    + rewrite IH. unfold dstV4, dstV6. now rewrite <- app_assoc.
    + rewrite IH. unfold dstV4, dstV6. now rewrite <- app_assoc.
Qed.

Lemma getDstCIDR_from_err (items ipv4List ipv6List : list string) :
  Exists (fun item => GoNet.ParseCIDR item = None) items ->
  exists e, getDstCIDR_from items ipv4List ipv6List = Err e.
Proof.
  intros HE. revert ipv4List ipv6List.
  induction HE as [item items Hp | item items _ IH]; intros ipv4List ipv6List;
    cbn [getDstCIDR_from].
  - rewrite Hp. eauto.
  - destruct (GoNet.ParseCIDR item) as [[ip ipNet]|]; [| eauto].
    destruct (GoNet.isEmpty_list ip); [apply IH |].
    destruct (negb _); apply IH.
Qed.

(** C8, as stated, fails: a bare IP address in destSubnets is not put in
    host form into the IPv4 list; [getDstCIDR] rejects the list. *)
Lemma C8_counterexample :
  GoNet.IPString (GoNet.ParseIP "10.6.1.92") = "10.6.1.92"
  /\ getDstCIDR ["10.6.1.92"] = Err (errorString "invalid CIDR address: 10.6.1.92").
Proof. vm_compute. auto. Qed.

(** C8 (amended): when every entry of destSubnets parses as a CIDR,
    [getDstCIDR] places the canonical network form of every entry, in
    order, into the list of the family of its address; when an entry
    does not parse as a CIDR, and a bare IP address never does,
    [getDstCIDR] returns an error. *)
Theorem C8_getDstCIDR (items : list string) :
  (Forall (fun item => is_Some (GoNet.ParseCIDR item)) items ->
     getDstCIDR items = Ok (dstV4 items, dstV6 items))
  /\ (Exists (fun item => GoNet.ParseCIDR item = None) items ->
       exists e, getDstCIDR items = Err e)
  /\ (forall item, GoNet.ParseIP item <> [] -> GoNet.ParseCIDR item = None).
Proof.
  split; [| split].
  - intros HF. unfold getDstCIDR. now rewrite getDstCIDR_from_ok.
  - apply getDstCIDR_from_err.
  - apply bare_IP_not_CIDR.
Qed.

Lemma C8_getDstCIDR_witness :
  getDstCIDR ["10.6.1.92/32"; "fd00::/8"; "10.97.3.4/12"]
  = Ok (["10.6.1.92/32"; "10.96.0.0/12"], ["fd00::/8"])
  /\ (exists e, getDstCIDR ["10.6.1.92/32"; "10.6.1.93"] = Err e)
  /\ GoNet.ParseCIDR "10.6.1.93" = None.
Proof.
  split; [| split].
  - apply (proj1 (C8_getDstCIDR ["10.6.1.92/32"; "fd00::/8"; "10.97.3.4/12"])).
    repeat constructor; vm_compute; eauto.
  - apply (proj1 (proj2 (C8_getDstCIDR ["10.6.1.92/32"; "10.6.1.93"]))).
    apply Exists_cons_tl, Exists_cons_hd. vm_compute. reflexivity.
  - apply (proj2 (proj2 (C8_getDstCIDR []))). vm_compute. discriminate.
Defined.

End dst.

(** ** The canonical form of the members *)

Section canonical.

Import agent.

Lemma append_nil_l (s : string) : "" +:+ s = s.
Proof. reflexivity. Qed.

Lemma substring_split (s : string) (n : nat) :
  (n <= String.length s)%nat ->
  s = substring 0 n s +:+ substring n (String.length s - n) s.
Proof.
  revert n. induction s as [|c s IH]; intros n Hn.
  - destruct n; [reflexivity | cbn in Hn; lia].
  - destruct n as [|n].
    + cbn [substring]. rewrite append_nil_l.
      cbn [String.length Nat.sub]. f_equal.
      clear. induction s as [|d s IH]; [reflexivity |].
      cbn [String.length substring]. now rewrite <- IH.
    + cbn [String.length] in Hn. cbn [substring String.length Nat.sub].
      rewrite append_cons. f_equal. apply IH. lia.
Qed.

Lemma HasSuffix_split (s suffix : string) :
  GoStrings.HasSuffix s suffix = true ->
  s = GoStrings.TrimSuffix s suffix +:+ suffix.
Proof.
  intros Hs. unfold GoStrings.TrimSuffix. rewrite Hs.
  unfold GoStrings.HasSuffix in Hs.
  apply andb_true_iff in Hs as [Hl He].
  apply Nat.leb_le in Hl. apply String.eqb_eq in He.
  rewrite (substring_split s (String.length s - String.length suffix)) at 1 by lia.
  f_equal.
  replace (String.length s - (String.length s - String.length suffix))%nat
    with (String.length suffix) by lia.
  exact He.
Qed.

Lemma splitSlash_split (s a m : string) :
  GoNet.splitSlash s = Some (a, m) -> s = a +:+ "/" +:+ m.
Proof.
  revert a. induction s as [|c s IH]; intros a; cbn [GoNet.splitSlash]; [discriminate |].
  destruct (Ascii.eqb c "/") eqn:Hc.
  - intros [= <- <-]. apply Ascii.eqb_eq in Hc. now subst c.
  - destruct (GoNet.splitSlash s) as [[a' m']|]; [| discriminate].
    intros [= <- <-]. rewrite append_cons. f_equal. now apply IH.
Qed.

Lemma split_unique (a1 a2 m1 m2 : string) :
  a1 +:+ "/" +:+ m1 = a2 +:+ "/" +:+ m2 ->
  GoNet.contains "/" m1 = false -> GoNet.contains "/" m2 = false ->
  a1 = a2.
Proof.
  change ("/" +:+ m1) with (String "/" m1). change ("/" +:+ m2) with (String "/" m2).
  intros He H1 H2. revert a2 He.
  induction a1 as [|c a1 IH]; intros [|d a2];
    change ("" +:+ String "/" m1) with (String "/" m1);
    change ("" +:+ String "/" m2) with (String "/" m2);
    rewrite ?append_cons.
  - reflexivity.
  - intros [= <- ->]. rewrite contains_append in H1.
    cbn [GoNet.contains] in H1. rewrite Ascii.eqb_refl in H1.
    rewrite orb_true_r in H1. discriminate.
  - intros [= -> <-]. rewrite contains_append in H2.
    cbn [GoNet.contains] in H2. rewrite Ascii.eqb_refl in H2.
    rewrite orb_true_r in H2. discriminate.
  - intros [= <- He]. f_equal. now apply IH.
Qed.

Lemma dtoi_from_all (s : string) (n : Z) (i : nat) n' i' :
  GoNet.dtoi_from s n i = (n', i', true) -> i' = (i + String.length s)%nat ->
  GoNet.contains "/" s = false.
Proof.
  revert n i. induction s as [|c s IH]; intros n i; cbn [GoNet.dtoi_from GoNet.contains];
    [reflexivity |].
  destruct (GoNet.isDigit c) eqn:Hd.
  - destruct (_ >=? _); [discriminate |].
    intros Hr Hi. rewrite (digit_not_slash c Hd). cbn [orb].
    apply (IH _ _ Hr). cbn [String.length] in Hi. lia.
  - destruct (i =? 0)%nat; [discriminate |].
    intros [= _ <-]. cbn [String.length]. lia.
Qed.

Lemma length_maskBytes (l : nat) (n : Z) : List.length (GoNet.maskBytes l n) = l.
Proof.
  revert n. induction l as [|l IH]; intros n; cbn [GoNet.maskBytes]; [reflexivity |].
  destruct (n >=? 8); cbn [List.length]; now rewrite IH.
Qed.

Lemma ParseCIDR_inv (s : string) ip ipNet :
  GoNet.ParseCIDR s = Some (ip, ipNet) ->
  exists addr mask a,
    s = addr +:+ "/" +:+ mask /\ GoNet.contains "/" mask = false
    /\ GoNet.ParseAddr addr = Some a /\ ip = GoNet.As16 a
    /\ List.length (GoNet.ipnMask ipNet) = Z.to_nat (GoNet.BitLen a / 8).
Proof.
  unfold GoNet.ParseCIDR.
  destruct (GoNet.splitSlash s) as [[addr mask]|] eqn:Hs; [| discriminate].
  destruct (GoNet.ParseAddr addr) as [a|] eqn:Ha; [| discriminate].
  destruct (GoNet.dtoi mask) as [[n i] ok] eqn:Hd.
  destruct ok; cbn [negb orb]; [| discriminate].
  destruct (i =? String.length mask)%nat eqn:Hi; cbn [negb orb]; [| discriminate].
  destruct (n <? 0) eqn:Hn0; cbn [orb]; [discriminate |].
  destruct (n >? GoNet.BitLen a) eqn:Hn1; [discriminate |].
  intros [= <- <-]. exists addr, mask, a.
  apply Nat.eqb_eq in Hi.
  split; [now apply splitSlash_split |].
  split; [apply (dtoi_from_all _ _ _ _ _ Hd); cbn; exact Hi |].
  split; [exact Ha | split; [reflexivity |]].
  cbn [GoNet.ipnMask]. unfold GoNet.CIDRMask. rewrite Hn0, Hn1. cbn [orb].
  destruct a; cbn [GoNet.BitLen]; cbn; apply length_maskBytes.
Qed.

Lemma ParseAddr_scan_inv (whole s : string) (a : GoNet.Addr) :
  GoNet.ParseAddr_scan whole s = Some a ->
  match a with
  | GoNet.Addr4 b => GoNet.parseIPv4 whole = Some b
  | GoNet.Addr6 b => GoNet.parseIPv6 whole = Some b
  end.
Proof.
  induction s as [|c s IH]; cbn [GoNet.ParseAddr_scan]; [discriminate |].
  destruct (Ascii.eqb c ".").
  { destruct (GoNet.parseIPv4 whole); [| discriminate]. now intros [= <-]. }
  destruct (Ascii.eqb c ":").
  { destruct (GoNet.parseIPv6 whole); [| discriminate]. now intros [= <-]. }
  destruct (Ascii.eqb c "%"); [discriminate | exact IH].
Qed.

Lemma parseIPv4_from_length (s : string) first prevDot val digLen fields b :
  GoNet.parseIPv4_from s first prevDot val digLen fields = Some b ->
  (List.length fields <= 3)%nat -> List.length b = 4%nat.
Proof.
  revert first prevDot val digLen fields.
  induction s as [|c s IH]; intros first prevDot val digLen fields;
    cbn [GoNet.parseIPv4_from].
  - destruct (List.length fields <? 3)%nat eqn:Hl; [discriminate |].
    intros [= <-] Hle. apply Nat.ltb_ge in Hl. rewrite length_app. cbn. lia.
  - destruct (GoNet.isDigit c).
    + destruct (_ && _); [discriminate |].
      destruct (_ >? 255); [discriminate |]. apply IH.
    + destruct (Ascii.eqb c "."); [| discriminate].
      destruct (first || GoNet.isEmpty s || prevDot); [discriminate |].
      destruct (List.length fields =? 3)%nat eqn:Hl; [discriminate |].
      intros Hp Hle. apply (IH _ _ _ _ _ Hp).
      apply Nat.eqb_neq in Hl. rewrite length_app. cbn. lia.
Qed.

Lemma parseIPv4_length (s : string) b :
  GoNet.parseIPv4 s = Some b -> List.length b = 4%nat.
Proof. intros Hp. apply (parseIPv4_from_length _ _ _ _ _ _ _ Hp). cbn. lia. Qed.

Lemma parseIPv6_loop_length (fuel : nat) (s : string) ip e rest ip' e' :
  GoNet.parseIPv6_loop fuel s ip e = Some (rest, ip', e') ->
  Nat.even (List.length ip) = true -> (List.length ip <= 16)%nat ->
  (List.length ip' <= 16)%nat.
Proof.
  revert s ip e. induction fuel as [|k IH]; intros s ip e; cbn [GoNet.parseIPv6_loop].
  - destruct (16 <=? List.length ip)%nat; [| discriminate].
    now intros [= _ <- _].
  - destruct (16 <=? List.length ip)%nat eqn:H16; [now intros [= _ <- _] |].
    apply Nat.leb_gt in H16.
    destruct (GoNet.hexField s 0 0) as [[[acc off] rest0]|]; [| discriminate].
    destruct (off =? 0)%nat; [discriminate |].
    intros Hr Hev Hle.
    assert (H14 : (List.length ip <= 14)%nat).
    { destruct (Nat.even_spec (List.length ip)) as [Hsp _].
      destruct (Hsp Hev) as [h Hh]. lia. }
    assert (Hev' : forall x y, Nat.even (List.length (ip ++ [x; y])) = true).
    { intros x y. rewrite length_app. cbn [List.length].
      replace (List.length ip + 2)%nat with (S (S (List.length ip))) by lia.
      exact Hev. }
    assert (Hle' : forall x y, (List.length (ip ++ [x; y]) <= 16)%nat).
    { intros x y. rewrite length_app. cbn [List.length]. lia. }
    destruct rest0 as [|c rest1].
    + injection Hr as _ <- _. apply Hle'.
    + destruct (Ascii.eqb c ".").
      * destruct (_ && _); [discriminate |].
        destruct (16 <? List.length ip + 4)%nat eqn:H4; [discriminate |].
        apply Nat.ltb_ge in H4.
        destruct (GoNet.parseIPv4 s) as [ip4|] eqn:Hp4; [| discriminate].
        injection Hr as _ <- _. rewrite length_app, (parseIPv4_length _ _ Hp4). lia.
      * destruct (negb (Ascii.eqb c ":")); [discriminate |].
        destruct rest1 as [|c2 rest2]; [discriminate |].
        destruct (Ascii.eqb c2 ":").
        -- destruct e; [discriminate |].
           destruct (GoNet.isEmpty rest2).
           ++ injection Hr as _ <- _. apply Hle'.
           ++ apply (IH _ _ _ Hr); [apply Hev' | apply Hle'].
        -- apply (IH _ _ _ Hr); [apply Hev' | apply Hle'].
Qed.

Lemma parseIPv6_length16 (s : string) (b : list Z) :
  GoNet.parseIPv6 s = Some b -> List.length b = 16%nat.
Proof.
  unfold GoNet.parseIPv6.
  destruct (GoNet.contains "%" s); [discriminate |].
  destruct (if GoStrings.HasPrefix s "::" then _ else _) as [s0 e0].
  destruct (GoNet.isEmpty s0 && _).
  { intros [= <-]. reflexivity. }
  destruct (GoNet.parseIPv6_loop _ _ _ _) as [[[rest ip] e]|] eqn:Hl; [| discriminate].
  apply parseIPv6_loop_length in Hl; [| reflexivity | cbn; lia].
  destruct (negb _); [discriminate |].
  destruct (List.length ip <? 16)%nat eqn:Hlt.
  - destruct e as [e|]; [| discriminate]. intros [= <-].
    apply Nat.ltb_lt in Hlt.
    rewrite !length_app, repeat_length, length_firstn, length_skipn. lia.
  - destruct (GoNet.isNone e); [| discriminate]. intros [= <-].
    apply Nat.ltb_ge in Hlt. lia.
Qed.

Lemma uitoa_digit (c : ascii) :
  GoNet.isDigit c = true -> GoNet.uitoa (GoNet.code c - 48) = String c "".
Proof.
  destruct c as [[] [] [] [] [] [] [] []]; try discriminate; intros _; reflexivity.
Qed.

Lemma uitoa_step (val : Z) (c : ascii) :
  GoNet.isDigit c = true -> 0 < val <= 25 ->
  GoNet.uitoa (val * 10 + (GoNet.code c - 48)) = GoNet.uitoa val +:+ String c "".
Proof.
  intros Hd Hv.
  replace val with (Z.of_nat (Z.to_nat val)) by lia.
  assert (Hk : (0 < Z.to_nat val < 26)%nat) by lia.
  revert Hk. generalize (Z.to_nat val). intros k Hk.
  destruct k as [|k]; [lia |].
  destruct c as [[] [] [] [] [] [] [] []]; try discriminate Hd;
    do 25 (destruct k as [|k]; [vm_compute; reflexivity |]); lia.
Qed.

Lemma dotted_app (fields : list Z) (v : Z) :
  dotted (fields ++ [v]) = dotted fields +:+ GoNet.uitoa v +:+ ".".
Proof.
  induction fields as [|f fields IH]; cbn [dotted app].
  - now rewrite append_nil_r.
  - rewrite IH. now rewrite !append_assoc.
Qed.

Lemma parseIPv4_from_text (s : string) (first prevDot : bool) val digLen fields b :
  GoNet.parseIPv4_from s first prevDot val digLen fields = Some b ->
  0 <= digLen -> 0 <= val ->
  (digLen = 0 -> val = 0) -> (val = 0 -> digLen <= 1) ->
  (digLen = 0 -> first || prevDot = true) ->
  (digLen = 0 -> s <> "" \/ (List.length fields < 3)%nat) ->
  exists fs v, b = fs ++ [v]
    /\ dotted fields +:+ (if digLen =? 0 then "" else GoNet.uitoa val) +:+ s
       = dotted fs +:+ GoNet.uitoa v.
Proof.
  revert first prevDot val digLen fields.
  induction s as [|c s IH]; intros first prevDot val digLen fields;
    cbn [GoNet.parseIPv4_from]; intros Hp Hd0 Hv0 Hdv Hvd Hfp Hend.
  - destruct (List.length fields <? 3)%nat eqn:Hl; [discriminate |].
    injection Hp as <-. apply Nat.ltb_ge in Hl.
    exists fields, val. split; [reflexivity |].
    destruct (digLen =? 0) eqn:E.
    + apply Z.eqb_eq in E. destruct (Hend E) as [Hn|Hn]; [congruence | lia].
    + now rewrite append_nil_r.
  - destruct (GoNet.isDigit c) eqn:Hc.
    + destruct ((digLen =? 1) && (val =? 0)) eqn:Hz; [discriminate |].
      destruct (val * 10 + (GoNet.code c - 48) >? 255) eqn:Hbig; [discriminate |].
      assert (Hcode : 0 <= GoNet.code c - 48 <= 9).
      { unfold GoNet.isDigit in Hc. lia. }
      assert (Hz' : ~ (digLen = 1 /\ val = 0)).
      { intros [-> ->]. discriminate Hz. }
      destruct (IH _ _ _ _ _ Hp) as (fs & v & -> & Ht); try lia.
      exists fs, v. split; [reflexivity |]. rewrite <- Ht.
      replace (digLen + 1 =? 0) with false by lia.
      f_equal.
      destruct (digLen =? 0) eqn:E.
      * apply Z.eqb_eq in E. rewrite (Hdv E), Z.mul_0_l, Z.add_0_l.
        rewrite (uitoa_digit c Hc). reflexivity.
      * rewrite uitoa_step; [now rewrite append_assoc | exact Hc |].
        lia.
    + destruct (Ascii.eqb c ".") eqn:Hdot; [| discriminate].
      apply Ascii.eqb_eq in Hdot. subst c.
      destruct (first || GoNet.isEmpty s || prevDot) eqn:Hfe; [discriminate |].
      destruct (List.length fields =? 3)%nat eqn:Hl; [discriminate |].
      apply orb_false_elim in Hfe as [Hfe Hpd].
      apply orb_false_elim in Hfe as [Hf He].
      assert (Hs : s <> "") by (intros ->; discriminate He).
      destruct (IH _ _ _ _ _ Hp) as (fs & v & -> & Ht);
        try lia; try (intros _; reflexivity); try (intros _; now left).
      exists fs, v. split; [reflexivity |]. rewrite <- Ht.
      cbn [Z.eqb]. rewrite dotted_app.
      destruct (digLen =? 0) eqn:E.
      * apply Z.eqb_eq in E. specialize (Hfp E). rewrite Hf, Hpd in Hfp. discriminate.
      * rewrite !append_assoc. reflexivity.
Qed.

Lemma parseIPv4_text (s : string) (b : list Z) :
  GoNet.parseIPv4 s = Some b -> GoNet.string4 b = s.
Proof.
  intros Hp. pose proof (parseIPv4_length _ _ Hp) as Hl.
  apply parseIPv4_from_text in Hp as (fs & v & -> & Ht);
    try lia; try (intros; reflexivity); [| intros _; right; cbn; lia].
  change (s = dotted fs +:+ GoNet.uitoa v) in Ht. rewrite Ht.
  rewrite length_app in Hl. cbn [List.length] in Hl.
  destruct fs as [|b0 [|b1 [|b2 [|b3 fs]]]]; cbn [List.length] in Hl; try lia.
  unfold GoNet.string4. cbn [app nth dotted].
  now rewrite !append_assoc.
Qed.

Lemma IPString_v4 (b : list Z) :
  List.length b = 4%nat -> GoNet.IPString (GoNet.v4InV6Prefix ++ b) = GoNet.string4 b.
Proof.
  intros Hl. destruct b as [|b0 [|b1 [|b2 [|b3 [|? ?]]]]]; try discriminate Hl.
  reflexivity.
Qed.

Lemma To16_16 (x : list Z) : List.length x = 16%nat -> GoNet.To16 x = x.
Proof. intros Hl. unfold GoNet.To16. now rewrite Hl. Qed.

(** Where the suffix of an entry tells its host prefix, the
    normalization of [findDiff] is the canonical form. *)
Lemma normalizeEntry_canonical (s : string) :
  suffixMarksHost s -> normalizeEntry s = canonicalize s.
Proof.
  intros [H32 H128]. unfold normalizeEntry, canonicalize.
  unfold hostPrefix in H32, H128.
  destruct (GoNet.ParseCIDR s) as [[ip ipNet]|] eqn:Hp.
  - destruct (ParseCIDR_inv _ _ _ Hp) as (addr & mask & a & Hs & Hm & Ha & -> & Hlen).
    destruct (GoStrings.HasSuffix s "/32") eqn:E32.
    + symmetry in H32. apply andb_true_iff in H32 as [Hl4 Hff]. rewrite Hff.
      apply Nat.eqb_eq in Hl4.
      pose proof (HasSuffix_split _ _ E32) as Hsplit.
      rewrite Hs in Hsplit at 1.
      apply split_unique in Hsplit; [| exact Hm | reflexivity].
      rewrite <- Hsplit.
      unfold GoNet.ParseAddr in Ha. apply ParseAddr_scan_inv in Ha.
      destruct a as [b|b]; cbn [GoNet.BitLen] in Hlen;
        [| rewrite Hl4 in Hlen; discriminate Hlen].
      cbn [GoNet.As16]. rewrite (IPString_v4 _ (parseIPv4_length _ _ Ha)).
      symmetry. now apply parseIPv4_text.
    + destruct (GoStrings.HasSuffix s "/128") eqn:E128.
      * symmetry in H128. apply andb_true_iff in H128 as [Hl16 Hff]. rewrite Hff.
        apply Nat.eqb_eq in Hl16.
        pose proof (HasSuffix_split _ _ E128) as Hsplit.
        rewrite Hs in Hsplit at 1.
        apply split_unique in Hsplit; [| exact Hm | reflexivity].
        rewrite <- Hsplit. unfold GoNet.ParseIP. rewrite Ha.
        unfold GoNet.ParseAddr in Ha. apply ParseAddr_scan_inv in Ha.
        destruct a as [b|b]; cbn [GoNet.BitLen] in Hlen;
          [rewrite Hl16 in Hlen; discriminate Hlen |].
        cbn [GoNet.As16]. pose proof (parseIPv6_length16 _ _ Ha) as Hb.
        rewrite (To16_16 _ Hb).
        destruct b; [discriminate Hb | reflexivity].
      * assert (Hff : GoNet.allFF (GoNet.ipnMask ipNet) = false).
        { destruct (GoNet.allFF (GoNet.ipnMask ipNet)); [| reflexivity].
          rewrite andb_true_r in H32, H128.
          destruct a; cbn [GoNet.BitLen] in Hlen; rewrite Hlen in *; discriminate. }
        now rewrite Hff.
  - now rewrite H32, H128.
Qed.

Example canonicalize_ex :
  map canonicalize
      ["10.0.0.1/32"; "10.97.3.4/12"; "fd00::1/128"; "2001:db8::/32"; "10.244.0.7"]
  = ["10.0.0.1"; "10.96.0.0/12"; "fd00::1"; "2001:db8::/32"; "10.244.0.7"].
Proof. vm_compute. reflexivity. Qed.

(** C6 (amended): for every list [A] whose entries the normalization of
    [findDiff] leaves unchanged, [findDiff A A] is two empty lists; and
    for every list [A] and every list [B] whose entries end in "/32"
    exactly when they are IPv4 host prefixes and in "/128" exactly when
    they are IPv6 host prefixes, applying the result of [findDiff A B] to
    the members [A] yields exactly the canonical forms of the entries of
    [B].  Nothing is said of the other lists [B], an IPv6 network of
    prefix length 32 for one (see C5). *)
Theorem C6_findDiff_roundtrip (A B : list string) :
  (map normalizeEntry A = A -> findDiff A A = ([], []))
  /\ (Forall suffixMarksHost B ->
      applyDiff (list_to_set A) (findDiff A B) = list_to_set (map canonicalize B)).
Proof.
  split.
  - intros HA. unfold findDiff. rewrite HA. f_equal.
    + apply filter_none. intros x Hx. rewrite mapGet_boolMap.
      rewrite bool_decide_eq_true_2 by assumption. discriminate.
    + apply filter_none. intros x Hx. rewrite mapGet_boolMap.
      rewrite bool_decide_eq_true_2 by assumption. discriminate.
  - intros HB.
    assert (Hmap : map normalizeEntry B = map canonicalize B).
    { induction HB as [|b B Hb _ IH]; [reflexivity |].
      cbn [map]. now rewrite IH, (normalizeEntry_canonical b Hb). }
    rewrite <- Hmap. unfold applyDiff. apply set_eq. intros x.
    rewrite elem_of_difference, elem_of_union, !elem_of_list_to_set.
    destruct (findDiff_members A B x) as [-> ->].
    destruct (decide (x ∈ A)), (decide (x ∈ map normalizeEntry B)); tauto.
Qed.

End canonical.

Lemma C6_findDiff_roundtrip_witness :
  agent.findDiff ["10.0.0.1"; "10.96.0.0/12"] ["10.0.0.1"; "10.96.0.0/12"] = ([], [])
  /\ applyDiff (list_to_set ["10.0.0.1"; "10.96.0.0/12"])
       (agent.findDiff ["10.0.0.1"; "10.96.0.0/12"]
          ["10.0.0.1/32"; "10.97.3.4/12"; "fd00::1/128"; "10.244.0.7"])
     = list_to_set ["10.0.0.1"; "10.96.0.0/12"; "fd00::1"; "10.244.0.7"].
Proof.
  destruct (C6_findDiff_roundtrip
              ["10.0.0.1"; "10.96.0.0/12"]
              ["10.0.0.1/32"; "10.97.3.4/12"; "fd00::1/128"; "10.244.0.7"])
    as [Hsame Hround].
  split.
  - apply Hsame. vm_compute. reflexivity.
  - rewrite Hround.
    + f_equal.
    + repeat (constructor; [split; vm_compute; reflexivity |]). constructor.
Defined.


(** ** The ipset cache and the delete path *)

Section cache.

Import agent.
Context {B : Type} `{!ipset.Interface B}.

Lemma sameEnv_refl (r : policeReconciler B) : sameEnv r r.
Proof. repeat split. Qed.

Lemma sameEnv_trans (r1 r2 r3 : policeReconciler B) :
  sameEnv r1 r2 -> sameEnv r2 r3 -> sameEnv r1 r3.
Proof.
  intros (a1 & a2 & a3 & a4 & a5) (b1 & b2 & b3 & b4 & b5).
  repeat split; congruence.
Qed.

Lemma removeIPSet_absent (r : policeReconciler B) (name : string) :
  ipsetMap r !! name = None -> removeIPSet name r = r.
Proof. intros Hn. unfold removeIPSet. now rewrite Hn. Qed.

Lemma removeIPSet_cached (r : policeReconciler B) (name : string) :
  is_Some (ipsetMap r !! name) ->
  ipsetB (removeIPSet name r) = (ipset.DestroySet name (ipsetB r)).2
  /\ ipsetMap (removeIPSet name r) = delete name (ipsetMap r).
Proof.
  intros [set Hs]. unfold removeIPSet. rewrite Hs.
  destruct (ipset.DestroySet name (ipsetB r)) as [err b]. split; reflexivity.
Qed.

Lemma removeIPSet_sameEnv (r : policeReconciler B) (name : string) :
  sameEnv r (removeIPSet name r).
Proof.
  unfold removeIPSet. destruct (ipsetMap r !! name); [| apply sameEnv_refl].
  destruct (ipset.DestroySet name (ipsetB r)). repeat split.
Qed.

Lemma removeIPSet_ipsetMap (r : policeReconciler B) (name : string) :
  ipsetMap (removeIPSet name r) = delete name (ipsetMap r).
Proof.
  destruct (ipsetMap r !! name) eqn:Hn.
  - now apply removeIPSet_cached.
  - rewrite removeIPSet_absent by assumption. symmetry. now apply delete_id.
Qed.

(** C10: [removeIPSet] calls [DestroySet] of the backend, once, only when
    the name is in the [ipsetMap] cache; when the name is absent the
    reconciler, backend and cache included, is unchanged; when present the
    name is deleted from the cache whatever [DestroySet] answers; nothing
    else changes and no error comes back ([removeIPSet] returns
    nothing). *)
Theorem C10_removeIPSet (r : policeReconciler B) (name : string) :
  (ipsetMap r !! name = None -> removeIPSet name r = r)
  /\ (is_Some (ipsetMap r !! name) ->
        ipsetB (removeIPSet name r) = (ipset.DestroySet name (ipsetB r)).2
        /\ ipsetMap (removeIPSet name r) = delete name (ipsetMap r))
  /\ sameEnv r (removeIPSet name r).
Proof.
  split; [| split].
  - apply removeIPSet_absent.
  - apply removeIPSet_cached.
  - apply removeIPSet_sameEnv.
Qed.

Lemma filter_ext_in {A} (P1 P2 : A -> Prop)
      `{!forall x, Decision (P1 x), !forall x, Decision (P2 x)} (l : list A) :
  (forall x, x ∈ l -> P1 x <-> P2 x) -> filter P1 l = filter P2 l.
Proof.
  induction l as [|a l IH]; intros Hl; [reflexivity |].
  assert (Ha : P1 a <-> P2 a) by (apply Hl, elem_of_cons; now left).
  assert (Hl' : filter P1 l = filter P2 l).
  { apply IH. intros x Hx. apply Hl, elem_of_cons. now right. }
  rewrite !filter_cons, Hl'.
  destruct (decide (P1 a)), (decide (P2 a)); tauto.
Qed.

(** Removing a list of distinct names: [DestroySet] is called, in order,
    for those that are cached; all of them leave the cache. *)
Lemma removeIPSets_spec (names : list string) :
  NoDup names -> forall r : policeReconciler B,
  let r' := foldl (fun r n => removeIPSet n r) r names in
  ipsetB r' = foldl (fun b n => (ipset.DestroySet n b).2) (ipsetB r)
                    (filter (fun n => is_Some (ipsetMap r !! n)) names)
  /\ ipsetMap r' = foldl (fun m n => delete n m) (ipsetMap r) names
  /\ sameEnv r r'.
Proof.
  induction 1 as [|n names Hn Hnd IH]; intros r; cbn zeta.
  - repeat split.
  - cbn [foldl]. destruct (IH (removeIPSet n r)) as (Hb & Hm & He).
    cbn zeta in Hb, Hm, He. rewrite Hb, Hm. split; [| split].
    + rewrite filter_cons.
      assert (Hf : filter (fun n0 => is_Some (ipsetMap (removeIPSet n r) !! n0)) names
                   = filter (fun n0 => is_Some (ipsetMap r !! n0)) names).
      { apply filter_ext_in. intros m Hm'.
        rewrite removeIPSet_ipsetMap, lookup_delete_ne; [reflexivity |].
        intros ->. contradiction. }
      rewrite Hf. destruct (decide (is_Some (ipsetMap r !! n))) as [Hs|Hns].
      * cbn [foldl]. now rewrite (proj1 (removeIPSet_cached r n Hs)).
      * rewrite removeIPSet_absent; [reflexivity |].
        destruct (ipsetMap r !! n) eqn:E; [| reflexivity].
        exfalso. apply Hns. eauto.
    + now rewrite removeIPSet_ipsetMap.
    + eapply sameEnv_trans; [apply removeIPSet_sameEnv | exact He].
Qed.

Lemma lookup_foldl_delete (names : list string) (m : gmap string ipset.IPSet) (n : string) :
  foldl (fun m n => delete n m) m names !! n
  = if bool_decide (n ∈ names) then None else m !! n.
Proof.
  revert m. induction names as [|x names IH]; intros m; cbn [foldl].
  - now rewrite bool_decide_eq_false_2 by apply not_elem_of_nil.
  - rewrite IH. destruct (decide (n ∈ names)) as [Hin|Hnin].
    + rewrite !bool_decide_eq_true_2; [reflexivity | | assumption].
      apply elem_of_cons. now right.
    + rewrite (bool_decide_eq_false_2 (n ∈ names)) by assumption.
      destruct (decide (n = x)) as [->|Hne].
      * rewrite lookup_delete_eq, bool_decide_eq_true_2; [reflexivity |].
        apply elem_of_cons. now left.
      * rewrite lookup_delete_ne by congruence.
        rewrite bool_decide_eq_false_2; [reflexivity |].
        intros [?|?]%elem_of_cons; contradiction.
Qed.

(** What [reconcilePolicy] and [reconcileClusterPolicy] do on the delete
    path. *)
Lemma reconcileFetched_deleted (got : GetResult egressv1.EgressPolicy)
      (reqNamespace reqName : string) (r : policeReconciler B) :
  deletedOrAbsent got ->
  exists r',
    reconcileFetched got reqNamespace reqName r = (Returned false None, r')
    /\ sameEnv r r'
    /\ (forall n, n ∈ policySetNames reqNamespace reqName -> ipsetMap r' !! n = None)
    /\ (forall n, n ∉ policySetNames reqNamespace reqName ->
          ipsetMap r' !! n = ipsetMap r !! n)
    /\ ipsetB r'
       = foldl (fun b n => (ipset.DestroySet n b).2) (ipsetB r)
               (filter (fun n => is_Some (ipsetMap r !! n))
                       (policySetNames reqNamespace reqName)).
Proof.
  intros Hdel.
  assert (Hnd : NoDup (policySetNames reqNamespace reqName)).
  { unfold policySetNames. apply NoDup_fmap_2_strong.
    - intros p1 p2 H1 H2. now apply specSetName_inj.
    - apply (bool_decide_unpack _). vm_compute. exact I. }
  destruct (removeIPSets_spec _ Hnd r) as (Hb & Hm & He). cbn zeta in Hb, Hm, He.
  exists (foldl (fun r n => removeIPSet n r) r (policySetNames reqNamespace reqName)).
  split; [| split; [exact He | split; [| split; [| exact Hb]]]].
  - unfold reconcileFetched.
    assert (Hd : match got with
                 | Found policy => negb (egressv1.DeletionTimestampIsZero policy)
                 | _ => true
                 end = true).
    { destruct Hdel as [-> | (policy & -> & ->)]; reflexivity. }
    rewrite Hd, buildIPSetNamesByPolicy_spec.
    destruct Hdel as [-> | (policy & -> & _)]; reflexivity.
  - intros n Hn. rewrite Hm, lookup_foldl_delete.
    now rewrite bool_decide_eq_true_2.
  - intros n Hn. rewrite Hm, lookup_foldl_delete.
    now rewrite bool_decide_eq_false_2.
Qed.

(** C3 (amended): when the policy object is absent or carries a deletion
    timestamp, the policy reconcile returns success whatever the backend
    answers; it calls [DestroySet], in order, for those of the four set
    names of the policy that are in the [ipsetMap] cache, and no other
    backend method; afterwards none of the four names is in the cache and
    the rest of the cache is as before; the tables and their chains are
    left as they are. *)
Theorem C3_delete_path (reqNamespace reqName : string) (r : policeReconciler B) :
  deletedOrAbsent (GetEgressPolicy (client r) reqNamespace reqName) ->
  exists r',
    reconcilePolicy reqNamespace reqName r = (Returned false None, r')
    /\ sameEnv r r'
    /\ (forall n, n ∈ policySetNames reqNamespace reqName -> ipsetMap r' !! n = None)
    /\ (forall n, n ∉ policySetNames reqNamespace reqName ->
          ipsetMap r' !! n = ipsetMap r !! n)
    /\ ipsetB r'
       = foldl (fun b n => (ipset.DestroySet n b).2) (ipsetB r)
               (filter (fun n => is_Some (ipsetMap r !! n))
                       (policySetNames reqNamespace reqName)).
Proof. apply reconcileFetched_deleted. Qed.

End cache.

(** C10 at work: the name is cached but the kernel has no such set;
    [DestroySet] fails and the name leaves the cache all the same. *)
Lemma C10_removeIPSet_witness :
  let r := agent.mkReconciler scenario.noGateway scenario.cfgA
             {[ "egress-src-v4-x" := ipset.mkIPSet "egress-src-v4-x" ipset.HashNet "inet" "" ]}
             (∅ : ipset.kernel) [] [] [] in
  (ipset.DestroySet "egress-src-v4-x" (agent.ipsetB r)).1 = Some ipset.errNotExist
  /\ agent.ipsetMap (agent.removeIPSet "egress-src-v4-x" r) = ∅
  /\ agent.removeIPSet "egress-dst-v4-x" r = r.
Proof.
  cbn zeta. split; [reflexivity | split].
  - match goal with |- agent.ipsetMap (agent.removeIPSet ?n ?r) = _ =>
      rewrite (proj2 (proj1 (proj2 (C10_removeIPSet r n)) ltac:(vm_compute; eauto)))
    end.
    vm_compute. reflexivity.
  - match goal with |- agent.removeIPSet ?n ?r = _ =>
      apply (proj1 (C10_removeIPSet r n))
    end.
    vm_compute. reflexivity.
Defined.

(** The calls [removeIPSet] makes, read off the recording backend. *)
Lemma removeIPSet_trace (r : agent.policeReconciler recorder.state) (name : string) :
  recorder.trace (agent.ipsetB (agent.removeIPSet name r))
  = recorder.trace (agent.ipsetB r)
    ++ match agent.ipsetMap r !! name with
       | Some _ => [recorder.cDestroySet name]
       | None => []
       end.
Proof.
  unfold agent.removeIPSet. destruct (agent.ipsetMap r !! name); cbn.
  - reflexivity.
  - now rewrite app_nil_r.
Qed.

(** C3, as stated, fails: after a full rebuild that gave the policy
    ns1/app its mark rule, the policy object disappears; the policy
    reconcile succeeds and destroys the sets, but the rule of the policy
    is still in the chain EGRESSGATEWAY-MARK-REQUEST. *)
Lemma C3_counterexample :
  let r := withAPI (scenario.apiServer "nodeB" ["10.6.1.92/32"] false)
                               scenario.rebuiltRemote in
  let r' := (agent.reconcilePolicy "ns1" "app" r).2 in
  GetEgressPolicy (agent.client r) "ns1" "app" = NotFound
  /\ (agent.reconcilePolicy "ns1" "app" r).1 = agent.Returned false None
  /\ agent.ipsetB r' = ∅
  /\ map (fun t => committedChain t "EGRESSGATEWAY-MARK-REQUEST") (agent.mangleTables r')
     = [Some [scenario.appMarkRule]].
Proof. vm_compute. repeat split. Qed.

Lemma C3_delete_path_witness :
  let r := withAPI (scenario.apiServer "nodeB" ["10.6.1.92/32"] false)
                               scenario.rebuiltRemote in
  exists r',
    agent.reconcilePolicy "ns1" "app" r = (agent.Returned false None, r')
    /\ agent.mangleTables r' = agent.mangleTables r
    /\ agent.ipsetMap r' !! "egress-src-v4-d8934174b5b16becd" = None.
Proof.
  cbn zeta.
  destruct (C3_delete_path "ns1" "app"
              (withAPI (scenario.apiServer "nodeB" ["10.6.1.92/32"] false)
                                   scenario.rebuiltRemote))
    as (r' & Hr & He & Hn & _).
  - left. vm_compute. reflexivity.
  - exists r'. split; [exact Hr | split].
    + apply He.
    + apply Hn. vm_compute. apply elem_of_cons. now left.
Defined.


(** ** The cluster-info reconciler *)

Section clusterInfo.

Import agent.
Context {B : Type} `{!ipset.Interface B}.

Lemma elem_of_insertSorted (x y : string) (l : list string) :
  y ∈ insertSorted x l <-> y = x \/ y ∈ l.
Proof.
  induction l as [|z l IH]; cbn [insertSorted].
  - rewrite list_elem_of_singleton, elem_of_nil. tauto.
  - destruct (String.leb x z).
    + rewrite elem_of_cons. tauto.
    + rewrite !elem_of_cons, IH. tauto.
Qed.

Lemma elem_of_sortStrings (y : string) (l : list string) :
  y ∈ sortStrings l <-> y ∈ l.
Proof.
  induction l as [|x l IH]; cbn [sortStrings foldr]; [reflexivity |].
  fold (sortStrings l). rewrite elem_of_insertSorted, IH, elem_of_cons. tauto.
Qed.

Lemma elem_of_setList (y : string) (s : gset string) : y ∈ setList s <-> y ∈ s.
Proof. unfold setList. now rewrite elem_of_sortStrings, elem_of_elements. Qed.

Lemma fold_delete_present (got : gset string) (keys : list string) (exp : gset string) :
  foldl (fun exp key => if bool_decide (key ∈ exp) then exp ∖ {[key]} else exp) exp keys
  = exp ∖ list_to_set keys.
Proof.
  revert exp. induction keys as [|k keys IH]; intros exp; cbn [foldl].
  - set_solver.
  - rewrite IH. destruct (decide (k ∈ exp)) as [Hin|Hnin].
    + rewrite bool_decide_eq_true_2 by assumption. set_solver.
    + rewrite bool_decide_eq_false_2 by assumption. set_solver.
Qed.

Lemma fold_delete_absent (got : gset string) (keys : list string) (exp : gset string) :
  (forall k, k ∈ keys -> k ∉ got) ->
  foldl (fun exp key => if bool_decide (key ∈ got) then exp ∖ {[key]} else exp) exp keys
  = exp.
Proof.
  revert exp. induction keys as [|k keys IH]; intros exp Hk; cbn [foldl]; [reflexivity |].
  rewrite bool_decide_eq_false_2 by (apply Hk, elem_of_cons; now left).
  apply IH. intros k' Hk'. apply Hk, elem_of_cons. now right.
Qed.

(** What the closure [process] does: it adds the expected members the set
    does not have, then deletes every member the set has, wanted or not
    (the two loops that are meant to trim the sets only ever delete from
    [exp]; [got] is never reduced). *)
Lemma process_calls (gotList expList : list string)
      (toAdd toDel : string -> B -> option error * B) (b : B) :
  process gotList expList toAdd toDel b
  = match eachKey (setList (list_to_set expList ∖ list_to_set gotList)) toAdd b with
    | (Some err, b') => (Some err, b')
    | (None, b') => eachKey (setList (list_to_set gotList)) toDel b'
    end.
Proof.
  unfold process.
  rewrite (fold_delete_present (list_to_set gotList)).
  assert (Hs : (list_to_set (setList (list_to_set gotList)) : gset string)
               = list_to_set gotList).
  { apply set_eq. intros x. now rewrite elem_of_list_to_set, elem_of_setList. }
  rewrite Hs.
  rewrite fold_delete_absent; [reflexivity |].
  intros k Hk. apply elem_of_setList in Hk. set_solver.
Qed.

End clusterInfo.

(** C2: the set egress-cluster-cidr-ipv4 holds exactly the pod CIDR that
    the cluster info reports, so want = have and nothing is to be added
    or removed; the reconciler succeeds after deleting that member: the
    only entry call it makes is [DelEntry], and the set ends empty. *)
Theorem C2_reconcileClusterInfo_deletes_wanted_member :
  (ipset.ListEntries agent.EgressClusterCIDRIPv4 (agent.ipsetB scenario.converged)).1
  = ["10.244.0.0/16"]
  /\ (forall info, GetEgressClusterInfo scenario.infoServer "" "default" = Found info ->
        agent.clusterCIDRs info (config.Custom scenario.cfgA)
        = (["10.244.0.0/16"], []))
  /\ (agent.reconcileClusterInfo "" "default" scenario.converged).1
     = agent.Returned false None
  /\ ipset.ListEntries agent.EgressClusterCIDRIPv4
       (agent.ipsetB (agent.reconcileClusterInfo "" "default" scenario.converged).2)
     = ([], None)
  /\ recorder.trace
       (agent.ipsetB (agent.reconcileClusterInfo "" "default" scenario.convergedRecorded).2)
     = [ recorder.cCreateSet
           (ipset.mkIPSet agent.EgressClusterCIDRIPv4 ipset.HashNet "inet" "") true;
         recorder.cCreateSet
           (ipset.mkIPSet agent.EgressClusterCIDRIPv6 ipset.HashNet "inet6" "") true;
         recorder.cDelEntry "10.244.0.0/16" agent.EgressClusterCIDRIPv4 ].
Proof.
  split; [vm_compute; reflexivity |].
  split; [intros info [= <-]; vm_compute; reflexivity |].
  vm_compute. repeat split.
Qed.

(** ** The full rebuild *)

Section rebuild.

Import agent.
Context {B : Type} `{!ipset.Interface B}.

Lemma bind_ok {A C} (m : M B A) (k : A -> M B C) r c r' :
  bind m k r = (Ok c, r') ->
  exists a r1, m r = (Ok a, r1) /\ k a r1 = (Ok c, r').
Proof.
  unfold bind. destruct (m r) as [[a|e|] r1]; try discriminate. eauto.
Qed.

Lemma preserves_ret {A} (a : A) : preservesEnv (ret a : M B A).
Proof. intros r res r' [= _ <-]. apply sameEnv_refl. Qed.

Lemma preserves_lift {A} (x : result A) : preservesEnv (lift x : M B A).
Proof. intros r res r' [= _ <-]. apply sameEnv_refl. Qed.

Lemma preserves_must {A} (x : option A) : preservesEnv (must x : M B A).
Proof. intros r res r' [= _ <-]. apply sameEnv_refl. Qed.

Lemma preserves_read {A} (f : policeReconciler B -> result A) :
  preservesEnv ((fun r => (f r, r)) : M B A).
Proof. intros r res r' [= _ <-]. apply sameEnv_refl. Qed.

Lemma preserves_bind {A C} (m : M B A) (k : A -> M B C) :
  preservesEnv m -> (forall a, preservesEnv (k a)) -> preservesEnv (bind m k).
Proof.
  intros Hm Hk r res r'. unfold bind.
  destruct (m r) as [[a|e|] r1] eqn:E.
  - intros Hka. eapply sameEnv_trans; [eapply Hm, E | eapply Hk, Hka].
  - intros [= _ <-]. eapply Hm, E.
  - intros [= _ <-]. eapply Hm, E.
Qed.

Lemma preserves_forEach {A} (l : list A) (f : A -> M B unit) :
  (forall x, preservesEnv (f x)) -> preservesEnv (forEach l f).
Proof.
  intros Hf. induction l as [|x l IH]; cbn [forEach].
  - apply preserves_ret.
  - apply preserves_bind; [apply Hf | intros _; exact IH].
Qed.

Lemma set_ipsetB_sameEnv (b : B) (r : policeReconciler B) : sameEnv r (set_ipsetB b r).
Proof. repeat split. Qed.

Lemma set_ipsetMap_sameEnv m (r : policeReconciler B) : sameEnv r (set_ipsetMap m r).
Proof. repeat split. Qed.

Lemma preserves_createIPSet (set : SetName) : preservesEnv (createIPSet set).
Proof.
  intros r res r'. unfold createIPSet.
  destruct (ipsetMap r !! Name set); [intros [= _ <-]; apply sameEnv_refl |].
  destruct (_ && _); [intros [= _ <-]; apply sameEnv_refl |].
  destruct (_ && _); [intros [= _ <-]; apply sameEnv_refl |].
  destruct (ipset.CreateSet _ _ _) as [[err|] b]; intros [= _ <-].
  - apply set_ipsetB_sameEnv.
  - eapply sameEnv_trans; [apply set_ipsetB_sameEnv | apply set_ipsetMap_sameEnv].
Qed.

Lemma preserves_addEntries (set : string) (ips : list string) :
  preservesEnv (addEntries set ips).
Proof.
  intros r res r'. unfold addEntries.
  destruct (ipsetMap r !! set) as [ipSet|]; [| intros [= _ <-]; apply sameEnv_refl].
  apply preserves_forEach. intros ip r0 res0 r0'.
  destruct (ipset.AddEntry _ _ _ _) as [[err|] b].
  - destruct (bool_decide _); intros [= _ <-]; apply set_ipsetB_sameEnv.
  - intros [= _ <-]; apply set_ipsetB_sameEnv.
Qed.

Lemma preserves_delEntries (name : string) (ips : list string) :
  preservesEnv (delEntries name ips).
Proof.
  apply preserves_forEach. intros ip r0 res0 r0'.
  destruct (ipset.DelEntry _ _ _) as [[err|] b]; intros [= _ <-];
    apply set_ipsetB_sameEnv.
Qed.

Lemma preserves_updatePolicyIPSet ns name isEip dest :
  preservesEnv (updatePolicyIPSet ns name isEip dest).
Proof.
  intros r res r'. unfold updatePolicyIPSet.
  apply preserves_bind; [apply preserves_lift | intros srcs].
  apply preserves_bind; [apply preserves_lift | intros dsts].
  apply preserves_bind; [apply preserves_must | intros setNames].
  apply preserves_bind;
    [apply preserves_forEach; intros; apply preserves_createIPSet | intros _].
  apply preserves_bind; [apply preserves_read | intros lists].
  apply preserves_bind.
  - apply preserves_forEach. intros [set ips]. apply preserves_addEntries.
  - intros _. apply preserves_forEach. intros [n ips]. apply preserves_delEntries.
Qed.

Lemma fetchDestSubnet_client (policy : egressv1.Policy) (r1 r2 : policeReconciler B) :
  client r1 = client r2 -> fetchDestSubnet policy r1 = fetchDestSubnet policy r2.
Proof. intros Hc. unfold fetchDestSubnet. now rewrite Hc. Qed.

Lemma withDestSubnet_client (r1 r2 : policeReconciler B) l :
  client r1 = client r2 -> withDestSubnet r1 l = withDestSubnet r2 l.
Proof.
  intros Hc. unfold withDestSubnet. apply map_ext. intros [policy val].
  now rewrite (fetchDestSubnet_client policy r1 r2 Hc).
Qed.

Lemma preserves_refreshPolicies isEip l : preservesEnv (refreshPolicies isEip l).
Proof.
  induction l as [|[policy val] l IH]; cbn [refreshPolicies].
  - apply preserves_ret.
  - apply preserves_bind; [apply preserves_read | intros dest].
    apply preserves_bind; [apply preserves_updatePolicyIPSet | intros _].
    apply preserves_bind; [exact IH | intros rest'; apply preserves_ret].
Qed.

(** When the loop over one of the two maps succeeds, every policy of the
    map has been fetched and carries its destinations. *)
Lemma refreshPolicies_ok isEip l (r : policeReconciler B) l' r' :
  refreshPolicies isEip l r = (Ok l', r') ->
  l' = withDestSubnet r l
  /\ Forall (fun pv => exists d, fetchDestSubnet pv.1 r = Ok d) l.
Proof.
  revert r l' r'. induction l as [|[policy val] l IH]; intros r l' r';
    cbn [refreshPolicies].
  - intros [= <- _]. split; [reflexivity | constructor].
  - intros Hb.
    apply bind_ok in Hb as (dest & r1 & Hd & Hb). injection Hd as Hd <-.
    apply bind_ok in Hb as ([] & r2 & Hu & Hb).
    apply bind_ok in Hb as (rest' & r3 & Hr & Hb). injection Hb as <- _.
    apply preserves_updatePolicyIPSet in Hu as (Hc & _).
    apply IH in Hr as (-> & HF). split.
    + cbn [withDestSubnet map]. rewrite Hd.
      f_equal. apply withDestSubnet_client. exact Hc.
    + constructor; [cbn; eauto |].
      eapply Forall_impl; [exact HF |]. intros [p v] (d & Hp). exists d.
      rewrite <- Hp. apply fetchDestSubnet_client. now symmetry.
Qed.

Lemma Ok_inj {A} (a b : A) : Ok a = Ok b -> a = b.
Proof. now intros [= ->]. Qed.

Lemma mapTables_total (f : iptables.Table -> iptables.Table) ts :
  mapTables (fun t => Ok (f t)) ts = (Ok tt, map f ts).
Proof.
  induction ts as [|t ts IH]; cbn [mapTables map]; [reflexivity |].
  now rewrite IH.
Qed.


Lemma mapTables_ok body ts ts' :
  mapTables body ts = (Ok tt, ts') ->
  Forall2 (fun t t' => body t = Ok t') ts ts'.
Proof.
  revert ts'. induction ts as [|t ts IH]; intros ts'; cbn [mapTables].
  - intros [= <-]. constructor.
  - destruct (body t) as [t1|e|] eqn:Hb; try discriminate.
    destruct (mapTables body ts) as [res1 rest'] eqn:Hm. intros [= -> <-].
    constructor; [exact Hb | now apply IH].
Qed.

Lemma collectRules_ok {A} (body : A -> result (option iptables.Rule))
      (l : list A) (rules0 rules : list iptables.Rule) :
  collectRules body l rules0 = Ok rules ->
  rules = rules0 ++ omap (ruleOf body) l
  /\ Forall (fun x => exists o, body x = Ok o) l.
Proof.
  revert rules0. induction l as [|x l IH]; intros rules0; cbn [collectRules].
  - intros [= <-]. split; [now rewrite app_nil_r | constructor].
  - cbn [omap list_omap]. unfold ruleOf at 1.
    destruct (body x) as [[rule|]|e|] eqn:Hb; try discriminate.
    + intros Hc. apply IH in Hc as (-> & HF). split.
      * now rewrite <- app_assoc.
      * constructor; eauto.
    + intros Hc. apply IH in Hc as (-> & HF). split; [reflexivity |].
      constructor; eauto.
Qed.

Lemma collectRules_ext {A} (body1 body2 : A -> result (option iptables.Rule)) l rules0 :
  (forall x, body1 x = body2 x) ->
  collectRules body1 l rules0 = collectRules body2 l rules0.
Proof.
  intros He. revert rules0. induction l as [|x l IH]; intros rules0;
    cbn [collectRules]; [reflexivity |].
  rewrite He. destruct (body2 x) as [[rule|]|e|]; auto.
Qed.

Lemma markRule_client version (r1 r2 : policeReconciler B) pv :
  client r1 = client r2 -> markRule version r1 pv = markRule version r2 pv.
Proof. intros Hc. unfold markRule. destruct pv. now rewrite Hc. Qed.

Lemma applyTable_ok t t' : applyTable t = Ok t' -> t' = commit t.
Proof.
  unfold applyTable, iptables.Apply, commit.
  destruct (iptables.applyErr t); [discriminate |]. now intros [= <-].
Qed.

Lemma IPVersion_insertStatic m t :
  iptables.IPVersion (insertStatic m t) = iptables.IPVersion t.
Proof.
  unfold insertStatic. generalize (map_to_list m). intros l. revert t.
  induction l as [|[chain rules] l IH]; intros t; cbn [foldl]; [reflexivity |].
  now rewrite IH.
Qed.

Lemma Forall2_compose {X Y Z : Type} (R : X -> Y -> Prop) (S : Y -> Z -> Prop) l1 l2 l3 :
  Forall2 R l1 l2 -> Forall2 S l2 l3 ->
  Forall2 (fun a c => exists b, R a b /\ S b c) l1 l3.
Proof.
  intros H1. revert l3. induction H1 as [|a b l1 l2 Hab _ IH]; intros l3 H2.
  - inversion H2. constructor.
  - inversion H2 as [|? c ? l3' Hbc H2']; subst. constructor; eauto.
Qed.

(** The state after a successful full rebuild that found a gateway. *)
Lemma initApplyPolicy_ok (r r' : policeReconciler B) gateways :
  ListEgressGateways (client r) = Ok gateways -> gateways <> [] ->
  initApplyPolicy r = (Ok tt, r') ->
  let pp := partitionPolicies (config.NodeName (cfg r)) gateways in
  let unSnat := withDestSubnet r (map_to_list pp.1) in
  let snat := withDestSubnet r (map_to_list pp.2) in
  exists baseMark,
    parseMark (config.Mark (cfg r)) = Ok baseMark
    /\ client r' = client r /\ cfg r' = cfg r
    /\ Forall (fun pv => exists d, fetchDestSubnet pv.1 r = Ok d) (map_to_list pp.1)
    /\ Forall (fun pv => exists d, fetchDestSubnet pv.1 r = Ok d) (map_to_list pp.2)
    /\ Forall2 (fun t t' => t' = filterRebuilt baseMark t)
               (filterTables r) (filterTables r')
    /\ Forall2 (fun t t' => exists rules,
                   collectRules (markRule (iptables.IPVersion t) r) unSnat [] = Ok rules
                   /\ t' = mangleRebuilt baseMark rules t)
               (mangleTables r) (mangleTables r')
    /\ Forall2 (fun t t' => exists rules,
                   collectRules (snatRule (iptables.IPVersion t)) snat [] = Ok rules
                   /\ t' = natRebuilt baseMark rules t)
               (natTables r) (natTables r').
Proof.
  intros Hg Hne Hrun. cbn zeta.
  unfold initApplyPolicy in Hrun. rewrite Hg in Hrun.
  destruct gateways as [|g0 gateways0]; [contradiction |].
  cbn [List.length Nat.eqb] in Hrun. clear Hne.
  set (gateways := g0 :: gateways0) in *.
  destruct (partitionPolicies (config.NodeName (cfg r)) gateways)
    as [unSnatPolicies snatPolicies] eqn:Hpp.
  cbn [fst snd].
  apply bind_ok in Hrun as (unSnat & r1 & Hun & Hrun).
  apply bind_ok in Hrun as (snat & r2 & Hsn & Hrun).
  apply bind_ok in Hrun as (baseMark & r3 & Hbm & Hrun). injection Hbm as Hbm <-.
  pose proof (preserves_refreshPolicies _ _ _ _ _ Hun) as (Hc1 & Hf1 & Hm1 & Hfi1 & Hn1).
  pose proof (preserves_refreshPolicies _ _ _ _ _ Hsn) as (Hc2 & Hf2 & Hm2 & Hfi2 & Hn2).
  apply refreshPolicies_ok in Hun as (-> & HFun).
  apply refreshPolicies_ok in Hsn as (-> & HFsn).
  rewrite (withDestSubnet_client r1 r) in * by exact Hc1.
  apply bind_ok in Hrun as ([] & r4 & H4 & Hrun).
  apply bind_ok in Hrun as ([] & r5 & H5 & Hrun).
  apply bind_ok in Hrun as ([] & r6 & H6 & Hrun).
  apply bind_ok in Hrun as ([] & r7 & H7 & Hrun).
  apply bind_ok in Hrun as ([] & r8 & H8 & Hrun).
  apply bind_ok in Hrun as ([] & r9 & H9 & H10).
  unfold onFilterTables in H4, H9. unfold onMangleTables in H5, H6, H10.
  unfold onNatTables in H7, H8.
  rewrite mapTables_total in H4, H5.
  injection H4 as <-. injection H5 as <-.
  cbn [mangleTables filterTables natTables client cfg
       set_filterTables set_mangleTables set_natTables] in *.
  destruct (mapTables _ (map _ (mangleTables r2))) as [res6 ts6] eqn:E6.
  injection H6 as -> <-.
  cbn [mangleTables filterTables natTables client cfg
       set_filterTables set_mangleTables set_natTables] in *.
  destruct (mapTables _ (natTables r2)) as [res7 ts7] eqn:E7.
  injection H7 as -> <-.
  cbn [mangleTables filterTables natTables client cfg
       set_filterTables set_mangleTables set_natTables] in *.
  destruct (mapTables applyTable ts7) as [res8 ts8] eqn:E8.
  injection H8 as -> <-.
  cbn [mangleTables filterTables natTables client cfg
       set_filterTables set_mangleTables set_natTables] in *.
  destruct (mapTables applyTable (map _ (filterTables r2))) as [res9 ts9] eqn:E9.
  injection H9 as -> <-.
  cbn [mangleTables filterTables natTables client cfg
       set_filterTables set_mangleTables set_natTables] in *.
  destruct (mapTables applyTable ts6) as [res10 ts10] eqn:E10.
  injection H10 as -> <-.
  cbn [mangleTables filterTables natTables client cfg
       set_filterTables set_mangleTables set_natTables] in *.
  apply mapTables_ok in E6, E7, E8, E9, E10.
  exists baseMark. rewrite Hc2, Hc1.
  assert (Hcfg : cfg r2 = cfg r) by congruence.
  rewrite Hcfg in *. rewrite Hm2, Hm1, Hfi2, Hfi1, Hn2, Hn1 in *.
  split; [exact Hbm |]. split; [reflexivity |]. split; [reflexivity |].
  split; [exact HFun |]. split.
  { eapply Forall_impl; [exact HFsn |]. intros [p v] (d & Hp). exists d.
    rewrite <- Hp. apply fetchDestSubnet_client. now symmetry. }
  split; [| split].
  - apply Forall2_fmap_l in E9. eapply Forall2_impl; [exact E9 |].
    intros t t' Ha. now apply applyTable_ok in Ha.
  - apply Forall2_fmap_l in E6.
    pose proof (Forall2_compose _ _ _ _ _ E6 E10) as Hc.
    eapply Forall2_impl; [exact Hc |].
    intros t t' (t1 & Hb & Ha). apply applyTable_ok in Ha.
    unfold compose in Hb. cbn beta in Hb.
    rewrite IPVersion_insertStatic in Hb. cbn [iptables.IPVersion iptables.UpdateChain] in Hb.
    erewrite collectRules_ext in Hb
      by (intros x; apply (markRule_client _ _ r);
          cbn [client set_mangleTables set_filterTables]; congruence).
    revert Hb.
    destruct (collectRules _ _ _) as [rules|e|]; intros Hb;
      [| discriminate Hb | discriminate Hb].
    apply Ok_inj in Hb. subst t1. exists rules. split; [reflexivity | exact Ha].
  - pose proof (Forall2_compose _ _ _ _ _ E7 E8) as Hc.
    eapply Forall2_impl; [exact Hc |].
    intros t t' (t1 & Hb & Ha). apply applyTable_ok in Ha.
    cbn beta in Hb. revert Hb.
    destruct (collectRules _ _ _) as [rules|e|]; intros Hb;
      [| discriminate Hb | discriminate Hb].
    apply Ok_inj in Hb. subst t1. exists rules. split; [reflexivity | exact Ha].
Qed.

(** *** Static rules *)






Lemma chains_insertStatic (m : gmap string (list iptables.Rule)) (t : iptables.Table) :
  iptables.chains (insertStatic m t) = iptables.chains t.
Proof.
  unfold insertStatic. generalize (map_to_list m). intros l. revert t.
  induction l as [|[chain rules] l IH]; intros t; cbn [foldl]; [reflexivity |].
  now rewrite IH.
Qed.






















End rebuild.


Lemma rebuiltLocal_run :
  agent.initApplyPolicy (scenario.fresh (scenario.apiServer "nodeA" ["10.6.1.92/32"] true))
  = (Ok tt, scenario.rebuiltLocal).
Proof.
  unfold scenario.rebuiltLocal.
  rewrite (surjective_pairing (agent.initApplyPolicy _)) at 1.
  f_equal; try (vm_compute; reflexivity).
Qed.

Lemma rebuiltRemote_run :
  agent.initApplyPolicy (scenario.fresh (scenario.apiServer "nodeB" ["10.6.1.92/32"] true))
  = (Ok tt, scenario.rebuiltRemote).
Proof.
  unfold scenario.rebuiltRemote.
  rewrite (surjective_pairing (agent.initApplyPolicy _)) at 1.
  f_equal; try (vm_compute; reflexivity).
Qed.


(** ** The rules of the policies *)

Section rules.

Import agent.
Context {B : Type} `{!ipset.Interface B}.

Lemma foldl_ext_eq {X Y} (f g : X -> Y -> X) (l : list Y) :
  (forall a y, f a y = g a y) -> forall a, foldl f a l = foldl g a l.
Proof.
  intros He. induction l as [|y l IH]; intros a; cbn [foldl]; [reflexivity |].
  now rewrite He, IH.
Qed.

Lemma formatIPSetName_family (kind : string) (version : Z) (key : string) :
  kind = "egress-src-" \/ kind = "egress-dst-" ->
  formatIPSetName (kind +:+ (if version =? 6 then "v6-" else "v4-")) key
  = Some (specSetName (kind +:+ (if version =? 6 then "v6-" else "v4-")) key).
Proof.
  intros [-> | ->]; destruct (version =? 6);
    apply formatIPSetName_14; reflexivity.
Qed.

(** [buildPolicyRule] never panics; its rule has the match of the
    specification and sets the mark with a full mask. *)
Lemma buildPolicyRule_spec (policyName : string) (mark version : Z) (destSubnet : list string) :
  buildPolicyRule policyName mark version (List.length destSubnet <=? 0)%nat
  = Ok (iptables.mkRule (specMatch version policyName destSubnet)
                        (iptables.SetMaskedMarkAction mark 0xffffffff) []).
Proof.
  unfold buildPolicyRule.
  rewrite !formatIPSetName_family by auto.
  unfold specMatch. destruct destSubnet; reflexivity.
Qed.

(** [buildEipRule] never panics; it builds no rule exactly when both
    addresses of the EIP are empty, and otherwise a rule with the match of
    the specification that source-NATs to the address of the family of the
    table. *)
Lemma buildEipRule_spec (policyName : string) (eip : IP) (version : Z)
      (destSubnet : list string) :
  buildEipRule policyName eip version (List.length destSubnet <=? 0)%nat
  = if bool_decide (V4 eip = "") && bool_decide (V6 eip = "") then Ok None
    else Ok (Some (iptables.mkRule (specMatch version policyName destSubnet)
                     (iptables.SNATAction (if version =? 6 then V6 eip else V4 eip)) [])).
Proof.
  unfold buildEipRule. destruct (_ && _); [reflexivity |].
  rewrite !formatIPSetName_family by auto.
  unfold specMatch. destruct destSubnet; reflexivity.
Qed.

Lemma markRule_spec (version : Z) (r : policeReconciler B)
      (policy : egressv1.Policy) (val : PolicyCommon) :
  markRule version r (policy, val)
  = match GetEgressNode (client r) (NodeName val) with
    | Found node =>
        match parseMark (egressv1.Mark node) with
        | Ok mark =>
            Ok (Some (iptables.mkRule
                        (specMatch version (policyKey policy) (DestSubnet val))
                        (iptables.SetMaskedMarkAction mark 0xffffffff) []))
        | Err e => Err e
        | Panic => Panic
        end
    | _ => Ok None
    end.
Proof.
  unfold markRule. destruct (GetEgressNode _ _); try reflexivity.
  destruct (parseMark _); try reflexivity.
  now rewrite buildPolicyRule_spec.
Qed.

Lemma snatRule_spec (version : Z) (policy : egressv1.Policy) (val : PolicyCommon) :
  snatRule version (policy, val)
  = if bool_decide (V4 (PolicyIP val) = "") && bool_decide (V6 (PolicyIP val) = "")
    then Ok None
    else Ok (Some (iptables.mkRule
                     (specMatch version (policyKey policy) (DestSubnet val))
                     (iptables.SNATAction
                        (if version =? 6 then V6 (PolicyIP val) else V4 (PolicyIP val)))
                     [])).
Proof. unfold snatRule. apply buildEipRule_spec. Qed.

Lemma foldl_bind {X Y Z0 : Type} (f : X -> Y -> X) (g : Z0 -> list Y) (l : list Z0) (a : X) :
  foldl f a (l ≫= g) = foldl (fun a x => foldl f a (g x)) a l.
Proof.
  revert a. induction l as [|x l IH]; intros a; [reflexivity |].
  cbn [mbind list_bind foldl]. now rewrite foldl_app, IH.
Qed.

(** The nested loops of [initApplyPolicy] are one loop over the
    listings. *)
Lemma partitionPolicies_flat (nodeName : string) (gateways : list egressv1.EgressGateway) :
  partitionPolicies nodeName gateways
  = foldl (partitionStep nodeName) (∅, ∅) (listings gateways).
Proof.
  unfold partitionPolicies, listings.
  rewrite foldl_bind. apply foldl_ext_eq. intros acc item.
  rewrite foldl_bind. apply foldl_ext_eq. intros acc1 node.
  rewrite foldl_bind. apply foldl_ext_eq. intros acc2 eip.
  rewrite foldl_bind. apply foldl_ext_eq. intros [un sn] policy.
  cbn [foldl fst snd]. reflexivity.
Qed.

Lemma listedOn_listings (P : string -> Prop) (gateways : list egressv1.EgressGateway)
      (p : egressv1.Policy) :
  listedOn P gateways p
  <-> exists node eip, (node, eip, p) ∈ listings gateways /\ P (egressv1.NodeName node).
Proof.
  unfold listedOn, listings. split.
  - intros (item & node & eip & Hi & Hn & He & Hp & HP).
    exists node, eip. split; [| exact HP].
    apply list_elem_of_bind. exists item. split; [| exact Hi].
    apply list_elem_of_bind. exists node. split; [| exact Hn].
    apply list_elem_of_bind. exists eip. split; [| exact He].
    apply list_elem_of_bind. exists p. split; [| exact Hp].
    apply list_elem_of_singleton. reflexivity.
  - intros (node & eip & Hin & HP).
    apply list_elem_of_bind in Hin as (item & Hin & Hi).
    apply list_elem_of_bind in Hin as (node' & Hin & Hn).
    apply list_elem_of_bind in Hin as (eip' & Hin & He).
    apply list_elem_of_bind in Hin as (p' & Hin & Hp).
    apply list_elem_of_singleton in Hin. injection Hin as -> -> ->.
    exists item, node', eip'. auto.
Qed.

Lemma partition_fold_dom (nodeName : string)
      (l : list (egressv1.EgressIPStatus * egressv1.Eips * egressv1.Policy))
      (acc : gmap egressv1.Policy PolicyCommon * gmap egressv1.Policy PolicyCommon)
      (p : egressv1.Policy) :
  (is_Some ((foldl (partitionStep nodeName) acc l).1 !! p)
   <-> is_Some (acc.1 !! p)
       \/ exists node eip, (node, eip, p) ∈ l /\ egressv1.NodeName node <> nodeName)
  /\ (is_Some ((foldl (partitionStep nodeName) acc l).2 !! p)
      <-> is_Some (acc.2 !! p)
          \/ exists node eip, (node, eip, p) ∈ l /\ egressv1.NodeName node = nodeName).
Proof.
  revert acc. induction l as [|[[node eip] q] l IH]; intros acc; cbn [foldl].
  - split; (split; [auto | intros [?|(?&?&[]%elem_of_nil&_)]; assumption]).
  - destruct (IH (partitionStep nodeName acc (node, eip, q))) as [IH1 IH2].
    rewrite IH1, IH2. clear IH IH1 IH2.
    unfold partitionStep.
    destruct (decide (egressv1.NodeName node = nodeName)) as [Heq|Hne].
    + rewrite bool_decide_eq_true_2 by assumption. cbn [fst snd]. split.
      * split.
        -- intros [?|(n & e & Hin & Hn)]; [now left |].
           right. exists n, e. split; [apply elem_of_cons; now right | exact Hn].
        -- intros [?|(n & e & Hin & Hn)]; [now left |].
           apply elem_of_cons in Hin as [[= -> -> ->]|Hin]; [contradiction |].
           right. eauto.
      * rewrite lookup_insert_is_Some. split.
        -- intros [[->|[_ ?]]|(n & e & Hin & Hn)].
           ++ right. exists node, eip. split; [apply elem_of_cons; now left | exact Heq].
           ++ now left.
           ++ right. exists n, e. split; [apply elem_of_cons; now right | exact Hn].
        -- intros [?|(n & e & Hin & Hn)].
           ++ destruct (decide (q = p)); [left; now left | left; right; auto].
           ++ apply elem_of_cons in Hin as [[= -> -> ->]|Hin]; [left; now left |].
              right. eauto.
    + rewrite bool_decide_eq_false_2 by assumption. cbn [fst snd]. split.
      * rewrite lookup_insert_is_Some. split.
        -- intros [[->|[_ ?]]|(n & e & Hin & Hn)].
           ++ right. exists node, eip. split; [apply elem_of_cons; now left | exact Hne].
           ++ now left.
           ++ right. exists n, e. split; [apply elem_of_cons; now right | exact Hn].
        -- intros [?|(n & e & Hin & Hn)].
           ++ destruct (decide (q = p)); [left; now left | left; right; auto].
           ++ apply elem_of_cons in Hin as [[= -> -> ->]|Hin]; [left; now left |].
              right. eauto.
      * split.
        -- intros [?|(n & e & Hin & Hn)]; [now left |].
           right. exists n, e. split; [apply elem_of_cons; now right | exact Hn].
        -- intros [?|(n & e & Hin & Hn)]; [now left |].
           apply elem_of_cons in Hin as [[= -> -> ->]|Hin]; [contradiction |].
           right. eauto.
Qed.

Lemma partitionStep_val (nodeName : string)
      (acc : gmap egressv1.Policy PolicyCommon * gmap egressv1.Policy PolicyCommon)
      node eip (q p : egressv1.Policy) (val : PolicyCommon) :
  ((partitionStep nodeName acc (node, eip, q)).1 !! p = Some val ->
   acc.1 !! p = Some val
   \/ (q = p /\ egressv1.NodeName node <> nodeName
       /\ val = mkPolicyCommon (egressv1.NodeName node) [] (mkIP "" "")))
  /\ ((partitionStep nodeName acc (node, eip, q)).2 !! p = Some val ->
      acc.2 !! p = Some val
      \/ (q = p /\ egressv1.NodeName node = nodeName
          /\ val = mkPolicyCommon (egressv1.NodeName node) []
                     (mkIP (egressv1.IPv4 eip) (egressv1.IPv6 eip)))).
Proof.
  unfold partitionStep.
  destruct (decide (egressv1.NodeName node = nodeName)) as [Heq|Hne].
  - rewrite bool_decide_eq_true_2 by assumption. cbn [fst snd]. split; [auto |].
    intros [[-> <-]|[_ Hl]]%lookup_insert_Some; auto.
  - rewrite bool_decide_eq_false_2 by assumption. cbn [fst snd]. split; [| auto].
    intros [[-> <-]|[_ Hl]]%lookup_insert_Some; auto.
Qed.

Lemma partition_fold_val (nodeName : string)
      (l : list (egressv1.EgressIPStatus * egressv1.Eips * egressv1.Policy))
      (acc : gmap egressv1.Policy PolicyCommon * gmap egressv1.Policy PolicyCommon)
      (p : egressv1.Policy) (val : PolicyCommon) :
  ((foldl (partitionStep nodeName) acc l).1 !! p = Some val ->
   acc.1 !! p = Some val
   \/ exists node eip, (node, eip, p) ∈ l /\ egressv1.NodeName node <> nodeName
        /\ val = mkPolicyCommon (egressv1.NodeName node) [] (mkIP "" ""))
  /\ ((foldl (partitionStep nodeName) acc l).2 !! p = Some val ->
      acc.2 !! p = Some val
      \/ exists node eip, (node, eip, p) ∈ l /\ egressv1.NodeName node = nodeName
           /\ val = mkPolicyCommon (egressv1.NodeName node) []
                      (mkIP (egressv1.IPv4 eip) (egressv1.IPv6 eip))).
Proof.
  revert acc. induction l as [|[[node eip] q] l IH]; intros acc; cbn [foldl].
  - split; auto.
  - destruct (IH (partitionStep nodeName acc (node, eip, q))) as [IH1 IH2].
    destruct (partitionStep_val nodeName acc node eip q p val) as [S1 S2].
    clear IH. split.
    + intros Hl. apply IH1 in Hl as [Hl|(n & e & Hin & Hn & Hv)].
      * apply S1 in Hl as [Hl|(-> & Hn & Hv)]; [now left |].
        right. exists node, eip. split; [apply elem_of_cons; now left | auto].
      * right. exists n, e. split; [apply elem_of_cons; now right | auto].
    + intros Hl. apply IH2 in Hl as [Hl|(n & e & Hin & Hn & Hv)].
      * apply S2 in Hl as [Hl|(-> & Hn & Hv)]; [now left |].
        right. exists node, eip. split; [apply elem_of_cons; now left | auto].
      * right. exists n, e. split; [apply elem_of_cons; now right | auto].
Qed.

(** X1: the two maps of [initApplyPolicy]: a policy is a key of
    [snatPolicies] exactly when some gateway status lists it under the
    local node, and its entry then carries the local node and the
    addresses of an EIP that lists it; it is a key of [unSnatPolicies]
    exactly when some status lists it under another node, and its entry
    then carries such a node and no address.  A policy listed under both
    is in both maps. *)
Theorem partitionPolicies_listed (nodeName : string)
        (gateways : list egressv1.EgressGateway) (p : egressv1.Policy) :
  (is_Some ((partitionPolicies nodeName gateways).1 !! p)
   <-> listedOn (fun n => n <> nodeName) gateways p)
  /\ (is_Some ((partitionPolicies nodeName gateways).2 !! p)
      <-> listedOn (fun n => n = nodeName) gateways p)
  /\ (forall val, (partitionPolicies nodeName gateways).1 !! p = Some val ->
        NodeName val <> nodeName /\ DestSubnet val = [] /\ PolicyIP val = mkIP "" "")
  /\ (forall val, (partitionPolicies nodeName gateways).2 !! p = Some val ->
        NodeName val = nodeName /\ DestSubnet val = []
        /\ exists node eip, (node, eip, p) ∈ listings gateways
             /\ PolicyIP val = mkIP (egressv1.IPv4 eip) (egressv1.IPv6 eip)).
Proof.
  rewrite partitionPolicies_flat.
  destruct (partition_fold_dom nodeName (listings gateways) (∅, ∅) p) as [D1 D2].
  split; [| split; [| split]].
  - rewrite D1, listedOn_listings. cbn [fst]. rewrite lookup_empty.
    split; [intros [[? [=]]|?]; assumption | auto].
  - rewrite D2, listedOn_listings. cbn [snd]. rewrite lookup_empty.
    split; [intros [[? [=]]|?]; assumption | auto].
  - intros val Hv.
    apply (proj1 (partition_fold_val nodeName _ _ p val)) in Hv
      as [Hv|(n & e & _ & Hn & ->)].
    + cbn [fst] in Hv. now rewrite lookup_empty in Hv.
    + auto.
  - intros val Hv.
    apply (proj2 (partition_fold_val nodeName _ _ p val)) in Hv
      as [Hv|(n & e & Hin & Hn & ->)].
    + cbn [snd] in Hv. now rewrite lookup_empty in Hv.
    + repeat split; eauto.
Qed.

Lemma withDestSubnet_fst (r : policeReconciler B) l : (withDestSubnet r l).*1 = l.*1.
Proof.
  unfold withDestSubnet. induction l as [|[q v] l IH]; [reflexivity |].
  cbn [map fmap list_fmap fst]. f_equal. exact IH.
Qed.

Lemma elem_of_withDestSubnet (r : policeReconciler B) l q v' :
  (q, v') ∈ withDestSubnet r l ->
  exists v, (q, v) ∈ l /\ NodeName v' = NodeName v /\ PolicyIP v' = PolicyIP v
            /\ DestSubnet v' = match fetchDestSubnet q r with Ok d => d | _ => [] end.
Proof.
  unfold withDestSubnet. intros Hin. apply list_elem_of_fmap in Hin as ([q0 v] & Heq & Hin).
  injection Heq as -> ->. exists v. auto.
Qed.

Lemma withDestSubnet_elem_of (r : policeReconciler B) l q v :
  (q, v) ∈ l ->
  (q, mkPolicyCommon (NodeName v)
        (match fetchDestSubnet q r with Ok d => d | _ => [] end) (PolicyIP v))
  ∈ withDestSubnet r l.
Proof.
  intros Hin. unfold withDestSubnet. apply list_elem_of_fmap.
  exists (q, v). split; [reflexivity | exact Hin].
Qed.

Lemma filter_key_absent {V} (l : list (egressv1.Policy * V)) (p : egressv1.Policy) :
  p ∉ l.*1 -> filter (fun x => x.1 = p) l = [].
Proof.
  induction l as [|[q v] l IH]; intros Hp; [reflexivity |].
  cbn [fmap list_fmap fst] in Hp. apply not_elem_of_cons in Hp as [Hne Hp].
  rewrite filter_cons. cbn [fst].
  destruct (decide (q = p)); [congruence | now apply IH].
Qed.

Lemma filter_key_present {V} (l : list (egressv1.Policy * V)) (p : egressv1.Policy) (v : V) :
  NoDup l.*1 -> (p, v) ∈ l -> filter (fun x => x.1 = p) l = [(p, v)].
Proof.
  induction l as [|[q w] l IH]; intros Hnd Hin; [now apply elem_of_nil in Hin |].
  cbn [fmap list_fmap fst] in Hnd. apply NoDup_cons in Hnd as [Hq Hnd].
  rewrite filter_cons. cbn [fst].
  apply elem_of_cons in Hin as [[= <- <-]|Hin].
  - destruct (decide (p = p)); [| congruence].
    now rewrite filter_key_absent.
  - destruct (decide (q = p)) as [->|Hne]; [| now apply IH].
    exfalso. apply Hq. apply list_elem_of_fmap. exists (p, v). auto.
Qed.

(** The rules one policy contributes to a chain built from a map: none
    when the policy is not a key, otherwise the rule of its one entry, if
    the body built one. *)
Lemma contributed_of_map (r : policeReconciler B)
      (f : egressv1.Policy * PolicyCommon -> option iptables.Rule)
      (m : gmap egressv1.Policy PolicyCommon) (p : egressv1.Policy) :
  contributed f (withDestSubnet r (map_to_list m)) p
  = match m !! p with
    | Some v =>
        match f (p, mkPolicyCommon (NodeName v)
                      (match fetchDestSubnet p r with Ok d => d | _ => [] end)
                      (PolicyIP v)) with
        | Some rule => [rule]
        | None => []
        end
    | None => []
    end.
Proof.
  unfold contributed.
  assert (Hnd : NoDup (withDestSubnet r (map_to_list m)).*1).
  { rewrite withDestSubnet_fst. apply NoDup_fst_map_to_list. }
  destruct (m !! p) as [v|] eqn:Hm.
  - apply elem_of_map_to_list in Hm.
    rewrite (filter_key_present _ p _ Hnd (withDestSubnet_elem_of r _ p v Hm)).
    cbn [omap list_omap]. now destruct (f _).
  - rewrite filter_key_absent; [reflexivity |].
    rewrite withDestSubnet_fst. intros Hin.
    apply list_elem_of_fmap in Hin as ([q v] & -> & Hin).
    apply elem_of_map_to_list in Hin. cbn [fst] in Hm. congruence.
Qed.

Lemma committedChain_mangleRebuilt b rules (t : iptables.Table) :
  committedChain (mangleRebuilt b rules t) markChain = Some rules.
Proof.
  unfold committedChain, mangleRebuilt, commit, iptables.UpdateChain.
  cbn [iptables.dataplane iptables.chains iptables.ChainName iptables.Rules
       mbind option_bind fst].
  apply lookup_insert_eq.
Qed.

Lemma committedChain_natRebuilt b rules (t : iptables.Table) :
  committedChain (natRebuilt b rules t) snatChain = Some rules.
Proof.
  unfold committedChain, natRebuilt, commit.
  cbn [iptables.dataplane iptables.chains mbind option_bind fst].
  rewrite chains_insertStatic. unfold iptables.UpdateChain.
  cbn [iptables.chains iptables.ChainName iptables.Rules].
  apply lookup_insert_eq.
Qed.

(** X2: after a successful full rebuild that found a gateway, the chain
    EGRESSGATEWAY-MARK-REQUEST committed for every mangle table consists
    of the rules of the policies of [unSnatPolicies], at most one a
    policy: a policy whose node has an EgressNode object contributes
    exactly one rule, which has the match of the specification for the
    destinations fetched for the policy and sets the mark of that node; a
    policy whose node cannot be fetched, or that is not in the map,
    contributes none. *)
Theorem rebuild_mark_rules (r r' : policeReconciler B) gateways :
  ListEgressGateways (client r) = Ok gateways -> gateways <> [] ->
  initApplyPolicy r = (Ok tt, r') ->
  let unSnatPolicies := (partitionPolicies (config.NodeName (cfg r)) gateways).1 in
  let unSnat := withDestSubnet r (map_to_list unSnatPolicies) in
  Forall2 (fun t t' =>
    let body := ruleOf (markRule (iptables.IPVersion t) r) in
    committedChain t' markChain = Some (omap body unSnat)
    /\ forall p,
         match unSnatPolicies !! p with
         | Some v =>
             match GetEgressNode (client r) (NodeName v) with
             | Found node =>
                 exists mark dest,
                   parseMark (egressv1.Mark node) = Ok mark
                   /\ fetchDestSubnet p r = Ok dest
                   /\ contributed body unSnat p
                      = [iptables.mkRule
                           (specMatch (iptables.IPVersion t) (policyKey p) dest)
                           (iptables.SetMaskedMarkAction mark 0xffffffff) []]
             | _ => contributed body unSnat p = []
             end
         | None => contributed body unSnat p = []
         end)
    (mangleTables r) (mangleTables r').
Proof.
  intros Hg Hne Hrun. cbn zeta.
  destruct (initApplyPolicy_ok r r' gateways Hg Hne Hrun)
    as (b & Hb & Hc & Hcfg & HFun & _ & _ & Hm & _).
  eapply Forall2_impl; [exact Hm |]. intros t t' (rules & Hcr & ->).
  apply collectRules_ok in Hcr as (-> & HFok).
  split; [apply committedChain_mangleRebuilt |].
  intros p. rewrite contributed_of_map.
  destruct (_ !! p) as [v|] eqn:Hp; [| reflexivity].
  pose proof Hp as Hin. apply elem_of_map_to_list in Hin.
  pose proof (proj1 (Forall_forall _ _) HFun _ Hin) as (dest & Hd). cbn [fst] in Hd.
  pose proof (proj1 (Forall_forall _ _) HFok _ (withDestSubnet_elem_of r _ p v Hin))
    as (o & Ho).
  rewrite Hd in *. unfold ruleOf. rewrite Ho.
  rewrite markRule_spec in Ho. cbn [NodeName DestSubnet] in Ho.
  destruct (GetEgressNode (client r) (NodeName v)) as [node| |e].
  - destruct (parseMark (egressv1.Mark node)) as [mark|e|]; try discriminate.
    injection Ho as <-. exists mark, dest. auto.
  - now injection Ho as <-.
  - now injection Ho as <-.
Qed.

(** X3: after a successful full rebuild that found a gateway, the chain
    EGRESSGATEWAY-SNAT-EIP committed for every nat table consists of the
    rules of the policies of [snatPolicies], at most one a policy: a
    policy whose EIP has an address contributes exactly one rule, which
    has the match of the specification for the destinations fetched for
    the policy and source-NATs to the address of the family of the table
    (the empty string when the EIP has none of that family); a policy
    whose EIP is empty, or that is not in the map, contributes none. *)
Theorem rebuild_snat_rules (r r' : policeReconciler B) gateways :
  ListEgressGateways (client r) = Ok gateways -> gateways <> [] ->
  initApplyPolicy r = (Ok tt, r') ->
  let snatPolicies := (partitionPolicies (config.NodeName (cfg r)) gateways).2 in
  let snat := withDestSubnet r (map_to_list snatPolicies) in
  Forall2 (fun t t' =>
    let body := ruleOf (snatRule (iptables.IPVersion t)) in
    committedChain t' snatChain = Some (omap body snat)
    /\ forall p,
         match snatPolicies !! p with
         | Some v =>
             if bool_decide (V4 (PolicyIP v) = "") && bool_decide (V6 (PolicyIP v) = "")
             then contributed body snat p = []
             else exists dest,
                    fetchDestSubnet p r = Ok dest
                    /\ contributed body snat p
                       = [iptables.mkRule
                            (specMatch (iptables.IPVersion t) (policyKey p) dest)
                            (iptables.SNATAction
                               (if iptables.IPVersion t =? 6
                                then V6 (PolicyIP v) else V4 (PolicyIP v))) []]
         | None => contributed body snat p = []
         end)
    (natTables r) (natTables r').
Proof.
  intros Hg Hne Hrun. cbn zeta.
  destruct (initApplyPolicy_ok r r' gateways Hg Hne Hrun)
    as (b & Hb & Hc & Hcfg & _ & HFsn & _ & _ & Hn).
  eapply Forall2_impl; [exact Hn |]. intros t t' (rules & Hcr & ->).
  apply collectRules_ok in Hcr as (-> & HFok).
  split; [apply committedChain_natRebuilt |].
  intros p. rewrite contributed_of_map.
  destruct (_ !! p) as [v|] eqn:Hp; [| reflexivity].
  pose proof Hp as Hin. apply elem_of_map_to_list in Hin.
  pose proof (proj1 (Forall_forall _ _) HFsn _ Hin) as (dest & Hd). cbn [fst] in Hd.
  rewrite Hd. unfold ruleOf. rewrite snatRule_spec. cbn [PolicyIP DestSubnet].
  destruct (_ && _); [reflexivity |]. exists dest. auto.
Qed.

End rules.

Lemma rebuild_mark_rules_witness :
  Forall2 (fun t t' =>
     committedChain t' agent.markChain
     = Some (omap (ruleOf (agent.markRule (iptables.IPVersion t)
                             (scenario.fresh (scenario.apiServer "nodeB" ["10.6.1.92/32"] true))))
                  (withDestSubnet
                     (scenario.fresh (scenario.apiServer "nodeB" ["10.6.1.92/32"] true))
                     (map_to_list
                        (agent.partitionPolicies "nodeA"
                           [egressv1.mkEgressGateway
                              [egressv1.mkEgressIPStatus "nodeB"
                                 [egressv1.mkEips "192.168.10.5" "" [scenario.app]]]]).1))))
    [scenario.emptyTable "mangle"] (agent.mangleTables scenario.rebuiltRemote).
Proof.
  eapply Forall2_impl.
  - exact (rebuild_mark_rules _ _ _
             (eq_refl : ListEgressGateways
                          (agent.client
                             (scenario.fresh
                                (scenario.apiServer "nodeB" ["10.6.1.92/32"] true)))
                        = Ok _)
             ltac:(discriminate) rebuiltRemote_run).
  - intros t t' [Hc _]. exact Hc.
Defined.

Lemma rebuild_snat_rules_witness :
  Forall2 (fun t t' =>
     committedChain t' agent.snatChain
     = Some (omap (ruleOf (agent.snatRule (iptables.IPVersion t)))
                  (withDestSubnet
                     (scenario.fresh (scenario.apiServer "nodeA" ["10.6.1.92/32"] true))
                     (map_to_list
                        (agent.partitionPolicies "nodeA"
                           [egressv1.mkEgressGateway
                              [egressv1.mkEgressIPStatus "nodeA"
                                 [egressv1.mkEips "192.168.10.5" "" [scenario.app]]]]).2))))
    [scenario.emptyTable "nat"] (agent.natTables scenario.rebuiltLocal).
Proof.
  eapply Forall2_impl.
  - exact (rebuild_snat_rules _ _ _
             (eq_refl : ListEgressGateways
                          (agent.client
                             (scenario.fresh
                                (scenario.apiServer "nodeA" ["10.6.1.92/32"] true)))
                        = Ok _)
             ltac:(discriminate) rebuiltLocal_run).
  - intros t t' [Hc _]. exact Hc.
Defined.

(** ** The ipsets of a policy *)

Section ipsets.

Import agent.
Context {B : Type} `{!ipset.Interface B}.

(** X4: a successful [createIPSet] is idempotent: run again on the
    reconciler it left, it succeeds without calling the backend and
    changes nothing.  After the first run the name is in the cache when
    the family of the set is enabled; when the family is disabled the
    first run has changed nothing either. *)
Theorem createIPSet_idempotent (set : SetName) (r r1 : policeReconciler B) :
  createIPSet set r = (Ok tt, r1) ->
  createIPSet set r1 = (Ok tt, r1)
  /\ (stackEnabled (cfg r) (Stack set) = true -> is_Some (ipsetMap r1 !! Name set))
  /\ (stackEnabled (cfg r) (Stack set) = false -> r1 = r).
Proof.
  unfold createIPSet.
  destruct (ipsetMap r !! Name set) as [cached|] eqn:Hc.
  - intros [= <-]. rewrite Hc. repeat split; eauto.
  - destruct (Stack set) eqn:Hs; cbn [stackEnabled];
      rewrite ?bool_decide_eq_true_2 by reflexivity;
      rewrite ?bool_decide_eq_false_2 by discriminate;
      cbn [andb];
      destruct (config.EnableIPv4 (cfg r)) eqn:H4;
      destruct (config.EnableIPv6 (cfg r)) eqn:H6; cbn [negb];
      try (intros [= <-]; rewrite Hc, ?Hs;
           rewrite ?bool_decide_eq_true_2 by reflexivity;
           rewrite ?bool_decide_eq_false_2 by discriminate;
           rewrite ?H4, ?H6; cbn [andb negb];
           repeat split; (reflexivity || discriminate));
      destruct (ipset.CreateSet _ true (ipsetB r)) as [[err|] b]; try discriminate;
      intros [= <-]; cbn [ipsetMap set_ipsetMap set_ipsetB];
      rewrite lookup_insert_eq; repeat split; eauto; discriminate.
Qed.

Lemma getDstCIDR_from_bad (items ipv4List ipv6List : list string) :
  Exists (fun item => GoNet.ParseCIDR item = None) items ->
  exists item, item ∈ items /\ GoNet.ParseCIDR item = None
    /\ getDstCIDR_from items ipv4List ipv6List
       = Err (errorString ("invalid CIDR address: " +:+ item)).
Proof.
  intros HE. revert ipv4List ipv6List.
  induction HE as [item items Hp | item items _ IH]; intros ipv4List ipv6List;
    cbn [getDstCIDR_from].
  - rewrite Hp. exists item. repeat split; [apply elem_of_cons; now left | exact Hp].
  - destruct (GoNet.ParseCIDR item) as [[ip ipNet]|] eqn:Hp.
    + assert (Hrest : forall a b, exists item0, item0 ∈ item :: items
                /\ GoNet.ParseCIDR item0 = None
                /\ getDstCIDR_from items a b
                   = Err (errorString ("invalid CIDR address: " +:+ item0))).
      { intros a b. destruct (IH a b) as (item0 & Hin & Hn & He).
        exists item0. repeat split; [apply elem_of_cons; now right | exact Hn | exact He]. }
      destruct (GoNet.isEmpty_list ip); [apply Hrest |].
      destruct (negb _); apply Hrest.
    + exists item. repeat split; [apply elem_of_cons; now left | exact Hp].
Qed.

(** X5: a destination of the policy that does not parse as a CIDR stops
    [updatePolicyIPSet] before it touches any set: once the endpoint
    slices are listed it returns the error of that entry, and the
    reconciler, the backend and the cache included, is unchanged: not
    even the source sets of the policy are created or updated.  The
    policy reconcile that meets it asks for a requeue with that error. *)
Theorem updatePolicyIPSet_invalid_destSubnet
        (ns name : string) (isEip : bool) (destSubnet : list string)
        (eps : list egressv1.EgressEndpointSlice) (r : policeReconciler B) :
  slicesOf (client r) ns name = Ok eps ->
  Exists (fun item => GoNet.ParseCIDR item = None) destSubnet ->
  exists item, item ∈ destSubnet /\ GoNet.ParseCIDR item = None
    /\ updatePolicyIPSet ns name isEip destSubnet r
       = (Err (errorString ("invalid CIDR address: " +:+ item)), r)
    /\ forall policy gateway,
         GetEgressPolicy (client r) ns name = Found policy ->
         egressv1.DeletionTimestampIsZero policy = true ->
         egressv1.DestSubnet policy = destSubnet ->
         GetEgressGateway (client r) ns name = Found gateway ->
         reconcilePolicy ns name r
         = (Returned true (Some (errorString ("invalid CIDR address: " +:+ item))), r).
Proof.
  intros Hs HE.
  destruct (getDstCIDR_from_bad destSubnet [] [] HE) as (item & Hin & Hn & He).
  exists item. split; [exact Hin | split; [exact Hn |]].
  assert (Hu : forall flag, updatePolicyIPSet ns name flag destSubnet r
               = (Err (errorString ("invalid CIDR address: " +:+ item)), r)).
  { intros flag. unfold updatePolicyIPSet, bind, lift at 1, getPolicySrcIPs.
    unfold slicesOf in Hs. rewrite Hs. unfold lift, getDstCIDR. now rewrite He. }
  split; [apply Hu |].
  intros policy gateway Hp Hz Hd Hg.
  unfold reconcilePolicy, reconcileFetched. rewrite Hp, Hz, Hg, Hd. cbn [negb].
  now rewrite Hu.
Qed.

Lemma reconcileFetched_sameEnv (got : GetResult egressv1.EgressPolicy)
      (ns name : string) (r : policeReconciler B) :
  sameEnv r (reconcileFetched got ns name r).2.
Proof.
  unfold reconcileFetched.
  destruct got as [policy| |e]; cbn [snd]; try apply sameEnv_refl.
  - destruct (negb (egressv1.DeletionTimestampIsZero policy)).
    + destruct (buildIPSetNamesByPolicy ns name true true) as [setNames|];
        [| apply sameEnv_refl]. cbn [snd].
      generalize r. induction setNames as [|x l IH]; intros r0; cbn [foldl].
      * apply sameEnv_refl.
      * eapply sameEnv_trans; [apply removeIPSet_sameEnv |].
        eapply sameEnv_trans; [| apply IH].
        repeat split.
    + destruct (GetEgressGateway (client r) ns name); try apply sameEnv_refl.
      destruct (updatePolicyIPSet _ _ _ _ r) as [[u|e|] r'] eqn:Hu; cbn [snd];
        exact (preserves_updatePolicyIPSet _ _ _ _ _ _ _ Hu).
  - destruct (buildIPSetNamesByPolicy ns name true true) as [setNames|];
      [| apply sameEnv_refl]. cbn [snd].
    generalize r. induction setNames as [|x l IH]; intros r0; cbn [foldl].
    + apply sameEnv_refl.
    + eapply sameEnv_trans; [apply removeIPSet_sameEnv |].
      eapply sameEnv_trans; [| apply IH].
      repeat split.
Qed.

(** X6: whatever the API server and the backend answer, the reconcile of
    a policy and of a cluster policy leave the client, the configuration
    and the mangle, filter and nat tables of the agent as they are: they
    work on ipsets only, and no rule of a policy is added, changed or
    removed outside the full rebuild. *)
Theorem policy_reconcile_keeps_tables (ns name : string) (r : policeReconciler B) :
  sameEnv r (reconcilePolicy ns name r).2
  /\ sameEnv r (reconcileClusterPolicy ns name r).2.
Proof. split; apply reconcileFetched_sameEnv. Qed.

(** X7: when the cluster policy object is absent or carries a deletion
    timestamp, [reconcileClusterPolicy] returns success whatever the
    backend answers; it calls [DestroySet], in order, for those of the
    four set names of the policy, of both families whatever the
    configuration enables, that are in the cache; afterwards none of the
    four names is cached and the rest of the cache is as before. *)
Theorem reconcileClusterPolicy_delete_path (reqNamespace reqName : string)
        (r : policeReconciler B) :
  deletedOrAbsent (GetEgressClusterPolicy (client r) reqNamespace reqName) ->
  exists r',
    reconcileClusterPolicy reqNamespace reqName r = (Returned false None, r')
    /\ (forall n, n ∈ policySetNames reqNamespace reqName -> ipsetMap r' !! n = None)
    /\ (forall n, n ∉ policySetNames reqNamespace reqName ->
          ipsetMap r' !! n = ipsetMap r !! n)
    /\ ipsetB r'
       = foldl (fun b n => (ipset.DestroySet n b).2) (ipsetB r)
               (filter (fun n => is_Some (ipsetMap r !! n))
                       (policySetNames reqNamespace reqName)).
Proof.
  intros Hdel.
  destruct (reconcileFetched_deleted _ reqNamespace reqName r Hdel)
    as (r' & Hr & _ & H1 & H2 & H3).
  exists r'. repeat split; assumption.
Qed.

Lemma srcIPs_endpoints (f : egressv1.EgressEndpoint -> bool)
      (es : list egressv1.EgressEndpoint) (acc : list string * list string) :
  foldl (fun '(ipv4List, ipv6List) e =>
           if f e
           then (ipv4List ++ egressv1.EndpointIPv4 e,
                 ipv6List ++ egressv1.EndpointIPv6 e)
           else (ipv4List, ipv6List)) acc es
  = (acc.1 ++ concat (map egressv1.EndpointIPv4 (List.filter f es)),
     acc.2 ++ concat (map egressv1.EndpointIPv6 (List.filter f es))).
Proof.
  revert acc. induction es as [|e es IH]; intros [a4 a6]; cbn [foldl List.filter].
  - cbn. now rewrite !app_nil_r.
  - destruct (f e); rewrite IH; cbn [fst snd map concat]; [| reflexivity].
    now rewrite <- !app_assoc.
Qed.

Lemma srcIPs_slices (f : egressv1.EgressEndpoint -> bool)
      (eps : list egressv1.EgressEndpointSlice) (acc : list string * list string) :
  foldl (fun acc ep =>
           if egressv1.SliceDeletionTimestampIsZero ep then
             foldl (fun '(ipv4List, ipv6List) e =>
                      if f e
                      then (ipv4List ++ egressv1.EndpointIPv4 e,
                            ipv6List ++ egressv1.EndpointIPv6 e)
                      else (ipv4List, ipv6List))
                   acc (egressv1.Endpoints ep)
           else acc) acc eps
  = (acc.1 ++ concat (map egressv1.EndpointIPv4 (selectedEndpoints eps f)),
     acc.2 ++ concat (map egressv1.EndpointIPv6 (selectedEndpoints eps f))).
Proof.
  revert acc. induction eps as [|ep eps IH]; intros [a4 a6]; cbn [foldl].
  - cbn. now rewrite !app_nil_r.
  - rewrite IH. unfold selectedEndpoints. rewrite bind_cons.
    fold (selectedEndpoints eps f).
    destruct (egressv1.SliceDeletionTimestampIsZero ep).
    + rewrite srcIPs_endpoints. cbn [fst snd].
      now rewrite !map_app, !concat_app, <- !app_assoc.
    + reflexivity.
Qed.

(** X8: when the endpoint slices of the policy are listed,
    [getPolicySrcIPs] returns, family by family, the addresses of the
    endpoints that pass the filter, endpoint after endpoint in the order
    of the slices, repetitions kept; the endpoints of a slice that carries
    a deletion timestamp are left out.  So an address is a source of the
    policy exactly when an endpoint of a live slice that passes the filter
    holds it. *)
Theorem getPolicySrcIPs_selected (ns name : string)
        (f : egressv1.EgressEndpoint -> bool)
        (eps : list egressv1.EgressEndpointSlice) (r : policeReconciler B) :
  slicesOf (client r) ns name = Ok eps ->
  getPolicySrcIPs ns name f r
  = Ok (concat (map egressv1.EndpointIPv4 (selectedEndpoints eps f)),
        concat (map egressv1.EndpointIPv6 (selectedEndpoints eps f)))
  /\ forall e, e ∈ selectedEndpoints eps f
       <-> exists slice, slice ∈ eps
             /\ egressv1.SliceDeletionTimestampIsZero slice = true
             /\ e ∈ egressv1.Endpoints slice /\ f e = true.
Proof.
  intros Hs. split.
  - unfold getPolicySrcIPs. unfold slicesOf in Hs. rewrite Hs.
    unfold srcIPsOfSlices. now rewrite srcIPs_slices.
  - intros e. unfold selectedEndpoints. rewrite list_elem_of_bind. split.
    + intros (slice & He & Hin). exists slice.
      destruct (egressv1.SliceDeletionTimestampIsZero slice);
        [| now apply not_elem_of_nil in He].
      apply list_elem_of_In, filter_In in He as [He Hf].
      repeat split; [exact Hin | now apply list_elem_of_In | exact Hf].
    + intros (slice & Hin & Hz & He & Hf). exists slice. split; [| exact Hin].
      rewrite Hz. apply list_elem_of_In, filter_In.
      split; [now apply list_elem_of_In | exact Hf].
Qed.

End ipsets.

(** ** The marks *)

Section marks.

Import agent.
Context {B : Type} `{!ipset.Interface B}.

Lemma hexval_range (c : ascii) (d : Z) : GoNet.hexval c = Some d -> 0 <= d < 16.
Proof.
  unfold GoNet.hexval. cbn zeta.
  destruct ((48 <=? GoNet.code c) && (GoNet.code c <=? 57)) eqn:H1;
    [intros [= <-]; lia |].
  destruct ((97 <=? GoNet.code c) && (GoNet.code c <=? 102)) eqn:H2;
    [intros [= <-]; lia |].
  destruct ((65 <=? GoNet.code c) && (GoNet.code c <=? 70)) eqn:H3;
    [intros [= <-]; lia | discriminate].
Qed.

Lemma hexDigits_nonneg (s : string) (acc v : Z) :
  hexDigits s acc = Some v -> 0 <= acc -> 0 <= v.
Proof.
  revert acc. induction s as [|c s IH]; intros acc; cbn [hexDigits].
  - intros [= <-]. auto.
  - destruct (GoNet.hexval c) as [d|] eqn:Hd; [| discriminate].
    intros Hv Ha. apply (IH _ Hv). apply hexval_range in Hd. lia.
Qed.

Lemma not_minus_prefix (c : ascii) (s : string) :
  GoStrings.HasPrefix (String c s) "-" = false -> Ascii.eqb c "-" = false.
Proof.
  cbn [GoStrings.HasPrefix]. rewrite Ascii.eqb_sym.
  destruct (Ascii.eqb c "-"); [| reflexivity].
  destruct s; discriminate.
Qed.

(** X9: a mark that [parseMark] accepts is a 32-bit value, and unless
    the text, once every "0x" is removed, starts with a minus sign, it is
    below 2^31: the text is read as a signed 32-bit number, so a mark with
    its top bit set, 0x80000000 for one, is refused. *)
Theorem parseMark_range (mark : string) (m : Z) :
  parseMark mark = Ok m ->
  0 <= m < 2 ^ 32
  /\ (GoStrings.HasPrefix (GoStrings.ReplaceAll mark "0x" "") "-" = false ->
      m < 2 ^ 31).
Proof.
  unfold parseMark.
  destruct (ParseInt_16_32 _) as [i64|e|] eqn:Hp; try discriminate.
  intros [= <-]. split; [apply Z.mod_pos_bound; lia |].
  intros Hneg.
  destruct (GoStrings.ReplaceAll mark "0x" "") as [|c rest]; [discriminate |].
  apply not_minus_prefix in Hneg.
  unfold ParseInt_16_32 in Hp. rewrite Hneg in Hp.
  assert (Hun : exists digits un, hexDigits digits 0 = Some un
                  /\ (un >=? 2 ^ 31) = false /\ i64 = un).
  { destruct (Ascii.eqb c "+").
    - destruct (GoNet.isEmpty rest); [discriminate |].
      destruct (hexDigits rest 0) as [un|] eqn:Hh; [| discriminate].
      cbn [negb andb] in Hp.
      destruct (un >=? 2 ^ 31) eqn:Hc; [discriminate |].
      injection Hp as <-. eauto.
    - destruct (GoNet.isEmpty (String c rest)); [discriminate |].
      destruct (hexDigits (String c rest) 0) as [un|] eqn:Hh; [| discriminate].
      cbn [negb andb] in Hp.
      destruct (un >=? 2 ^ 31) eqn:Hc; [discriminate |].
      injection Hp as <-. eauto. }
  destruct Hun as (digits & un & Hh & Hc & ->).
  apply hexDigits_nonneg in Hh; [| lia].
  rewrite Z.mod_small; lia.
Qed.

(** X10: a base mark of the configuration that [parseMark] refuses is
    noticed by the full rebuild only when a gateway exists: without any
    gateway the rebuild succeeds and changes nothing; with one it does
    not succeed, and the client, the configuration and the tables are as
    before, the mark being read before any table is touched. *)
Theorem initApplyPolicy_invalid_mark (r : policeReconciler B)
        (gateways : list egressv1.EgressGateway) (e : error) :
  ListEgressGateways (client r) = Ok gateways ->
  parseMark (config.Mark (cfg r)) = Err e ->
  (gateways = [] -> initApplyPolicy r = (Ok tt, r))
  /\ (gateways <> [] ->
      (initApplyPolicy r).1 <> Ok tt /\ sameEnv r (initApplyPolicy r).2).
Proof.
  intros Hg Hm. unfold initApplyPolicy. rewrite Hg. split.
  - intros ->. reflexivity.
  - intros Hne. destruct gateways as [|g0 gateways0]; [contradiction |].
    cbn [List.length Nat.eqb].
    destruct (partitionPolicies _ _) as [unSnatPolicies snatPolicies].
    match goal with
    | |- (?run r).1 <> _ /\ _ =>
        destruct (run r) as [res r'] eqn:Hrun
    end.
    cbn [fst snd]. revert Hrun.
    unfold bind at 1.
    destruct (refreshPolicies false _ r) as [[unSnat|e1|] r1] eqn:H1;
      pose proof (preserves_refreshPolicies _ _ _ _ _ H1) as He1;
      try (intros [= <- <-]; split; [discriminate | exact He1]).
    unfold bind at 1.
    destruct (refreshPolicies true _ r1) as [[snat|e2|] r2] eqn:H2;
      pose proof (preserves_refreshPolicies _ _ _ _ _ H2) as He2;
      try (intros [= <- <-]; split;
           [discriminate | eapply sameEnv_trans; eassumption]).
    unfold bind at 1, lift. rewrite Hm.
    intros [= <- <-]. split; [discriminate | eapply sameEnv_trans; eassumption].
Qed.

End marks.

Lemma createIPSet_run :
  agent.createIPSet
    (agent.mkSetName "egress-src-v4-d8934174b5b16becd" agent.IPv4 agent.IPSrc)
    (scenario.fresh scenario.noGateway)
  = (Ok tt,
     (agent.createIPSet
        (agent.mkSetName "egress-src-v4-d8934174b5b16becd" agent.IPv4 agent.IPSrc)
        (scenario.fresh scenario.noGateway)).2).
Proof. vm_compute. reflexivity. Qed.

Lemma createIPSet_idempotent_witness :
  let set := agent.mkSetName "egress-src-v4-d8934174b5b16becd" agent.IPv4 agent.IPSrc in
  let r1 := (agent.createIPSet set (scenario.fresh scenario.noGateway)).2 in
  agent.createIPSet set r1 = (Ok tt, r1)
  /\ is_Some (agent.ipsetMap r1 !! "egress-src-v4-d8934174b5b16becd").
Proof.
  cbn zeta.
  destruct (createIPSet_idempotent _ _ _ createIPSet_run) as (Hagain & Hcached & _).
  split; [exact Hagain | apply Hcached; reflexivity].
Defined.

Lemma updatePolicyIPSet_invalid_destSubnet_witness :
  let r := scenario.fresh (scenario.apiServer "nodeA" ["10.6.1.92"] true) in
  exists item, item ∈ ["10.6.1.92"]
    /\ agent.updatePolicyIPSet "ns1" "app" true ["10.6.1.92"] r
       = (Err (errorString ("invalid CIDR address: " +:+ item)), r).
Proof.
  cbn zeta.
  destruct (updatePolicyIPSet_invalid_destSubnet "ns1" "app" true ["10.6.1.92"] _
              (scenario.fresh (scenario.apiServer "nodeA" ["10.6.1.92"] true))
              eq_refl)
    as (item & Hin & _ & Hu & _).
  - apply Exists_cons_hd. vm_compute. reflexivity.
  - exists item. split; [exact Hin | exact Hu].
Defined.

Lemma reconcileClusterPolicy_delete_path_witness :
  exists r',
    agent.reconcileClusterPolicy "" "app" (scenario.fresh scenario.noGateway)
    = (agent.Returned false None, r').
Proof.
  destruct (reconcileClusterPolicy_delete_path "" "app"
              (scenario.fresh scenario.noGateway) (or_introl eq_refl))
    as (r' & Hr & _).
  exists r'. exact Hr.
Defined.

Lemma getPolicySrcIPs_selected_witness :
  agent.getPolicySrcIPs "ns1" "app"
    (fun e => bool_decide (egressv1.Node e = "nodeA"))
    (scenario.fresh (scenario.apiServer "nodeA" ["10.6.1.92/32"] true))
  = Ok (["10.244.0.7"], []).
Proof.
  exact (proj1 (getPolicySrcIPs_selected "ns1" "app"
                  (fun e => bool_decide (egressv1.Node e = "nodeA")) _
                  (scenario.fresh (scenario.apiServer "nodeA" ["10.6.1.92/32"] true))
                  eq_refl)).
Defined.

Lemma parseMark_range_witness : 0 <= 0x26000000 < 2 ^ 31.
Proof.
  destruct (parseMark_range "0x26000000" 0x26000000) as [[Hlo _] Hhi].
  - vm_compute. reflexivity.
  - split; [exact Hlo | apply Hhi; vm_compute; reflexivity].
Defined.

Lemma initApplyPolicy_invalid_mark_witness :
  let r := agent.mkReconciler scenario.noGateway
             (config.mkConfig "nodeA" true false "0x80000000" [])
             ∅ (∅ : ipset.kernel) [] [] [] in
  agent.initApplyPolicy r = (Ok tt, r).
Proof.
  cbn zeta.
  refine (proj1 (initApplyPolicy_invalid_mark
                   (agent.mkReconciler scenario.noGateway
                      (config.mkConfig "nodeA" true false "0x80000000" [])
                      ∅ (∅ : ipset.kernel) [] [] [])
                   [] agent.errRange eq_refl _) eq_refl).
  vm_compute. reflexivity.
Defined.
